(** * qsiprep interfaces: gradient tables, transform lists and image geometry

    A shallow embedding of [qsiprep/interfaces/gradients.py] and
    [qsiprep/interfaces/images.py].

    Conventions of the embedding.
    - Python exceptions are values of [exn]; a call that may raise returns a
      [result].
    - Code that reads or writes files, or runs an external program, is a
      function of the monad [M]: it threads a [world] (the file system and the
      list of external tool runs) and keeps the world reached when an
      exception is raised (Python does not roll back).
    - A number read from a text file or held in a numpy float array is a
      rational [Qc] standing for the exact value of the double.  Only
      operations that are exact on doubles are computed in the model
      (negation, multiplication by +1/-1, truncation, decimal rounding of the
      printed text); square roots and eigen-decompositions are taken from the
      numerical libraries as members of [Externals].
    - The programs qsiprep starts ([antsApplyTransforms], [ImageMath],
      [fslmerge], ...) and the library routines whose code is not part of the
      repository (nibabel, dipy, nilearn) are the members of the class
      [Externals]. *)

From Stdlib Require Import ZArith QArith Qcanon Qround Ascii String DecimalString DecimalNat
  Sorted Lqa.
From stdpp Require Import base tactics option list numbers strings gmap.

(** ** Python exceptions *)

Inductive exn : Type :=
| Exception (msg : string)
| ValueError (msg : string)
| IndexError (msg : string)
| AttributeError (msg : string)
| TypeError
| AssertionError
| RuntimeError (msg : string)
| IOError (path : string).

Inductive result (A : Type) : Type :=
| Ok (a : A)
| Raise (e : exn).
Arguments Ok {A} a.
Arguments Raise {A} e.

#[global] Instance exn_eq_dec : EqDecision exn.
Proof. solve_decision. Defined.

#[global] Instance result_eq_dec `{EqDecision A} : EqDecision (result A).
Proof. solve_decision. Defined.

#[global] Instance result_ret : MRet result := @Ok.
#[global] Instance result_bind : MBind result := λ A B f m,
  match m with
  | Ok a => f a
  | Raise e => Raise e
  end.

(** [for x in xs: acc.append(f(x))], stopping at the first exception. *)
Fixpoint for_each {A B : Type} (f : A → result B) (xs : list A) : result (list B) :=
  match xs with
  | [] => Ok []
  | x :: xs' =>
      match f x with
      | Ok y =>
          match for_each f xs' with
          | Ok ys => Ok (y :: ys)
          | Raise e => Raise e
          end
      | Raise e => Raise e
      end
  end.

(** [l[i]] on a Python list, for a non-negative index. *)
Definition getitem {A : Type} (l : list A) (i : nat) : result A :=
  match l !! i with
  | Some x => Ok x
  | None => Raise (IndexError "list index out of range")
  end.

(** ** Numbers, numpy arrays and text formats *)

(** A numpy array of floats with zero, one or two dimensions. *)
Inductive ndarray : Type :=
| Arr0 (x : Qc)
| Arr1 (xs : list Qc)
| Arr2 (rows : list (list Qc)).

#[global] Instance ndarray_eq_dec : EqDecision ndarray.
Proof. solve_decision. Defined.

(** [int(x)]: truncation toward zero, what ["%i" % x] prints. *)
Definition Qtruncate (x : Q) : Z :=
  if Qlt_le_dec x 0 then Qceiling x else Qfloor x.

(** The value read back from the text ["%i" % x]. *)
Definition fmt_i (x : Qc) : Qc := Qc_of_Z (Qtruncate x).

(** Rounding to the nearest integer, ties to even (C's printf on the exact
    binary value). *)
Definition Qround_half_even (x : Q) : Z :=
  let f := Qfloor x in
  match (x - inject_Z f ?= 1 # 2)%Q with
  | Lt => f
  | Gt => (f + 1)%Z
  | Eq => if Z.even f then f else (f + 1)%Z
  end.

(** The value read back from the text ["%.8f" % x]. *)
Definition fmt_8f (x : Qc) : Qc :=
  Q2Qc (inject_Z (Qround_half_even (x * inject_Z (10 ^ 8))) / inject_Z (10 ^ 8)).

(** The value read back from ["%.18e" % x], numpy's default: nineteen
    significant digits give back every double. *)
Definition fmt_18e (x : Qc) : Qc := x.

(** [np.squeeze] *)
Definition np_squeeze (a : ndarray) : ndarray :=
  match a with
  | Arr0 x => Arr0 x
  | Arr1 [x] => Arr0 x
  | Arr1 xs => Arr1 xs
  | Arr2 [[x]] => Arr0 x
  | Arr2 [row] => Arr1 row
  | Arr2 rows =>
      if forallb (λ row, bool_decide (length row = 1)) rows
      then Arr1 (concat rows) else Arr2 rows
  end.

(** [np.concatenate] along the first axis: every array must have the
    dimensions of the first one, and the same number of columns. *)
Definition same_1d (a : ndarray) : result (list Qc) :=
  match a with
  | Arr1 ys => Ok ys
  | Arr0 _ | Arr2 _ =>
      Raise (ValueError "all the input arrays must have same number of dimensions")
  end.

Definition same_2d (rows : list (list Qc)) (a : ndarray) : result (list (list Qc)) :=
  match a with
  | Arr2 rows' =>
      if decide (length <$> head rows' = length <$> head rows) then Ok rows'
      else Raise (ValueError "all the input array dimensions except for the concatenation axis must match exactly")
  | Arr0 _ | Arr1 _ =>
      Raise (ValueError "all the input arrays must have same number of dimensions")
  end.

Definition np_concatenate (arrays : list ndarray) : result ndarray :=
  match arrays with
  | [] => Raise (ValueError "need at least one array to concatenate")
  | Arr0 _ :: _ => Raise (ValueError "zero-dimensional arrays cannot be concatenated")
  | Arr1 xs :: rest =>
      xss ← for_each same_1d rest;
      Ok (Arr1 (xs ++ concat xss))
  | Arr2 rows :: rest =>
      rowss ← for_each (same_2d rows) rest;
      Ok (Arr2 (rows ++ concat rowss))
  end.

(** [np.atleast_2d] *)
Definition np_atleast_2d (a : ndarray) : list (list Qc) :=
  match a with
  | Arr0 x => [[x]]
  | Arr1 xs => [xs]
  | Arr2 rows => rows
  end.

(** [np.row_stack] (numpy's [vstack]): a two-dimensional array. *)
Definition np_row_stack (arrays : list ndarray) : result (list (list Qc)) :=
  a ← np_concatenate ((λ a, Arr2 (np_atleast_2d a)) <$> arrays);
  Ok (np_atleast_2d a).

(** The transpose of a two-dimensional array with [ncols] columns. *)
Fixpoint np_transpose (ncols : nat) (rows : list (list Qc)) : list (list Qc) :=
  match ncols with
  | 0 => []
  | S n => ((λ row, default 0%Qc (head row)) <$> rows)
           :: np_transpose n (tail <$> rows)
  end.

(** ** Images *)

(** A NIfTI image as nibabel holds it.  [get_data] lists the voxels of the
    three-dimensional grid, each with its values along the remaining axes;
    [shape] is the shape of the data array. *)
Record nifti : Type := Nifti1Image {
  get_data : list (list Qc);
  shape : list nat;
  affine : list (list Qc);
  zooms : list Qc;
  xyz_unit : string;
  data_dtype : string;
  intent : string
}.

#[global] Instance nifti_eq_dec : EqDecision nifti.
Proof. solve_decision. Defined.

(** ** Files, external runs and the monad of effects *)

Inductive file : Type :=
| Text (rows : list (list Qc))
    (** whitespace-separated numbers, one list per line *)
| Csv (header : string) (rows : list (list Qc))
    (** a header line, then comma-separated numbers *)
| Nifti (img : nifti)
| Lines (text : list string)
    (** any other text, by line *)
| Binary (tag : string)
    (** a file only external programs read (an ITK transform, a warp) *).

#[global] Instance file_eq_dec : EqDecision file.
Proof. solve_decision. Defined.

(** What the interfaces start outside Python. *)
Inductive tool_run : Type :=
| os_system (cmd : string)
| fsl_Split (dimension in_file : string)
| fsl_Merge (dimension : string) (in_files : list string)
| fsl_MCFLIRT (cost : string) (ref_vol : nat) (in_file : string)
| ants_ApplyTransforms (input_image : string) (transforms : list string)
    (output_image reference_image interpolation : string).

#[global] Instance tool_run_eq_dec : EqDecision tool_run.
Proof. solve_decision. Defined.

Record world : Type := World {
  files : gmap string file;
  runs : list tool_run
}.

#[global] Instance world_eq_dec : EqDecision world.
Proof. solve_decision. Defined.

(** The file at [path] is a text table with these lines. *)
Definition holds_table (w : world) (path : string) (lines : list (list Qc)) : Prop :=
  files w !! path = Some (Text lines).

#[global] Instance holds_table_dec w path lines : Decision (holds_table w path lines).
Proof. unfold holds_table. apply _. Defined.

Definition M (A : Type) : Type := world → result A * world.

#[global] Instance M_ret : MRet M := λ A a w, (Ok a, w).
#[global] Instance M_bind : MBind M := λ A B f m w,
  match m w with
  | (Ok a, w') => f a w'
  | (Raise e, w') => (Raise e, w')
  end.

Definition raise {A : Type} (e : exn) : M A := λ w, (Raise e, w).
Definition lift {A : Type} (r : result A) : M A := λ w, (r, w).

(** [for x in xs: acc.append(f(x))] with effects. *)
Fixpoint for_eachM {A B : Type} (f : A → M B) (xs : list A) : M (list B) :=
  match xs with
  | [] => mret []
  | x :: xs' => y ← f x; ys ← for_eachM f xs'; mret (y :: ys)
  end.

Definition read_file (path : string) : M file := λ w,
  match files w !! path with
  | Some f => (Ok f, w)
  | None => (Raise (IOError path), w)
  end.

Definition write_file (path : string) (f : file) : M unit := λ w,
  (Ok (), World (<[path := f]> (files w)) (runs w)).

Definition os_remove (path : string) : M unit := λ w,
  match files w !! path with
  | Some _ => (Ok (), World (delete path (files w)) (runs w))
  | None => (Raise (IOError path), w)
  end.

Definition os_path_exists (path : string) : M bool := λ w,
  (Ok (bool_decide (is_Some (files w !! path))), w).

(** [np.savetxt(fname, X, fmt=...)]: one line per entry of a 1-D array, one
    line per row of a 2-D array.  The file is opened for writing (created, or
    emptied when it exists) before the array is looked at, so a 0-D array,
    which is refused, leaves an empty file. *)
Definition np_savetxt (fname : string) (X : ndarray) (fmt : Qc → Qc) : M unit :=
  match X with
  | Arr0 _ =>
      write_file fname (Text []);;
      raise (ValueError "Expected 1D or 2D array, got 0D array instead")
  | Arr1 xs => write_file fname (Text (fmap (M:=list) (λ x, [fmt x]) xs))
  | Arr2 rows => write_file fname (Text (fmap (M:=list) (fmap (M:=list) fmt) rows))
  end.

(** The array [np.loadtxt] builds from the lines of a file: blank lines are
    skipped, all lines must have the same number of columns, and axes of
    length one are squeezed away down to [ndmin] dimensions. *)
Definition loadtxt_array (ndmin : nat) (rows : list (list Qc)) : result ndarray :=
  let rows := filter (λ row, row ≠ []) rows in
  match rows with
  | [] => Ok (Arr1 [])
  | row :: rest =>
      if forallb (λ r, bool_decide (length r = length row)) rest then
        match ndmin, np_squeeze (Arr2 rows) with
        | 0, a => Ok a
        | 1, Arr0 x => Ok (Arr1 [x])
        | 1, a => Ok a
        | _, _ => Ok (Arr2 rows)
        end
      else Raise (ValueError "Wrong number of columns")
  end.

Definition np_loadtxt (fname : string) (ndmin : nat) : M ndarray :=
  f ← read_file fname;
  match f with
  | Text rows => lift (loadtxt_array ndmin rows)
  | Csv _ _ | Lines _ | Nifti _ | Binary _ =>
      raise (ValueError "could not convert string to float")
  end.

(** [np.loadtxt(fname, skiprows=1, delimiter=",")] *)
Definition np_loadtxt_csv (fname : string) : M ndarray :=
  f ← read_file fname;
  match f with
  | Csv _ rows => lift (loadtxt_array 0 rows)
  | Text _ | Lines _ | Nifti _ | Binary _ =>
      raise (ValueError "could not convert string to float")
  end.

(** [nb.load] and [img.to_filename] *)
Definition nb_load (fname : string) : M nifti :=
  f ← read_file fname;
  match f with
  | Nifti img => mret img
  | _ => raise (IOError fname)
  end.

Definition to_filename (img : nifti) (fname : string) : M unit :=
  write_file fname (Nifti img).

(** ** File names (nipype's [fname_presuffix]) *)

Definition chars (s : string) : list ascii := list_ascii_of_string s.
Definition str (l : list ascii) : string := string_of_list_ascii l.

(** Splits at the first occurrence of [c]. *)
Fixpoint break_at (c : ascii) (l : list ascii) : list ascii * option (list ascii) :=
  match l with
  | [] => ([], None)
  | x :: l' =>
      if decide (x = c) then ([], Some l')
      else let '(before, after) := break_at c l' in (x :: before, after)
  end.

Fixpoint lstrip (c : ascii) (l : list ascii) : list ascii :=
  match l with
  | [] => []
  | x :: l' => if decide (x = c) then lstrip c l' else l
  end.

(** [os.path.split]: directory and base name. *)
Definition os_path_split (p : string) : string * string :=
  match break_at "/" (rev (chars p)) with
  | (rtail, Some rhead) =>
      let rhead := "/"%char :: rhead in
      let stripped := lstrip "/" rhead in
      (str (rev (match stripped with [] => rhead | _ => stripped end)), str (rev rtail))
  | (_, None) => (EmptyString, p)
  end.

(** [os.path.splitext] of a base name: the extension starts at the last dot,
    unless only dots precede it. *)
Definition os_path_splitext (name : string) : string * string :=
  match break_at "." (rev (chars name)) with
  | (rext, Some rroot) =>
      if forallb (λ c, bool_decide (c = "."%char)) rroot then (name, EmptyString)
      else (str (rev rroot), str ("."%char :: rev rext))
  | (_, None) => (name, EmptyString)
  end.

Definition os_path_join (a b : string) : string :=
  match chars b, rev (chars a) with
  | "/"%char :: _, _ => b
  | _, [] => b
  | _, "/"%char :: _ => a +:+ b
  | _, _ => a +:+ "/" +:+ b
  end.

Definition lower (c : ascii) : ascii :=
  let n := nat_of_ascii c in
  if (65 <=? n) && (n <=? 90) then ascii_of_nat (n + 32) else c.

Definition special_extensions : list string := [".nii.gz"; ".tar.gz"; ".niml.dset"].

(** The first special extension [name] ends with, if any. *)
Fixpoint strip_special (name : list ascii) (specials : list string)
    : option (list ascii * list ascii) :=
  match specials with
  | [] => None
  | special :: specials' =>
      let ext_len := length (chars special) in
      let k := length name - ext_len in
      if (ext_len <? length name) &&
         bool_decide (lower <$> drop k name = lower <$> chars special)
      then Some (take k name, drop k name)
      else strip_special name specials'
  end.

(** nipype's [split_filename]: directory, base name without extension,
    extension. *)
Definition split_filename (fname : string) : string * string * string :=
  let '(pth, name) := os_path_split fname in
  match strip_special (chars name) special_extensions with
  | Some (root, ext) => (pth, str root, str ext)
  | None => let '(root, ext) := os_path_splitext name in (pth, root, ext)
  end.

(** [fname_presuffix(fname, prefix, suffix, newpath, use_ext)]; [newpath] is
    an absolute, normalised directory ([os.path.abspath] leaves it as it is). *)
Definition fname_presuffix (fname prefix suffix : string) (newpath : option string)
    (use_ext : bool) : string :=
  let '(pth, name, ext) := split_filename fname in
  let ext := if use_ext then ext else EmptyString in
  let pth := default pth newpath in
  os_path_join pth (prefix +:+ name +:+ suffix +:+ ext).

(** ["%0<width>d" % n] *)
Definition fmt_d (width n : nat) : string :=
  let digits := chars (NilZero.string_of_uint (Nat.to_uint n)) in
  str (replicate (width - length digits) "0"%char ++ digits).

(** [sep.join(parts)] *)
Fixpoint join (sep : string) (parts : list string) : string :=
  match parts with
  | [] => EmptyString
  | [part] => part
  | part :: parts' => part +:+ sep +:+ join sep parts'
  end.

(** [print(text, file=cmdfile)] into a freshly opened file. *)
Definition print_to (path : string) (text : string) : M unit :=
  write_file path (Lines [text]).

(** ** What lies outside the repository *)

(** What a nipype interface run gives back: the command line it ran and the
    outputs the callers read. *)
Record interface_result : Type := {
  cmdline : string;
  out_file : string;
  out_files : list string;
  mat_file : list string;
  par_file : string
}.

(** The programs the interfaces start and the library routines whose code is
    not part of the repository.  A program acts on the files only; what it
    writes is not constrained here, and a theorem that needs a tool to
    produce its output says so. *)
Class Externals : Type := {
  (** the effect of [os.system(cmd)] on the files *)
  shell : string → gmap string file → gmap string file;
  (** [interface.run()] of a nipype interface (FSL, ANTs): it may raise *)
  nipype : tool_run → gmap string file → result interface_result * gmap string file;
  (** [compose_affines] of [qsiprep.interfaces.itk], a module of the
      repository that is not among the given sources: it may start programs,
      write files and raise *)
  itk_compose_affines : string → list string → string → M string;
  (** [dipy.io.read_bvals_bvecs]: the b-values as a 1-D array and the
      b-vectors as a 2-D array with one row per volume *)
  read_bvals_bvecs : string → string → gmap string file →
                     result (list Qc * list (list Qc));
  (** [np.linalg.norm] of a vector *)
  linalg_norm : list Qc → Qc;
  (** [np.linalg.inv] *)
  linalg_inv : list (list Qc) → list (list Qc);
  (** the nearest 32-bit float, [astype('<f4')] *)
  float32 : Qc → Qc;
  (** [nibabel.io_orientation]: for each array axis, the closest world axis
      and the direction along it *)
  io_orientation : list (list Qc) → list (nat * Z);
  (** [nibabel.orientations.apply_orientation] on the voxel data *)
  apply_orientation : list (list Qc) → list nat → list (nat * Z) → list (list Qc);
  (** [nilearn.image.resample_img(img, target_affine, target_shape).get_data()] *)
  resample_img : nifti → list (list Qc) → list nat → list (list Qc);
  (** [dipy.sims.voxel.all_tensor_evecs] *)
  all_tensor_evecs : list Qc → list (list Qc);
  (** [dipy.reconst.dti.decompose_tensor]: eigenvalues and, as columns, the
      eigenvectors *)
  decompose_tensor : list (list Qc) → list Qc * list (list Qc)
}.

Section effects.
Context `{Externals}.

(** [os.system(cmd)]: the run is recorded and the program acts on the files;
    the exit status is ignored by every caller. *)
Definition run_os_system (cmd : string) : M unit := λ w,
  (Ok (), World (shell cmd (files w)) (runs w ++ [os_system cmd])).

(** [interface.run()] *)
Definition run_interface (t : tool_run) : M interface_result := λ w,
  let '(r, fs) := nipype t (files w) in (r, World fs (runs w ++ [t])).

End effects.

(** ** Matrices *)

Definition dot_vec (u v : list Qc) : Qc := foldr Qcplus 0%Qc (zip_with Qcmult u v).

(** [a.T] for a two-dimensional array. *)
Definition np_T (rows : list (list Qc)) : list (list Qc) :=
  np_transpose (length (default [] (head rows))) rows.

(** [a.dot(b)] *)
Definition mat_dot (a b : list (list Qc)) : list (list Qc) :=
  (λ row, (λ col, dot_vec row col) <$> np_T b) <$> a.

Definition np_eye (n : nat) : list (list Qc) :=
  (λ i, (λ j, if decide (i = j) then 1%Qc else 0%Qc) <$> seq 0 n) <$> seq 0 n.

Definition np_diag (d : list Qc) : list (list Qc) :=
  imap (λ i x, <[i := x]> (replicate (length d) 0%Qc)) d.

(** [np.allclose(a, b, rtol=1e-5, atol=atol)] on arrays of the same shape. *)
Definition isclose (atol : Qc) (x y : Qc) : bool :=
  let rtol := Q2Qc (1 # 100000) in
  let diff := (x - y)%Qc in
  let adiff := if decide (diff < 0)%Qc then (- diff)%Qc else diff in
  let ay := if decide (y < 0)%Qc then (- y)%Qc else y in
  bool_decide (adiff ≤ atol + rtol * ay)%Qc.

Definition np_allclose (atol : Qc) (a b : list (list Qc)) : bool :=
  bool_decide (length a = length b) &&
  forallb (λ '(ra, rb), bool_decide (length ra = length rb) &&
                        forallb (λ '(x, y), isclose atol x y) (zip ra rb))
          (zip a b).

(** ** nibabel orientations *)

Definition labels : list (string * string) := [("L", "R"); ("P", "A"); ("I", "S")].

(** [nibabel.orientations.ornt2axcodes] with these labels. *)
Definition ornt2axcodes (ornt : list (nat * Z)) : result (list string) :=
  for_each (λ '(axno, direction),
      codes ← getitem labels axno;
      if decide (direction = 1%Z) then Ok codes.2
      else if decide (direction = (-1)%Z) then Ok codes.1
      else Raise (ValueError "direction should be -1 or 1"))
    ornt.

(** [nibabel.orientations.axcodes2ornt] with the default labels. *)
Definition axcodes2ornt (axcodes : list string) : result (list (nat * Z)) :=
  for_each (λ code,
      match list_find (λ codes : string * string, code = codes.1 ∨ code = codes.2) labels with
      | Some (label_idx, codes) =>
          if decide (code = codes.1) then Ok (label_idx, (-1)%Z) else Ok (label_idx, 1%Z)
      | None => Raise (ValueError "axcodes must be in the labels")
      end)
    axcodes.

(** One pass of the outer loop of [ornt_transform]: the first start axis that
    lies along the same world axis as the end axis receives its entry. *)
Definition ornt_transform_step (start_ornt : list (nat * Z))
    (acc : result (list (nat * Z))) (end_entry : nat * (nat * Z))
    : result (list (nat * Z)) :=
  let '(end_in_idx, (end_out_idx, end_flip)) := end_entry in
  result ← acc;
  match list_find (λ s : nat * Z, s.1 = end_out_idx) start_ornt with
  | Some (start_in_idx, (_, start_flip)) =>
      let flip := if decide (start_flip = end_flip) then 1%Z else (-1)%Z in
      Ok (<[start_in_idx := (end_in_idx, flip)]> result)
  | None => Raise (ValueError "Unable to find out axis in start_ornt")
  end.

(** [nibabel.orientations.ornt_transform].  The result starts as
    [np.empty_like(start_ornt)]; the entries the loop does not write are
    unspecified there and are [(0, 0)] here. *)
Definition ornt_transform (start_ornt end_ornt : list (nat * Z))
    : result (list (nat * Z)) :=
  if decide (length start_ornt = length end_ornt) then
    foldl (ornt_transform_step start_ornt)
          (Ok (replicate (length start_ornt) (0, 0%Z)))
          (zip (seq 0 (length end_ornt)) end_ornt)
  else Raise (ValueError "The orientations must have the same shape").

(** [nibabel.orientations.inv_ornt_aff] *)
Definition inv_ornt_aff (ornt : list (nat * Z)) (shape : list nat) : list (list Qc) :=
  let p := length ornt in
  let shape := take p shape in
  let axis_transpose := ornt.*1 in
  let undo_reorder :=
    (λ k, default [] (np_eye (p + 1) !! k)) <$> (axis_transpose ++ [p]) in
  let flips := (λ o : nat * Z, Qc_of_Z o.2) <$> ornt in
  let center_trans :=
    (λ n : nat, - ((Qc_of_Z (Z.of_nat n) - 1) / Qc_of_Z 2))%Qc <$> shape in
  let offsets := zip_with (λ f c, f * c - c)%Qc flips center_trans in
  let undo_flip :=
    imap (λ i row, if decide (i < p) then <[p := default 0%Qc (offsets !! i)]> row else row)
         (np_diag (flips ++ [1%Qc])) in
  mat_dot undo_flip undo_reorder.

Section nibabel.
Context `{Externals}.

(** [nb.aff2axcodes] *)
Definition aff2axcodes (aff : list (list Qc)) : result (list string) :=
  ornt2axcodes (io_orientation aff).

(** The shape and zooms of the reoriented array: array axis [i] becomes
    axis [ornt[i][0]]. *)
Definition reorder_axes {A : Type} (ornt : list (nat * Z)) (xs : list A) : list A :=
  foldl (λ acc '(i, (j, _)), match xs !! i with
                             | Some x => <[j := x]> acc
                             | None => acc
                             end)
        xs (zip (seq 0 (length ornt)) ornt).

(** [img.as_reoriented(ornt)] *)
Definition as_reoriented (img : nifti) (ornt : list (nat * Z)) : nifti :=
  if decide (ornt = [(0, 1%Z); (1, 1%Z); (2, 1%Z)]) then img
  else
    let t_arr := apply_orientation (get_data img) (shape img) ornt in
    let new_aff := mat_dot (affine img) (inv_ornt_aff ornt (shape img)) in
    Nifti1Image t_arr (reorder_axes ornt (shape img)) new_aff
                (reorder_axes ornt (zooms img))
                (xyz_unit img) (data_dtype img) (intent img).

End nibabel.

(** ** gradients.py: [match_transforms] *)

(** [np.argmin] on a one-dimensional array: the position of the first
    occurrence of the minimum; numpy raises [ValueError] on an empty array. *)
Fixpoint argmin_from (best_pos : nat) (best : Z) (pos : nat) (xs : list Z) : nat :=
  match xs with
  | [] => best_pos
  | x :: xs' =>
      if (x <? best)%Z then argmin_from pos x (S pos) xs'
      else argmin_from best_pos best (S pos) xs'
  end.

Definition np_argmin (xs : list Z) : result nat :=
  match xs with
  | [] => Raise (ValueError "attempt to get argmin of an empty sequence")
  | x :: xs' => Ok (argmin_from 0 x 1 xs')
  end.

(** [np.abs(index - original_b0_indices)] *)
Definition b0_distances (index : nat) (original_b0_indices : list Z) : list Z :=
  map (λ b0, Z.abs (Z.of_nat index - b0)) original_b0_indices.

Definition match_transforms (dwi_files transforms : list string)
    (b0_indices : list Z) : result (list string) :=
  let original_b0_indices := b0_indices in
  let num_dwis := length dwi_files in
  let num_transforms := length transforms in
  if decide (num_dwis = num_transforms) then Ok transforms
  else if decide (length transforms = length b0_indices) then
    for_each (λ index,
        nearest_b0_num ← np_argmin (b0_distances index original_b0_indices);
        getitem transforms nearest_b0_num)
      (seq 0 num_dwis)
  else Raise (Exception "number of transforms does not match number of b0 images").

(** ** gradients.py: [MatchTransforms] and [ExtractB0s] *)

Module MatchTransformsInputSpec.
Record t : Type := {
  b0_indices : list Z;
  dwi_files : list string;
  transforms : list string
}.
End MatchTransformsInputSpec.

Module MatchTransforms.
Definition _run_interface (inputs : MatchTransformsInputSpec.t) : M (list string) :=
  lift (match_transforms (MatchTransformsInputSpec.dwi_files inputs)
                         (MatchTransformsInputSpec.transforms inputs)
                         (MatchTransformsInputSpec.b0_indices inputs)).
End MatchTransforms.

(** The number of entries of an array of shape [shape]. *)
Definition np_size (shape : list nat) : nat := foldr Nat.mul 1 shape.

(** The entries of the data array of an image in C order, and the way back:
    the voxels of the grid spanned by the first three axes, each with its
    values along the remaining axes. *)
Definition np_ravel (data : list (list Qc)) : list Qc := concat data.

Definition voxels_of (shape : list nat) (flat : list Qc) : list (list Qc) :=
  reshape (replicate (np_size (take 3 shape)) (np_size (drop 3 shape))) flat.

(** Position [i] on an axis of length [n]; a negative [i] counts from the
    end. *)
Definition axis_index (n : nat) (i : Z) : result nat :=
  if decide (0 ≤ i < Z.of_nat n)%Z then Ok (Z.to_nat i)
  else if decide (- Z.of_nat n ≤ i < 0)%Z then Ok (Z.to_nat (Z.of_nat n + i))
  else Raise (IndexError "index is out of bounds").

(** [a[..., indices]] for an integer array [indices]: the new shape and the
    entries in C order. *)
Definition take_last_axis (shape : list nat) (flat : list Qc) (indices : list Z)
    : result (list nat * list Qc) :=
  match last shape with
  | None => Raise (IndexError "too many indices for array")
  | Some n =>
      positions ← for_each (axis_index n) indices;
      let lines := reshape (replicate (np_size (removelast shape)) n) flat in
      Ok (removelast shape ++ [length indices],
          lines ≫= λ line : list Qc, (λ p, default 0%Qc (line !! p)) <$> positions)
  end.

Module ExtractB0sInputSpec.
Record t : Type := {
  b0_indices : list Z;
  dwi_series : string
}.
End ExtractB0sInputSpec.

Module ExtractB0s.
Definition _run_interface (inputs : ExtractB0sInputSpec.t) (cwd : string) : M string :=
  let output_fname :=
    fname_presuffix (ExtractB0sInputSpec.dwi_series inputs) EmptyString "_b0_series"
                    (Some cwd) true in
  img ← nb_load (ExtractB0sInputSpec.dwi_series inputs);
  let indices := ExtractB0sInputSpec.b0_indices inputs in
  '(new_shape, new_data) ←
    lift (take_last_axis (shape img) (np_ravel (get_data img)) indices);
  to_filename (Nifti1Image (voxels_of new_shape new_data) new_shape (affine img)
                           (zooms img) (xyz_unit img) (data_dtype img) (intent img))
              output_fname;;
  mret output_fname.
End ExtractB0s.

(** ** gradients.py: concatenation and global rotation of gradients *)

Section gradients.
Context `{Externals}.

Definition concatenate_bvals (bval_list : list string) (out_file : string) : M unit :=
  collected_vals ← for_eachM (λ bval_file, np_loadtxt bval_file 1) bval_list;
  concatenated ← lift (np_concatenate collected_vals);
  let final_bvals := np_squeeze concatenated in
  np_savetxt out_file final_bvals fmt_i.

Definition concatenate_bvecs (input_files : list string) : M (list (list Qc)) :=
  collected_vecs ← for_eachM (λ bvec_file, np_loadtxt bvec_file 0) input_files;
  lift (np_row_stack collected_vecs).

(** [(orig_vec**2).sum()] *)
Definition sum_of_squares (vec : list Qc) : Qc :=
  foldr Qcplus 0%Qc ((λ x, x * x)%Qc <$> vec).

(** [vector / np.linalg.norm(vector)] *)
Definition unit_vector (vector : list Qc) : list Qc :=
  (λ x, x / linalg_norm vector)%Qc <$> vector.

(** [a[:, :3]] *)
Definition first_three_columns (a : ndarray) : result (list (list Qc)) :=
  match a with
  | Arr2 rows => Ok (take 3 <$> rows)
  | Arr0 _ | Arr1 _ => Raise (IndexError "too many indices for array")
  end.

Definition aattp_cmd (orig_txt rotated_txt transform : string) : string :=
  let transforms := "--transform [" +:+ transform +:+ ", 1]" in
  "antsApplyTransformsToPoints --dimensionality 3 --input " +:+ orig_txt +:+
  " --output " +:+ rotated_txt +:+ " " +:+ transforms.

Definition aattp_rotate_vec (orig_vec : list Qc) (transform cwd : string)
    : M (list Qc * string) :=
  if decide (sum_of_squares orig_vec = 0%Qc) then mret (orig_vec, "b0: No rotation")
  else
    let orig_txt :=
      fname_presuffix transform EmptyString "_pre_rotation.csv" (Some cwd) false in
    let rotated_txt :=
      fname_presuffix transform EmptyString "_post_rotation.csv" (Some cwd) false in
    write_file orig_txt
      (Csv "x,y,z,t" [[0; 0; 0; 0]; ((λ x, Qc_of_Z 5 * x) <$> orig_vec) ++ [0]]%Qc);;
    let cmd := aattp_cmd orig_txt rotated_txt transform in
    run_os_system cmd;;
    loaded ← np_loadtxt_csv rotated_txt;
    rotated_vec ← lift (first_three_columns loaded);
    p1 ← lift (getitem rotated_vec 1);
    p0 ← lift (getitem rotated_vec 0);
    let rotated_unit_vec := unit_vector (zip_with Qcminus p1 p0) in
    mret (rotated_unit_vec, cmd).

Definition bvec_rotation (original_bvecs : list (list Qc)) (transforms : list string)
    (output_file cwd : string) : M (list string) :=
  rotated ← for_eachM (λ '(bvec, transform), aattp_rotate_vec bvec transform cwd)
                      (zip original_bvecs transforms);
  let aattp_rotated := fst <$> rotated in
  let commands := snd <$> rotated in
  rotated_vecs ← lift (np_row_stack (Arr1 <$> aattp_rotated));
  np_savetxt output_file (Arr2 (np_T rotated_vecs)) fmt_8f;;
  mret commands.

End gradients.

Module GradientRotationInputSpec.
Record t : Type := {
  affine_transforms : list string;
  bvec_files : list string;
  bval_files : list string
}.
End GradientRotationInputSpec.

Module GradientRotationOutputSpec.
Record t : Type := {
  bvals : string;
  bvecs : string;
  log_cmdline : string
}.
End GradientRotationOutputSpec.

Module GradientRotation.
Import GradientRotationInputSpec GradientRotationOutputSpec.
Section interface.
Context `{Externals}.

Definition _run_interface (inputs : GradientRotationInputSpec.t) (cwd : string)
    : M GradientRotationOutputSpec.t :=
  let out_root := os_path_join cwd "rotated" in
  let bval_fname := out_root +:+ ".bval" in
  concatenate_bvals (bval_files inputs) bval_fname;;
  original_bvecs ← concatenate_bvecs (bvec_files inputs);
  let bvec_fname := out_root +:+ ".bvec" in
  commands ← bvec_rotation original_bvecs (affine_transforms inputs) bvec_fname cwd;
  let log := os_path_join cwd "command.txt" in
  print_to log (join "
-------
" commands);;
  mret {| bvals := bval_fname; bvecs := bvec_fname; log_cmdline := log |}.

End interface.
End GradientRotation.


(** ** gradients.py: composing the transforms of every volume *)

(** [needle in hay] for strings. *)
Fixpoint contains_from (needle hay : list ascii) : bool :=
  bool_decide (take (length needle) hay = needle) ||
  match hay with
  | [] => false
  | _ :: hay' => contains_from needle hay'
  end.

Definition contains (needle hay : string) : bool :=
  contains_from (chars needle) (chars hay).

Section compose.
Context `{Externals}.

Definition compose_affines_cmd (reference_image : string) (affine_list : list string)
    (output_file : string) : string :=
  "antsApplyTransforms -d 3 -r " +:+ reference_image +:+ " -o Linear[" +:+
  output_file +:+ ", 1] " +:+
  join " " ((λ trf, "--transform " +:+ trf) <$> affine_list).

Definition compose_affines (reference_image : string) (affine_list : list string)
    (output_file : string) : M (string * string) :=
  let cmd := compose_affines_cmd reference_image affine_list output_file in
  run_os_system cmd;;
  produced ← os_path_exists output_file;
  if produced : bool then mret (output_file, cmd) else raise AssertionError.

(** [nii.set_data_dtype(np.dtype('float32'))] *)
Definition set_data_dtype (nii : nifti) (dtype : string) : nifti :=
  Nifti1Image (get_data nii) (shape nii) (affine nii) (zooms nii) (xyz_unit nii)
              dtype (intent nii).

Definition _compose_tfms (in_file : string) (in_xform : list string)
    (reference_image : string) (index : nat) (newpath : string)
    : M (string * string * string * string) :=
  let out_file :=
    fname_presuffix in_file EmptyString ("_xform-" +:+ fmt_d 5 index) (Some newpath) true in
  runtime ← run_interface
    (ants_ApplyTransforms in_file in_xform out_file reference_image "LanczosWindowedSinc");
  nii ← nb_load out_file;
  to_filename (set_data_dtype nii "float32") out_file;;
  let affines := filter (λ transform, contains ".nii" transform = false) in_xform in
  let out_affine :=
    fname_presuffix in_file EmptyString ("_affine_xform-" +:+ fmt_d 5 index +:+ ".mat")
                    (Some newpath) false in
  '(affine_file, affine_cmd) ← compose_affines reference_image affines out_affine;
  mret (out_file, cmdline runtime, affine_file, affine_cmd).

End compose.

Module ComposeTransformsInputSpec.
Record t : Type := {
  dwi_files : list string;
  original_b0_indices : list Z;
  reference_image : string;
  hmc_to_ref_affines : list string;
  (** an input that is not set is [None] (nipype's [Undefined]) *)
  fieldwarps : option (list string);
  unwarped_dwi_ref_to_t1w_affine : string;
  t1_2_mni_forward_transform : option (list string);
  save_cmd : bool;
  num_threads : Z
}.
End ComposeTransformsInputSpec.

Module ComposeTransformsOutputSpec.
Record t : Type := {
  out_warps : list string;
  out_affines : list string;
  transform_lists : list (list string);
  log_cmdline : option string
}.
#[global] Instance eq_dec : EqDecision t.
Proof. solve_decision. Defined.
End ComposeTransformsOutputSpec.

Module ComposeTransforms.
Import ComposeTransformsInputSpec ComposeTransformsOutputSpec.

(** The stage lists, in application order, up to the assertion that they
    have the same length (lines 112 to 146 of gradients.py). *)
Definition image_transforms (inputs : ComposeTransformsInputSpec.t)
    : result (list (list string)) :=
  let num_dwis := length (dwi_files inputs) in
  let b0_hmc_affines := hmc_to_ref_affines inputs in
  dwi_hmc_affines ←
    match_transforms (dwi_files inputs) b0_hmc_affines (original_b0_indices inputs);
  let image_transforms := [dwi_hmc_affines] in
  let image_transforms :=
    match fieldwarps inputs with
    | Some sdc_unwarp =>
        if decide (length sdc_unwarp = num_dwis) then image_transforms ++ [sdc_unwarp]
        else if decide (length sdc_unwarp = 1)
        then image_transforms ++ [concat (replicate num_dwis sdc_unwarp)]
        else image_transforms
    | None => image_transforms
    end in
  let image_transforms :=
    image_transforms ++ [replicate num_dwis (unwarped_dwi_ref_to_t1w_affine inputs)] in
  image_transforms ←
    match t1_2_mni_forward_transform inputs with
    | Some mni_xform =>
        if decide (length mni_xform = 2) then
          mni_affine ← getitem mni_xform 0;
          mni_warp ← getitem mni_xform 1;
          Ok (image_transforms ++ [replicate num_dwis mni_affine;
                                    replicate num_dwis mni_warp])
        else Raise AssertionError
    | None => Ok image_transforms
    end;
  if forallb (λ xform_list,
                bool_decide (length xform_list = length (default [] (head image_transforms))))
             image_transforms
  then Ok image_transforms
  else Raise AssertionError.

(** One chain per volume, last-applied transform first (lines 149 to 154). *)
Definition xfms_list (inputs : ComposeTransformsInputSpec.t)
    : result (list (list string)) :=
  stages ← image_transforms inputs;
  let image_transforms := rev stages in
  for_each (λ image_num, for_each (λ xfm, getitem xfm image_num) image_transforms)
           (seq 0 (length (dwi_files inputs))).

Section interface.
Context `{Externals}.

(** The volumes are resampled one after the other: with [num_threads] other
    than 1 the source hands the same calls to a thread pool whose [map]
    returns the results in the order of the volumes. *)
Definition _run_interface (inputs : ComposeTransformsInputSpec.t) (cwd : string)
    : M ComposeTransformsOutputSpec.t :=
  xfms_list ← lift (xfms_list inputs);
  let num_files := length (dwi_files inputs) in
  if decide (length xfms_list = num_files) then
    out_files ← for_eachM (λ '(i, (in_file, in_xfm)),
                    _compose_tfms in_file in_xfm (reference_image inputs) i cwd)
                  (zip (seq 0 num_files) (zip (dwi_files inputs) xfms_list));
    let out_warps := (λ el : string * string * string * string, el.1.1.1) <$> out_files in
    let out_affines := (λ el : string * string * string * string, el.1.2) <$> out_files in
    if save_cmd inputs then
      let log := os_path_join cwd "command.txt" in
      print_to log (join "
-------
" ((λ el : string * string * string * string, join "
-------
" [el.1.1.2; el.2]) <$> out_files));;
      mret {| out_warps := out_warps; out_affines := out_affines;
              transform_lists := xfms_list; log_cmdline := Some log |}
    else
      mret {| out_warps := out_warps; out_affines := out_affines;
              transform_lists := xfms_list; log_cmdline := None |}
  else raise AssertionError.

End interface.
End ComposeTransforms.

(** ** gradients.py: local rotation of the gradients *)

(** The components of a stored tensor, in the order of the docstring of
    [tensor_from_vec]: dxx, dxy, dyy, dxz, dyz, dzz. *)
Definition tensor_from_vec (vec : list Qc) : result (list (list Qc)) :=
  v0 ← getitem vec 0; v1 ← getitem vec 1; v2 ← getitem vec 2;
  v3 ← getitem vec 3; v4 ← getitem vec 4; v5 ← getitem vec 5;
  Ok [[v0; v1; v3];
      [v1; v2; v4];
      [v3; v4; v5]].

(** [m[:, j]] *)
Definition np_column (m : list (list Qc)) (j : nat) : list Qc :=
  (λ row : list Qc, default 0%Qc (row !! j)) <$> m.

(** [output_data[mask_data] = vectors]: the voxels of the mask take the
    vectors in order, the others keep [zero]. *)
Fixpoint scatter (mask_data : list bool) (vectors : list (list Qc)) (zero : list Qc)
    : list (list Qc) :=
  match mask_data with
  | [] => []
  | true :: mask' =>
      match vectors with
      | v :: vectors' => v :: scatter mask' vectors' zero
      | [] => zero :: scatter mask' [] zero
      end
  | false :: mask' => zero :: scatter mask' vectors zero
  end.

(** [data[mask_data]] *)
Definition select (mask_data : list bool) (data : list (list Qc)) : list (list Qc) :=
  (zip mask_data data ≫= λ '(keep, voxel), if keep : bool then [voxel] else []).

(** A value of a Python variable that the code treats as an image. *)
Inductive pyobj : Type :=
| PyStr (s : string)
| PyNifti (img : nifti).

(** [img.get_data()] *)
Definition py_get_data (img : pyobj) : result (list (list Qc)) :=
  match img with
  | PyNifti img => Ok (get_data img)
  | PyStr _ => Raise (AttributeError "'str' object has no attribute 'get_data'")
  end.

(** [np.stack(arrays, -1)]: for every voxel and component, the values of the
    arrays side by side. *)
Definition np_stack_last (arrays : list (list (list Qc))) : result (list (list Qc)) :=
  match arrays with
  | [] => Raise (ValueError "need at least one array to stack")
  | first :: _ =>
      if forallb (λ a, bool_decide (length <$> a = length <$> first)) arrays then
        Ok (imap (λ v voxel,
              seq 0 (length voxel) ≫= λ c,
                (λ a : list (list Qc), default 0%Qc (a !! v ≫= (.!! c))) <$> arrays)
            first)
      else Raise (ValueError "all input arrays must have the same shape")
  end.

Section local_rotation.
Context `{Externals}.

Definition tensor_index : list (string * (nat * nat)) :=
  [("xx", (0, 0)); ("xy", (0, 1)); ("xz", (0, 2));
   ("yy", (1, 1)); ("yz", (1, 2)); ("zz", (2, 2))].

Definition get_vector_nii (data : list (list Qc)) (affine : list (list Qc))
    (header : nifti) : nifti :=
  Nifti1Image ((λ voxel : list Qc, float32 <$> voxel) <$> data)
              (take 3 (shape header) ++ [1; 3]) affine (zooms header)
              (xyz_unit header) "<f4" "vector".

Definition create_tensor_image (mask_img : nifti) (direction : list Qc)
    (prefix : string) : M string :=
  let out_fname := prefix +:+ "_tensor.nii" in
  let evecs := all_tensor_evecs direction in
  let evals := np_diag [1; Q2Qc (1 # 2); Q2Qc (1 # 20)]%Qc in
  let tensor := mat_dot (mat_dot evecs evals) (np_T evecs) in
  temp_components ← for_eachM (λ '(direction, (i, j)),
      let this_component := prefix +:+ "_temp_dtiComp_" +:+ direction +:+ ".nii.gz" in
      let t_ij := default 0%Qc (tensor !! i ≫= (.!! j)) in
      to_filename
        (Nifti1Image ((λ voxel : list Qc, (λ x, x * t_ij)%Qc <$> voxel) <$> get_data mask_img)
                     (shape mask_img) (affine mask_img) (zooms mask_img)
                     (xyz_unit mask_img) (data_dtype mask_img) (intent mask_img))
        this_component;;
      mret this_component) tensor_index;
  let compose_cmd :=
    "ImageMath 3 " +:+ out_fname +:+ " ComponentTo3DTensor " +:+ prefix +:+ "_temp_dtiComp_" in
  run_os_system compose_cmd;;
  for_eachM os_remove temp_components;;
  mret out_fname.

(** The loop over the voxels of the mask: the first column of the
    eigenvectors [decompose_tensor] returns. *)
Definition reoriented_vector (row : list Qc) : result (list Qc) :=
  row_tensor ← tensor_from_vec row;
  let '(evals, evecs) := decompose_tensor row_tensor in
  Ok (np_column evecs 0).

(** [dipy.core.geometry.normalized_vector] on the rows of an array. *)
Definition normalized_vector (vectors : list (list Qc)) : list (list Qc) :=
  (λ vec : list Qc, (λ x, x / linalg_norm vec)%Qc <$> vec) <$> vectors.

(** [mask_img.get_data() > 0] *)
Definition mask_of (mask_img : nifti) : list bool :=
  (λ voxel : list Qc, bool_decide (0 < default 0 (head voxel))%Qc) <$> get_data mask_img.

(** Lines 446 to 465 of [reorient_tensor_image]: from the data of the
    reoriented tensor image to [output_data]. *)
Definition principal_directions (mask_img : nifti)
    (reoriented_tensor_data : list (list Qc)) : result (list (list Qc)) :=
  let mask_data := mask_of mask_img in
  let zero := [0; 0; 0]%Qc in
  if decide (length reoriented_tensor_data ≠ length mask_data) then
    Raise (IndexError "boolean index did not match indexed array")
  else
    let reoriented_tensors := select mask_data reoriented_tensor_data in
    reoriented_vectors ← for_each reoriented_vector reoriented_tensors;
    Ok (scatter mask_data (normalized_vector reoriented_vectors) zero).

Definition reorient_tensor_image (tensor_image warp_file : string) (mask_img : nifti)
    (prefix output_fname : string) : M (string * string) :=
  let reoriented_tensor_fname := prefix +:+ "reoriented_tensor.nii" in
  let reorient_cmd :=
    "ReorientTensorImage 3 " +:+ tensor_image +:+ " " +:+ reoriented_tensor_fname +:+
    " " +:+ warp_file in
  run_os_system reorient_cmd;;
  reoriented_dt_img ← nb_load reoriented_tensor_fname;
  let reoriented_tensor_data := get_data reoriented_dt_img in
  output_data ← lift (principal_directions mask_img reoriented_tensor_data);
  let vector_data := get_vector_nii output_data (affine mask_img) mask_img in
  to_filename vector_data output_fname;;
  os_remove reoriented_tensor_fname;;
  os_remove tensor_image;;
  mret (output_fname, reorient_cmd).

(** One pass of the loop of [local_bvec_rotation]: the file written for the
    volume and the command recorded. *)
Definition rotate_volume (mask_img b0_image : nifti) (prefix : string)
    (item : nat * (list Qc * string)) : M (string * string) :=
  let '(vecnum, (original_bvec, warp_file)) := item in
  let num_prefix := prefix +:+ fmt_d 3 vecnum +:+ "_" in
  let out_fname := num_prefix +:+ "rotated.nii.gz" in
  if decide (sum_of_squares original_bvec = 0%Qc) then
    to_filename b0_image out_fname;;
    mret (out_fname, "B0: No rotation")
  else
    tensor_fname ← create_tensor_image mask_img original_bvec num_prefix;
    '(rotated_vector_fname, rotate_cmd) ←
      reorient_tensor_image tensor_fname warp_file mask_img num_prefix out_fname;
    mret (out_fname, rotate_cmd).

Definition local_bvec_rotation (original_bvecs : list (list Qc))
    (warp_transforms : list string) (mask_image cwd output_fname : string)
    : M (list string * list string) :=
  let prefix := os_path_join cwd "local_bvec_" in
  mask_img ← nb_load mask_image;
  let mask_data := get_data mask_img in
  let b0_image :=
    get_vector_nii ((λ _, [0; 0; 0]%Qc) <$> mask_data) (affine mask_img) mask_img in
  rotated ← for_eachM (rotate_volume mask_img b0_image prefix)
    (zip (seq 0 (length original_bvecs)) (zip original_bvecs warp_transforms));
  let rotated_vec_files := rotated.*1 in
  let commands := rotated.*2 in
  (** the elements of [rotated_vec_files] are file names *)
  arrays ← lift (for_each (λ img : string, py_get_data (PyStr img)) rotated_vec_files);
  concatenated ← lift (np_stack_last arrays);
  to_filename
    (Nifti1Image ((λ voxel : list Qc, float32 <$> voxel) <$> concatenated)
                 (take 3 (shape mask_img) ++ [3; length arrays]) (affine mask_img)
                 [1; 1; 1]%Qc "unknown" "<f4" "none")
    output_fname;;
  for_eachM os_remove rotated_vec_files;;
  mret (rotated_vec_files, commands).

End local_rotation.

Module LocalGradientRotationInputSpec.
Record t : Type := {
  bvec_files : list string;
  warp_transforms : list string;
  mask_image : string
}.
End LocalGradientRotationInputSpec.

Module LocalGradientRotationOutputSpec.
Record t : Type := {
  local_bvecs : string;
  log_cmdline : string
}.
End LocalGradientRotationOutputSpec.

Module LocalGradientRotation.
Import LocalGradientRotationInputSpec LocalGradientRotationOutputSpec.
Section interface.
Context `{Externals}.

Definition _run_interface (inputs : LocalGradientRotationInputSpec.t) (cwd : string)
    : M LocalGradientRotationOutputSpec.t :=
  let out_root := os_path_join cwd "rotated" in
  let local_bvec_fname := out_root +:+ "_local_bvecs.nii.gz" in
  original_bvecs ← concatenate_bvecs (bvec_files inputs);
  '(_, commands) ← local_bvec_rotation original_bvecs (warp_transforms inputs)
                     (mask_image inputs) cwd local_bvec_fname;
  let log := os_path_join cwd "command.txt" in
  print_to log (join "
-------
" commands);;
  mret {| local_bvecs := local_bvec_fname; log_cmdline := log |}.

End interface.
End LocalGradientRotation.

(** ** images.py: [split_bvals_bvecs] *)

Section images.
Context `{Externals}.

(** *** [split_bvals_bvecs] *)

Definition split_bvals_bvecs (bval_file bvec_file cwd : string)
    : M (list string * list string) :=
  '(bvals, bvecs) ← (λ w, (read_bvals_bvecs bval_file bvec_file (files w), w));
  split ← for_eachM (λ '(nsample, (bval, bvec)),
      let bval_fname :=
        fname_presuffix bval_file EmptyString ("_" +:+ fmt_d 4 nsample) (Some cwd) true in
      let bvec_fname :=
        fname_presuffix bvec_file EmptyString ("_" +:+ fmt_d 4 nsample) (Some cwd) true in
      np_savetxt bval_fname (Arr1 bval) fmt_18e;;
      np_savetxt bvec_fname (Arr1 bvec) fmt_18e;;
      mret (bval_fname, bvec_fname))
    (zip (seq 0 (length bvals)) (zip ((λ b, [b]) <$> bvals) bvecs));
  let split_bval_files := fst <$> split in
  let split_bvec_files := snd <$> split in
  mret (split_bval_files, split_bvec_files).

(** *** [to_lps], [reorient] *)

Definition to_lps (input_img : nifti) : result nifti :=
  let new_axcodes := ["L"; "P"; "S"] in
  input_axcodes ← aff2axcodes (affine input_img);
  if decide (input_axcodes ≠ new_axcodes) then
    input_orientation ← axcodes2ornt input_axcodes;
    desired_orientation ← axcodes2ornt new_axcodes;
    transform_orientation ← ornt_transform input_orientation desired_orientation;
    let reoriented_img := as_reoriented input_img transform_orientation in
    Ok reoriented_img
  else Ok input_img.

Definition reorient (in_file : string) (newpath : option string) : M string :=
  let out_file := fname_presuffix in_file EmptyString "_lps" newpath true in
  img ← nb_load in_file;
  lps ← lift (to_lps img);
  to_filename lps out_file;;
  mret out_file.

(** *** [ConformDwi] *)

(** [a.shape[0]] *)
Definition np_shape0 (a : ndarray) : result nat :=
  match a with
  | Arr0 _ => Raise (IndexError "tuple index out of range")
  | Arr1 xs => Ok (length xs)
  | Arr2 rows => Ok (length rows)
  end.

(** The loop that fills [output_array]: entry [this_axnum] is entry [axnum]
    of [bvec_array] times [flip].  The shape check before it makes the loop
    write every entry of the array of zeros. *)
Definition flip_bvecs (bvec_array : ndarray) (transform_orientation : list (nat * Z))
    : result ndarray :=
  match bvec_array with
  | Arr2 rows =>
      output_rows ← for_each (λ '(axnum, flip),
                        row ← getitem rows axnum;
                        Ok (fmap (M:=list) (λ x, x * Qc_of_Z flip)%Qc row))
                      transform_orientation;
      Ok (Arr2 output_rows)
  | Arr1 xs =>
      output_entries ← for_each (λ '(axnum, flip),
                           x ← getitem xs axnum;
                           Ok (x * Qc_of_Z flip)%Qc)
                         transform_orientation;
      Ok (Arr1 output_entries)
  | Arr0 _ => Raise (IndexError "too many indices for array")
  end.

End images.

Module ConformDwiOutputSpec.
Record t : Type := {
  dwi_file : string;
  bvec_file : string;
  bval_file : string
}.
#[global] Instance eq_dec : EqDecision t.
Proof. solve_decision. Defined.
End ConformDwiOutputSpec.

Module ConformDwi.
Import ConformDwiOutputSpec.
Section interface.
Context `{Externals}.

Definition _run_interface (dwi_file_in cwd : string) : M ConformDwiOutputSpec.t :=
  let fname := dwi_file_in in
  let out_fname := fname_presuffix fname EmptyString "_lps" (Some cwd) true in
  let bvec_fname := fname_presuffix fname EmptyString ".bvec" None false in
  let bval_fname := fname_presuffix fname EmptyString ".bval" None false in
  let out_bvec_fname := fname_presuffix bvec_fname EmptyString "_lps" (Some cwd) true in
  input_img ← nb_load fname;
  input_axcodes ← lift (aff2axcodes (affine input_img));
  let new_axcodes := ["L"; "P"; "S"] in
  if decide (input_axcodes ≠ new_axcodes) then
    input_orientation ← lift (axcodes2ornt input_axcodes);
    desired_orientation ← lift (axcodes2ornt new_axcodes);
    transform_orientation ←
      lift (ornt_transform input_orientation desired_orientation);
    let reoriented_img := as_reoriented input_img transform_orientation in
    to_filename reoriented_img out_fname;;
    bvec_array ← np_loadtxt bvec_fname 0;
    nrows ← lift (np_shape0 bvec_array);
    if decide (nrows ≠ length transform_orientation) then
      raise (ValueError "Unrecognized bvec format")
    else
      output_array ← lift (flip_bvecs bvec_array transform_orientation);
      np_savetxt out_bvec_fname output_array fmt_8f;;
      mret {| dwi_file := out_fname; bvec_file := out_bvec_fname;
              bval_file := bval_fname |}
  else
    mret {| dwi_file := fname; bvec_file := bvec_fname; bval_file := bval_fname |}.

End interface.
End ConformDwi.


(** ** images.py: the other interfaces *)

(** *** [ConcatRPESplits] *)

(** The input lists of [ConcatRPESplits] are declared [OutputMultiObject].
    Reading such a trait does not always give a list: it gives [Undefined]
    when no file is held, the file name itself (a [str]) when one file is
    held, and the list when two or more are. *)
Inductive multi_object : Type :=
| Undefined
| Bare (path : string)
| Listed (paths : list string).

#[global] Instance multi_object_eq_dec : EqDecision multi_object.
Proof. solve_decision. Defined.

Definition OutputMultiObject_get (value : list string) : multi_object :=
  match value with
  | [] => Undefined
  | [path] => Bare path
  | _ => Listed value
  end.

(** [len(x)]: the number of characters of a [str], the length of a list. *)
Definition py_len (x : multi_object) : result nat :=
  match x with
  | Undefined => Raise TypeError
  | Bare path => Ok (String.length path)
  | Listed paths => Ok (length paths)
  end.

(** [x + y]: two [str] or two lists are concatenated, anything else is a
    TypeError. *)
Definition py_add (x y : multi_object) : result multi_object :=
  match x, y with
  | Bare a, Bare b => Ok (Bare (a +:+ b))
  | Listed a, Listed b => Ok (Listed (a ++ b))
  | _, _ => Raise TypeError
  end.

(** What [for item in x] goes through: the characters of a [str], the
    elements of a list. *)
Definition py_iter (x : multi_object) : result (list string) :=
  match x with
  | Undefined => Raise TypeError
  | Bare path => Ok ((λ c, String c EmptyString) <$> chars path)
  | Listed paths => Ok paths
  end.

Module ConcatRPESplitsInputSpec.
(** The lists as the traits hold them; the interface reads them through
    [OutputMultiObject_get]. *)
Record t : Type := {
  dwi_plus : list string;
  bvec_plus : list string;
  bval_plus : list string;
  b0_images_plus : list string;
  b0_indices_plus : list Z;
  hmc_affines_plus : list string;
  hmc_affines_minus : list string;
  template_plus_to_ref_affine : string;
  template_plus_to_ref_warp : option string;
  dwi_minus : list string;
  bvec_minus : list string;
  bval_minus : list string;
  b0_images_minus : list string;
  b0_indices_minus : list Z;
  template_minus_to_ref_affine : string;
  template_minus_to_ref_warp : option string;
  b0_ref_image : string;
  b0_ref_mask : string
}.
End ConcatRPESplitsInputSpec.

Module ConcatRPESplitsOutputSpec.
(** The entries of [self._results], as the interface stores them. *)
Record t : Type := {
  b0_ref_image : string;
  b0_ref_mask : string;
  dwi_files : multi_object;
  bvec_files : multi_object;
  bval_files : multi_object;
  b0_images : multi_object;
  b0_indices : list Z;
  to_dwi_ref_affines : list string;
  to_dwi_ref_warps : option (list string);
  original_grouping : list string
}.
#[global] Instance eq_dec : EqDecision t.
Proof. solve_decision. Defined.
End ConcatRPESplitsOutputSpec.

Module ConcatRPESplits.
Section interface.
Context `{Externals}.

(** [compose_affines] of [qsiprep.interfaces.itk]. *)
Definition compose_affines (reference_image : string) (affine_list : list string)
    (output_file : string) : M string :=
  itk_compose_affines reference_image affine_list output_file.

Definition _run_interface (inputs : ConcatRPESplitsInputSpec.t) (cwd : string)
    : M ConcatRPESplitsOutputSpec.t :=
  let plus_images := OutputMultiObject_get (ConcatRPESplitsInputSpec.dwi_plus inputs) in
  let plus_bvecs := OutputMultiObject_get (ConcatRPESplitsInputSpec.bvec_plus inputs) in
  let plus_bvals := OutputMultiObject_get (ConcatRPESplitsInputSpec.bval_plus inputs) in
  let plus_b0_images :=
    OutputMultiObject_get (ConcatRPESplitsInputSpec.b0_images_plus inputs) in
  let plus_b0_indices := ConcatRPESplitsInputSpec.b0_indices_plus inputs in
  let plus_hmc_affines :=
    OutputMultiObject_get (ConcatRPESplitsInputSpec.hmc_affines_plus inputs) in
  let plus_hmc_to_ref_affine := ConcatRPESplitsInputSpec.template_plus_to_ref_affine inputs in
  let plus_hmc_to_ref_warp := ConcatRPESplitsInputSpec.template_plus_to_ref_warp inputs in
  num_plus ← lift (py_len plus_images);
  let minus_images := OutputMultiObject_get (ConcatRPESplitsInputSpec.dwi_minus inputs) in
  let minus_bvecs := OutputMultiObject_get (ConcatRPESplitsInputSpec.bvec_minus inputs) in
  let minus_bvals := OutputMultiObject_get (ConcatRPESplitsInputSpec.bval_minus inputs) in
  let minus_b0_images :=
    OutputMultiObject_get (ConcatRPESplitsInputSpec.b0_images_minus inputs) in
  let minus_b0_indices := ConcatRPESplitsInputSpec.b0_indices_minus inputs in
  let minus_hmc_affines :=
    OutputMultiObject_get (ConcatRPESplitsInputSpec.hmc_affines_minus inputs) in
  let minus_hmc_to_ref_affine := ConcatRPESplitsInputSpec.template_minus_to_ref_affine inputs in
  let minus_hmc_to_ref_warp := ConcatRPESplitsInputSpec.template_minus_to_ref_warp inputs in
  num_minus ← lift (py_len minus_images);
  dwi_files ← lift (py_add plus_images minus_images);
  bval_files ← lift (py_add plus_bvals minus_bvals);
  bvec_files ← lift (py_add plus_bvecs minus_bvecs);
  b0_images ← lift (py_add plus_b0_images minus_b0_images);
  let b0_indices :=
    plus_b0_indices ++ ((λ idx, Z.of_nat num_plus + idx)%Z <$> minus_b0_indices) in
  let original_grouping := replicate num_plus "plus" ++ replicate num_minus "minus" in
  let to_dwi_ref_warps :=
    match plus_hmc_to_ref_warp, minus_hmc_to_ref_warp with
    | Some plus_warp, Some minus_warp =>
        Some (replicate num_plus plus_warp ++ replicate num_minus minus_warp)
    | _, _ => None
    end in
  let b0_ref := ConcatRPESplitsInputSpec.b0_ref_image inputs in
  plus_items ← lift (py_iter plus_hmc_affines);
  combined_plus ← for_eachM (λ '(affine_num, hmc_aff_plus),
      compose_affines b0_ref [plus_hmc_to_ref_affine; hmc_aff_plus]
        (cwd +:+ "/combined_hmc_affine_plus_" +:+ fmt_d 3 affine_num +:+ ".mat"))
    (zip (seq 0 (length plus_items)) plus_items);
  minus_items ← lift (py_iter minus_hmc_affines);
  combined_minus ← for_eachM (λ '(affine_num, hmc_aff_minus),
      compose_affines b0_ref [minus_hmc_to_ref_affine; hmc_aff_minus]
        (cwd +:+ "/combined_hmc_affine_minus_" +:+ fmt_d 3 affine_num +:+ ".mat"))
    (zip (seq 0 (length minus_items)) minus_items);
  let combined_affines := combined_plus ++ combined_minus in
  mret {|
    ConcatRPESplitsOutputSpec.b0_ref_image := b0_ref;
    ConcatRPESplitsOutputSpec.b0_ref_mask := ConcatRPESplitsInputSpec.b0_ref_mask inputs;
    ConcatRPESplitsOutputSpec.dwi_files := dwi_files;
    ConcatRPESplitsOutputSpec.bval_files := bval_files;
    ConcatRPESplitsOutputSpec.bvec_files := bvec_files;
    ConcatRPESplitsOutputSpec.b0_images := b0_images;
    ConcatRPESplitsOutputSpec.b0_indices := b0_indices;
    ConcatRPESplitsOutputSpec.original_grouping := original_grouping;
    ConcatRPESplitsOutputSpec.to_dwi_ref_warps := to_dwi_ref_warps;
    ConcatRPESplitsOutputSpec.to_dwi_ref_affines := combined_affines
  |}.

End interface.
End ConcatRPESplits.

(** *** [IntraModalMerge] *)

Module IntraModalMergeInputSpec.
Record t : Type := {
  in_files : list string;
  hmc : bool;
  zero_based_avg : bool;
  to_lps : bool
}.
End IntraModalMergeInputSpec.

Module IntraModalMergeOutputSpec.
Record t : Type := {
  out_file : string;
  out_avg : string;
  out_mats : option (list string);
  out_movpar : option string
}.
#[global] Instance eq_dec : EqDecision t.
Proof. solve_decision. Defined.
End IntraModalMergeOutputSpec.

(** The shape of [np.squeeze(a)]. *)
Definition squeezed_shape (shape : list nat) : list nat :=
  filter (λ n, n ≠ 1) shape.

(** [a.mean(axis=3)] of a four-dimensional array: the mean of each voxel
    over the volumes, as a rational. *)
Definition mean_over_volumes (data : list (list Qc)) : list (list Qc) :=
  (λ voxel : list Qc,
     [(foldr Qcplus 0%Qc voxel / Qc_of_Z (Z.of_nat (length voxel)))%Qc]) <$> data.

(** [a.min()] *)
Definition np_min (data : list (list Qc)) : Qc :=
  match concat data with
  | [] => 0%Qc
  | x :: xs => foldr (λ y m, if decide (y < m)%Qc then y else m) x xs
  end.

Module IntraModalMerge.
Section interface.
Context `{Externals}.

Definition with_data (img : nifti) (data : list (list Qc)) (shape : list nat) : nifti :=
  Nifti1Image data shape (affine img) (zooms img) (xyz_unit img) (data_dtype img)
              (intent img).

(** The end of the method, from the motion correction on. *)
Definition motion_correct (inputs : IntraModalMergeInputSpec.t) (out_avg merged : string)
    : M IntraModalMergeOutputSpec.t :=
  mcres ← run_interface (fsl_MCFLIRT "normcorr" 0 merged);
  hmcnii ← nb_load (out_file mcres);
  let hmcdat := mean_over_volumes (get_data hmcnii) in
  let hmcdat :=
    if IntraModalMergeInputSpec.zero_based_avg inputs
    then (λ voxel : list Qc, (λ x, x - np_min hmcdat)%Qc <$> voxel) <$> hmcdat
    else hmcdat in
  to_filename (with_data hmcnii hmcdat (take 3 (shape hmcnii))) out_avg;;
  mret {| IntraModalMergeOutputSpec.out_mats := Some (mat_file mcres);
          IntraModalMergeOutputSpec.out_movpar := Some (par_file mcres);
          IntraModalMergeOutputSpec.out_file := out_file mcres;
          IntraModalMergeOutputSpec.out_avg := out_avg |}.

Definition _run_interface (inputs : IntraModalMergeInputSpec.t) (cwd : string)
    : M IntraModalMergeOutputSpec.t :=
  let in_files := IntraModalMergeInputSpec.in_files inputs in
  first ← lift (getitem (IntraModalMergeInputSpec.in_files inputs) 0);
  let out_avg := fname_presuffix first EmptyString "_avg" (Some cwd) true in
  in_files ←
    (if IntraModalMergeInputSpec.to_lps inputs
     then for_eachM (λ inf, reorient inf (Some cwd)) in_files
     else mret in_files);
  match in_files with
  | [in_file] =>
      filenii ← nb_load in_file;
      in_file ←
        (if decide (length (shape filenii) = 5) then
           let sqshape := squeezed_shape (shape filenii) in
           if decide (length sqshape = 5) then
             raise (RuntimeError ("Input image (" +:+ in_file +:+ ") is 5D"))
           else
             let squeezed :=
               fname_presuffix in_file EmptyString "_squeezed" (Some cwd) true in
             to_filename (with_data filenii (get_data filenii) sqshape) squeezed;;
             mret squeezed
         else mret in_file);
      loaded ← nb_load in_file;
      if decide (length (squeezed_shape (shape loaded)) < 4) then
        mret {| IntraModalMergeOutputSpec.out_file := in_file;
                IntraModalMergeOutputSpec.out_avg := in_file;
                IntraModalMergeOutputSpec.out_mats := None;
                IntraModalMergeOutputSpec.out_movpar := None |}
      else motion_correct inputs out_avg in_file
  | _ =>
      magmrg ← run_interface (fsl_Merge "t" (IntraModalMergeInputSpec.in_files inputs));
      motion_correct inputs out_avg (out_file magmrg)
  end.

End interface.
End IntraModalMerge.

(** *** [Conform] *)

Module ConformInputSpec.
Record t : Type := {
  in_file : string;
  target_zooms : list Qc;
  target_shape : list nat
}.
End ConformInputSpec.

Module ConformOutputSpec.
Record t : Type := {
  out_file : string;
  transform : string
}.
#[global] Instance eq_dec : EqDecision t.
Proof. solve_decision. Defined.
End ConformOutputSpec.

(** [m[:3, :3] = block] and [m[:3, 3] = column] on a 4x4 matrix. *)
Definition set_block33 (m block : list (list Qc)) : list (list Qc) :=
  imap (λ i row, match block !! i with
                 | Some brow => if decide (i < 3) then take 3 brow ++ drop 3 row else row
                 | None => row
                 end) m.

Definition set_column3 (m : list (list Qc)) (column : list Qc) : list (list Qc) :=
  imap (λ i row, match column !! i with
                 | Some x => if decide (i < 3) then <[3 := x]> row else row
                 | None => row
                 end) m.

Module Conform.
Section interface.
Context `{Externals}.

Definition atol_of_unit (xyz_unit : string) : result Qc :=
  if decide (xyz_unit = "meter") then Ok (Q2Qc (1 # 100000))
  else if decide (xyz_unit = "mm") then Ok (Q2Qc (1 # 100))
  else if decide (xyz_unit = "micron") then Ok (Qc_of_Z 10)
  else Raise (Exception ("KeyError: " +:+ xyz_unit)).

Definition _run_interface (inputs : ConformInputSpec.t) (cwd : string)
    : M ConformOutputSpec.t :=
  let fname := ConformInputSpec.in_file inputs in
  orig_img ← nb_load fname;
  orig_axcodes ← lift (aff2axcodes (affine orig_img));
  reoriented ← lift (to_lps orig_img);
  (** [to_lps] hands back its argument itself when it is in (L,P,S) order *)
  let reoriented_is_orig := bool_decide (orig_axcodes = ["L"; "P"; "S"]) in
  let target_zooms := ConformInputSpec.target_zooms inputs in
  let target_shape := ConformInputSpec.target_shape inputs in
  let target_span :=
    zip_with (λ (n : nat) z, Qc_of_Z (Z.of_nat n) * z)%Qc target_shape target_zooms in
  let orig_shape := shape orig_img in
  let header_unit := xyz_unit reoriented in
  let zooms := take 3 (zooms reoriented) in
  let shape := take 3 (shape reoriented) in
  let ornt_xfm := inv_ornt_aff (io_orientation (affine reoriented)) orig_shape in
  let target_affine := affine reoriented in
  let conform_xfm := np_eye 4 in
  let xyz_unit := header_unit in
  let xyz_unit := if decide (xyz_unit = "unknown") then "mm" else xyz_unit in
  atol ← lift (atol_of_unit xyz_unit);
  let rescale := negb (np_allclose atol [zooms] [target_zooms]) in
  let resize := negb (bool_decide (shape = target_shape)) in
  '(reoriented, reoriented_is_orig, target_affine, conform_xfm) ←
    (if rescale || resize then
       let target_affine :=
         if rescale then
           let scale_factor := zip_with Qcdiv target_zooms zooms in
           set_block33 target_affine
             (mat_dot (take 3 <$> take 3 (affine reoriented)) (np_diag scale_factor))
         else target_affine in
       let target_affine :=
         if resize then
           let size_factor :=
             zip_with Qcdiv target_span
               (zip_with (λ z (n : nat), z * Qc_of_Z (Z.of_nat n))%Qc zooms shape) in
           let translation := np_column (take 3 (affine reoriented)) 3 in
           let offset := zip_with (λ t f, t * f - t)%Qc translation size_factor in
           set_column3 target_affine
             (zip_with (λ t (o : Qc), t + Qc_of_Z (Qtruncate o))%Qc translation offset)
         else target_affine in
       let data := resample_img reoriented target_affine target_shape in
       let conform_xfm := mat_dot (linalg_inv (affine reoriented)) target_affine in
       mret (Nifti1Image data target_shape target_affine target_zooms
                         header_unit (data_dtype reoriented)
                         (intent reoriented),
             false, target_affine, conform_xfm)
     else mret (reoriented, reoriented_is_orig, target_affine, conform_xfm));
  out_name ←
    (if reoriented_is_orig : bool then mret fname
     else
       let out_name := fname_presuffix fname EmptyString "_lps" (Some cwd) true in
       to_filename reoriented out_name;;
       mret out_name);
  let transform := mat_dot ornt_xfm conform_xfm in
  if np_allclose (Q2Qc (1 # 100000000)) (mat_dot (affine orig_img) transform) target_affine
  then
    let mat_name := fname_presuffix fname EmptyString ".mat" (Some cwd) false in
    np_savetxt mat_name (Arr2 transform) fmt_8f;;
    mret {| ConformOutputSpec.out_file := out_name;
            ConformOutputSpec.transform := mat_name |}
  else raise AssertionError.

End interface.
End Conform.

(** *** [SplitDWIs] and [NiftiInfo] *)

Module SplitDWIsInputSpec.
Record t : Type := {
  dwi_file : string;
  bvec_file : string;
  bval_file : string;
  b0_threshold : Z
}.
End SplitDWIsInputSpec.

Module SplitDWIsOutputSpec.
Record t : Type := {
  dwi_files : list string;
  bvec_files : list string;
  bval_files : list string;
  b0_images : list string;
  b0_indices : list Z
}.
End SplitDWIsOutputSpec.

(** [np.flatnonzero(bvalues < threshold)] *)
Definition flatnonzero_below (bvalues : list Qc) (threshold : Z) : list nat :=
  (zip (seq 0 (length bvalues)) bvalues
     ≫= λ '(idx, b), if decide (b < Qc_of_Z threshold)%Qc then [idx] else []).

Module SplitDWIs.
Section interface.
Context `{Externals}.

Definition _run_interface (inputs : SplitDWIsInputSpec.t) (cwd : string)
    : M SplitDWIsOutputSpec.t :=
  split ← run_interface (fsl_Split "t" (SplitDWIsInputSpec.dwi_file inputs));
  let split_dwi_files := out_files split in
  '(split_bval_files, split_bvec_files) ←
    split_bvals_bvecs (SplitDWIsInputSpec.bval_file inputs)
                      (SplitDWIsInputSpec.bvec_file inputs) cwd;
  loaded ← np_loadtxt (SplitDWIsInputSpec.bval_file inputs) 0;
  let bvalues := match loaded with
                 | Arr0 x => [x]
                 | Arr1 xs => xs
                 | Arr2 rows => concat rows
                 end in
  let b0_indices := flatnonzero_below bvalues (SplitDWIsInputSpec.b0_threshold inputs) in
  b0_paths ← lift (for_each (λ idx, getitem split_dwi_files idx) b0_indices);
  mret {| SplitDWIsOutputSpec.dwi_files := split_dwi_files;
          SplitDWIsOutputSpec.bval_files := split_bval_files;
          SplitDWIsOutputSpec.bvec_files := split_bvec_files;
          SplitDWIsOutputSpec.b0_images := b0_paths;
          SplitDWIsOutputSpec.b0_indices := Z.of_nat <$> b0_indices |}.

End interface.
End SplitDWIs.

Module NiftiInfo.
Definition _run_interface (in_file : string) : M (list Qc) :=
  img ← nb_load in_file;
  mret (take 3 (zooms img)).
End NiftiInfo.

(** ** A concrete environment for the examples

    The examples and counterexamples below run the interfaces on explicit
    inputs; they need explicit programs and library routines.  [bench] is a
    machine on which no external program is installed (a command leaves the
    files as they are, a nipype interface raises) and the library routines
    are exact versions for the inputs the examples use. *)

(** [nibabel.io_orientation] for an affine whose array axes lie along world
    axes (every column of the 3x3 block has one non-zero entry).  nibabel
    first replaces the block by its polar factor, which for such a block is
    its matrix of signs, and then runs this loop: each array axis takes the
    world axis with the largest entry, and that world axis is removed. *)
Fixpoint argmax_abs_from (best_pos : nat) (best : Qc) (pos : nat) (xs : list Qc) : nat :=
  match xs with
  | [] => best_pos
  | x :: xs' =>
      let ax := if decide (x < 0)%Qc then (- x)%Qc else x in
      if decide (best < ax)%Qc then argmax_abs_from pos ax (S pos) xs'
      else argmax_abs_from best_pos best (S pos) xs'
  end.

Fixpoint io_orientation_loop (R : list (list Qc)) (in_axes : list nat) : list (nat * Z) :=
  match in_axes with
  | [] => []
  | in_ax :: rest =>
      let col := (λ row : list Qc, default 0%Qc (row !! in_ax)) <$> R in
      let out_ax := argmax_abs_from 0 0%Qc 0 col in
      let direction := if decide (default 0%Qc (col !! out_ax) < 0)%Qc then (-1)%Z else 1%Z in
      (out_ax, direction)
        :: io_orientation_loop (<[out_ax := replicate 3 0%Qc]> R) rest
  end.

Definition io_orientation_axis_aligned (aff : list (list Qc)) : list (nat * Z) :=
  io_orientation_loop (take 3 <$> take 3 aff) [0; 1; 2].

(** [apply_orientation] on a three-dimensional array stored voxel by voxel in
    C order: the voxel at [new] in the result is the voxel of the input whose
    index along array axis [a] is [new[ornt[a][0]]], counted from the far end
    when the axis is flipped. *)
Definition old_index (shape : list nat) (ornt : list (nat * Z)) (new : list nat) : list nat :=
  (λ '(a, (j, flip)),
     let n := default 0 (new !! j) in
     if decide (flip = (-1)%Z) then default 0 (shape !! a) - 1 - n else n)
    <$> zip (seq 0 (length ornt)) ornt.

Definition ravel (shape index : list nat) : nat :=
  foldl (λ acc '(n, i), acc * n + i) 0 (zip shape index).

Definition grid (shape : list nat) : list (list nat) :=
  foldr (λ n tails, i ← seq 0 n; (λ t, i :: t) <$> tails) [[]] shape.

Definition apply_orientation_3d (data : list (list Qc)) (shape : list nat)
    (ornt : list (nat * Z)) : list (list Qc) :=
  let shape3 := take 3 shape in
  let new_shape :=
    foldl (λ acc '(a, (j, _)), <[j := default 0 (shape3 !! a)]> acc) shape3
          (zip (seq 0 (length ornt)) ornt) in
  (λ new, default [] (data !! ravel shape3 (old_index shape3 ornt new)))
    <$> grid new_shape.

(** The inverse of an affine [[R, t], [0, 1]] by the adjugate of [R]. *)
Definition entry (m : list (list Qc)) (i j : nat) : Qc :=
  default 0%Qc (m !! i ≫= (.!! j)).

Definition det3 (m : list (list Qc)) : Qc :=
  (entry m 0 0 * (entry m 1 1 * entry m 2 2 - entry m 1 2 * entry m 2 1)
   - entry m 0 1 * (entry m 1 0 * entry m 2 2 - entry m 1 2 * entry m 2 0)
   + entry m 0 2 * (entry m 1 0 * entry m 2 1 - entry m 1 1 * entry m 2 0))%Qc.

Definition inv3 (m : list (list Qc)) : list (list Qc) :=
  let d := det3 m in
  let cof (i j : nat) : Qc :=
    let i1 := (i + 1) `mod` 3 in let i2 := (i + 2) `mod` 3 in
    let j1 := (j + 1) `mod` 3 in let j2 := (j + 2) `mod` 3 in
    (entry m i1 j1 * entry m i2 j2 - entry m i1 j2 * entry m i2 j1)%Qc in
  (λ i, (λ j, cof j i / d)%Qc <$> [0; 1; 2]) <$> [0; 1; 2].

Definition inv_affine (aff : list (list Qc)) : list (list Qc) :=
  let r := inv3 aff in
  let t := (λ i, entry aff i 3) <$> [0; 1; 2] in
  ((λ row, row ++ [(- dot_vec row t)%Qc]) <$> r) ++ [[0; 0; 0; 1]%Qc].

(** The Euclidean norm to nine decimals. *)
Definition norm_9_decimals (v : list Qc) : Qc :=
  let sumsq := foldr Qcplus 0%Qc ((λ x, x * x)%Qc <$> v) in
  (Qc_of_Z (Z.sqrt (Qfloor (sumsq * Qc_of_Z (10 ^ 18))%Qc)) / Qc_of_Z (10 ^ 9))%Qc.

(** A reader for the FSL layout: one line of N b-values, three lines of N
    b-vector components. *)
Definition read_fsl_gradients (bval_file bvec_file : string) (fs : gmap string file)
    : result (list Qc * list (list Qc)) :=
  match fs !! bval_file, fs !! bvec_file with
  | Some (Text [bvals]), Some (Text [xs; ys; zs]) =>
      if decide (length xs = length bvals ∧ length ys = length bvals
                 ∧ length zs = length bvals)
      then Ok (bvals, np_T [xs; ys; zs])
      else Raise (IOError "b-values and b-vectors shapes do not correspond")
  | Some _, Some _ => Raise (IOError "bvec file should have three rows")
  | None, _ => Raise (IOError bval_file)
  | _, None => Raise (IOError bvec_file)
  end.

(** The eigen-decomposition of a diagonal tensor in dipy's order: eigenvalues
    from largest to smallest (negative ones clipped to zero), eigenvectors as
    columns. *)
Fixpoint insert_desc (p : Qc * list Qc) (ps : list (Qc * list Qc)) : list (Qc * list Qc) :=
  match ps with
  | [] => [p]
  | q :: ps' => if decide (q.1 < p.1)%Qc then p :: ps else q :: insert_desc p ps'
  end.

Definition decompose_diagonal_tensor (tensor : list (list Qc)) : list Qc * list (list Qc) :=
  let pairs :=
    (λ i, (entry tensor i i, (λ j, if decide (i = j) then 1%Qc else 0%Qc) <$> [0; 1; 2]))
      <$> [0; 1; 2] in
  let sorted := foldr insert_desc [] pairs in
  ((λ p : Qc * list Qc, if decide (p.1 < 0)%Qc then 0%Qc else p.1) <$> sorted,
   np_T (sorted.*2)).

Definition bench : Externals := {|
  shell := λ cmd fs, fs;
  nipype := λ t fs, (Raise (IOError "command not found"), fs);
  itk_compose_affines := λ reference affines output,
    raise (IOError "command not found");
  read_bvals_bvecs := read_fsl_gradients;
  linalg_norm := norm_9_decimals;
  linalg_inv := inv_affine;
  float32 := λ x, x;
  io_orientation := io_orientation_axis_aligned;
  apply_orientation := apply_orientation_3d;
  resample_img := λ img target_affine target_shape,
    replicate (foldr Nat.mul 1 target_shape) [0%Qc];
  all_tensor_evecs := λ direction, np_eye 3;
  decompose_tensor := decompose_diagonal_tensor
|}.

(** The same environment with other programs installed. *)
Definition with_shell (sh : string → gmap string file → gmap string file)
    (E : Externals) : Externals := {|
  shell := sh;
  nipype := @nipype E;
  itk_compose_affines := @itk_compose_affines E;
  read_bvals_bvecs := @read_bvals_bvecs E;
  linalg_norm := @linalg_norm E;
  linalg_inv := @linalg_inv E;
  float32 := @float32 E;
  io_orientation := @io_orientation E;
  apply_orientation := @apply_orientation E;
  resample_img := @resample_img E;
  all_tensor_evecs := @all_tensor_evecs E;
  decompose_tensor := @decompose_tensor E
|}.

Definition with_nipype
    (run : tool_run → gmap string file → result interface_result * gmap string file)
    (E : Externals) : Externals := {|
  shell := @shell E;
  nipype := run;
  itk_compose_affines := @itk_compose_affines E;
  read_bvals_bvecs := @read_bvals_bvecs E;
  linalg_norm := @linalg_norm E;
  linalg_inv := @linalg_inv E;
  float32 := @float32 E;
  io_orientation := @io_orientation E;
  apply_orientation := @apply_orientation E;
  resample_img := @resample_img E;
  all_tensor_evecs := @all_tensor_evecs E;
  decompose_tensor := @decompose_tensor E
|}.

Definition with_itk_compose_affines
    (compose : string → list string → string → M string)
    (E : Externals) : Externals := {|
  shell := @shell E;
  nipype := @nipype E;
  itk_compose_affines := compose;
  read_bvals_bvecs := @read_bvals_bvecs E;
  linalg_norm := @linalg_norm E;
  linalg_inv := @linalg_inv E;
  float32 := @float32 E;
  io_orientation := @io_orientation E;
  apply_orientation := @apply_orientation E;
  resample_img := @resample_img E;
  all_tensor_evecs := @all_tensor_evecs E;
  decompose_tensor := @decompose_tensor E
|}.

(** *** Inputs of the examples *)

Definition identity_affine : list (list Qc) :=
  [[1; 0; 0; 0]; [0; 1; 0; 0]; [0; 0; 1; 0]; [0; 0; 0; 1]]%Qc.

Definition lps_affine : list (list Qc) :=
  [[-1; 0; 0; 0]; [0; -1; 0; 0]; [0; 0; 1; 0]; [0; 0; 0; 1]]%Qc.

(** A two-volume diffusion series on a 2x1x1 grid, stored in (R,A,S)
    orientation, with its gradient table: volume 0 along x, volume 1 along y. *)
Definition ras_dwi : nifti :=
  Nifti1Image [[Qc_of_Z 10; Qc_of_Z 11]; [Qc_of_Z 20; Qc_of_Z 21]] [2; 1; 1; 2]
              identity_affine [1; 1; 1; 1]%Qc "mm" "int16" "none".

Definition ras_bvec_lines : list (list Qc) := [[1; 0]; [0; 1]; [0; 0]]%Qc.

Definition ras_world : world :=
  World (<["/data/sub-01_dwi.nii.gz" := Nifti ras_dwi]>
         (<["/data/sub-01_dwi.bvec" := Text ras_bvec_lines]>
          (<["/data/sub-01_dwi.bval" := Text [[0; Qc_of_Z 1000]]%Qc]> ∅))) [].

(** The FSL table of the round-trip examples: b-values 0 and 1000. *)
Definition fsl_world : world :=
  World (<["/data/dwi.bval" := Text [[Qc_of_Z 0; Qc_of_Z 1000]]]>
         (<["/data/dwi.bvec" := Text ras_bvec_lines]> ∅)) [].

(** The same table with a b-value of 1/2. *)
Definition fractional_world : world :=
  World (<["/data/dwi.bval" := Text [[Q2Qc (1 # 2); Qc_of_Z 1000]]]>
         (<["/data/dwi.bvec" := Text ras_bvec_lines]> ∅)) [].

(** A point-transform program that applies the identity: it copies the
    points file of each of the given transforms. *)
Definition identity_points_tool (cwd : string) (transforms : list string)
    (cmd : string) (fs : gmap string file) : gmap string file :=
  let orig_txt t := fname_presuffix t EmptyString "_pre_rotation.csv" (Some cwd) false in
  let rotated_txt t := fname_presuffix t EmptyString "_post_rotation.csv" (Some cwd) false in
  match list_find (λ t, cmd = aattp_cmd (orig_txt t) (rotated_txt t) t) transforms with
  | Some (_, t) =>
      match fs !! orig_txt t with
      | Some points => <[rotated_txt t := points]> fs
      | None => fs
      end
  | None => fs
  end.

(** The reversed-phase-encoding example of the spec: five plus volumes with
    b0 indices 0 and 2, four minus volumes with b0 indices 0 and 1. *)
Definition rpe_inputs : ConcatRPESplitsInputSpec.t := {|
  ConcatRPESplitsInputSpec.dwi_plus := ["p0.nii"; "p1.nii"; "p2.nii"; "p3.nii"; "p4.nii"];
  ConcatRPESplitsInputSpec.bvec_plus := ["p0.bvec"; "p1.bvec"; "p2.bvec"; "p3.bvec"; "p4.bvec"];
  ConcatRPESplitsInputSpec.bval_plus := ["p0.bval"; "p1.bval"; "p2.bval"; "p3.bval"; "p4.bval"];
  ConcatRPESplitsInputSpec.b0_images_plus := ["p0.nii"; "p2.nii"];
  ConcatRPESplitsInputSpec.b0_indices_plus := [0; 2]%Z;
  ConcatRPESplitsInputSpec.hmc_affines_plus := ["p0.mat"; "p1.mat"; "p2.mat"; "p3.mat"; "p4.mat"];
  ConcatRPESplitsInputSpec.hmc_affines_minus := ["m0.mat"; "m1.mat"; "m2.mat"; "m3.mat"];
  ConcatRPESplitsInputSpec.template_plus_to_ref_affine := "plus_to_ref.mat";
  ConcatRPESplitsInputSpec.template_plus_to_ref_warp := Some "plus_warp.nii.gz";
  ConcatRPESplitsInputSpec.dwi_minus := ["m0.nii"; "m1.nii"; "m2.nii"; "m3.nii"];
  ConcatRPESplitsInputSpec.bvec_minus := ["m0.bvec"; "m1.bvec"; "m2.bvec"; "m3.bvec"];
  ConcatRPESplitsInputSpec.bval_minus := ["m0.bval"; "m1.bval"; "m2.bval"; "m3.bval"];
  ConcatRPESplitsInputSpec.b0_images_minus := ["m0.nii"; "m1.nii"];
  ConcatRPESplitsInputSpec.b0_indices_minus := [0; 1]%Z;
  ConcatRPESplitsInputSpec.template_minus_to_ref_affine := "minus_to_ref.mat";
  ConcatRPESplitsInputSpec.template_minus_to_ref_warp := Some "minus_warp.nii.gz";
  ConcatRPESplitsInputSpec.b0_ref_image := "b0_ref.nii";
  ConcatRPESplitsInputSpec.b0_ref_mask := "b0_mask.nii"
|}.

(** The same series with a single b0 image in the plus series. *)
Definition one_plus_b0 : ConcatRPESplitsInputSpec.t := {|
  ConcatRPESplitsInputSpec.dwi_plus := ConcatRPESplitsInputSpec.dwi_plus rpe_inputs;
  ConcatRPESplitsInputSpec.bvec_plus := ConcatRPESplitsInputSpec.bvec_plus rpe_inputs;
  ConcatRPESplitsInputSpec.bval_plus := ConcatRPESplitsInputSpec.bval_plus rpe_inputs;
  ConcatRPESplitsInputSpec.b0_images_plus := ["p0.nii"];
  ConcatRPESplitsInputSpec.b0_indices_plus := [0]%Z;
  ConcatRPESplitsInputSpec.hmc_affines_plus :=
    ConcatRPESplitsInputSpec.hmc_affines_plus rpe_inputs;
  ConcatRPESplitsInputSpec.hmc_affines_minus :=
    ConcatRPESplitsInputSpec.hmc_affines_minus rpe_inputs;
  ConcatRPESplitsInputSpec.template_plus_to_ref_affine := "plus_to_ref.mat";
  ConcatRPESplitsInputSpec.template_plus_to_ref_warp := Some "plus_warp.nii.gz";
  ConcatRPESplitsInputSpec.dwi_minus := ConcatRPESplitsInputSpec.dwi_minus rpe_inputs;
  ConcatRPESplitsInputSpec.bvec_minus := ConcatRPESplitsInputSpec.bvec_minus rpe_inputs;
  ConcatRPESplitsInputSpec.bval_minus := ConcatRPESplitsInputSpec.bval_minus rpe_inputs;
  ConcatRPESplitsInputSpec.b0_images_minus := ["m0.nii"; "m1.nii"];
  ConcatRPESplitsInputSpec.b0_indices_minus := [0; 1]%Z;
  ConcatRPESplitsInputSpec.template_minus_to_ref_affine := "minus_to_ref.mat";
  ConcatRPESplitsInputSpec.template_minus_to_ref_warp := Some "minus_warp.nii.gz";
  ConcatRPESplitsInputSpec.b0_ref_image := "b0_ref.nii";
  ConcatRPESplitsInputSpec.b0_ref_mask := "b0_mask.nii"
|}.

(** The same series with a single b0 image in each series. *)
Definition one_b0_each : ConcatRPESplitsInputSpec.t := {|
  ConcatRPESplitsInputSpec.dwi_plus := ConcatRPESplitsInputSpec.dwi_plus rpe_inputs;
  ConcatRPESplitsInputSpec.bvec_plus := ConcatRPESplitsInputSpec.bvec_plus rpe_inputs;
  ConcatRPESplitsInputSpec.bval_plus := ConcatRPESplitsInputSpec.bval_plus rpe_inputs;
  ConcatRPESplitsInputSpec.b0_images_plus := ["p0.nii"];
  ConcatRPESplitsInputSpec.b0_indices_plus := [0]%Z;
  ConcatRPESplitsInputSpec.hmc_affines_plus :=
    ConcatRPESplitsInputSpec.hmc_affines_plus rpe_inputs;
  ConcatRPESplitsInputSpec.hmc_affines_minus :=
    ConcatRPESplitsInputSpec.hmc_affines_minus rpe_inputs;
  ConcatRPESplitsInputSpec.template_plus_to_ref_affine := "plus_to_ref.mat";
  ConcatRPESplitsInputSpec.template_plus_to_ref_warp := Some "plus_warp.nii.gz";
  ConcatRPESplitsInputSpec.dwi_minus := ConcatRPESplitsInputSpec.dwi_minus rpe_inputs;
  ConcatRPESplitsInputSpec.bvec_minus := ConcatRPESplitsInputSpec.bvec_minus rpe_inputs;
  ConcatRPESplitsInputSpec.bval_minus := ConcatRPESplitsInputSpec.bval_minus rpe_inputs;
  ConcatRPESplitsInputSpec.b0_images_minus := ["m0.nii"];
  ConcatRPESplitsInputSpec.b0_indices_minus := [0]%Z;
  ConcatRPESplitsInputSpec.template_minus_to_ref_affine := "minus_to_ref.mat";
  ConcatRPESplitsInputSpec.template_minus_to_ref_warp := Some "minus_warp.nii.gz";
  ConcatRPESplitsInputSpec.b0_ref_image := "b0_ref.nii";
  ConcatRPESplitsInputSpec.b0_ref_mask := "b0_mask.nii"
|}.

(** An affine composition that starts the program of [compose_affines] in
    gradients.py, which writes its output file, and returns the file's name. *)
Definition compose_to_file (reference_image : string) (affine_list : list string)
    (output_file : string) : M string := λ w,
  (Ok output_file,
   World (<[output_file := Binary "affine"]> (files w))
         (runs w ++ [os_system (compose_affines_cmd reference_image affine_list
                                                    output_file)])).

(** Three volumes, one b0 transform, and two distortion-correction warps. *)
Definition two_warps_three_volumes : ComposeTransformsInputSpec.t := {|
  ComposeTransformsInputSpec.dwi_files :=
    ["/data/dwi_0000.nii.gz"; "/data/dwi_0001.nii.gz"; "/data/dwi_0002.nii.gz"];
  ComposeTransformsInputSpec.original_b0_indices := [0%Z];
  ComposeTransformsInputSpec.reference_image := "/data/t1w.nii.gz";
  ComposeTransformsInputSpec.hmc_to_ref_affines := ["/work/hmc_b0_0.mat"];
  ComposeTransformsInputSpec.fieldwarps :=
    Some ["/work/warp_a.nii.gz"; "/work/warp_b.nii.gz"];
  ComposeTransformsInputSpec.unwarped_dwi_ref_to_t1w_affine := "/work/b0_to_t1.mat";
  ComposeTransformsInputSpec.t1_2_mni_forward_transform := None;
  ComposeTransformsInputSpec.save_cmd := false;
  ComposeTransformsInputSpec.num_threads := 1%Z
|}.

Definition one_voxel : nifti :=
  Nifti1Image [[Qc_of_Z 7]] [1; 1; 1] lps_affine [1; 1; 1]%Qc "mm" "int16" "none".

Definition three_volumes_world : world :=
  World (<["/data/dwi_0000.nii.gz" := Nifti one_voxel]>
         (<["/data/dwi_0001.nii.gz" := Nifti one_voxel]>
          (<["/data/dwi_0002.nii.gz" := Nifti one_voxel]> ∅))) [].

(** A resampling program that copies its input image to its output, and an
    affine composition that writes the output of each of the given calls. *)
Definition copying_resampler (t : tool_run) (fs : gmap string file)
    : result interface_result * gmap string file :=
  match t with
  | ants_ApplyTransforms input_image transforms output_image reference_image _ =>
      match fs !! input_image with
      | Some f =>
          (Ok {| cmdline := "antsApplyTransforms --input " +:+ input_image +:+
                            " --output " +:+ output_image;
                 out_file := output_image; out_files := []; mat_file := [];
                 par_file := EmptyString |},
           <[output_image := f]> fs)
      | None => (Raise (IOError input_image), fs)
      end
  | _ => (Raise (IOError "command not found"), fs)
  end.

Definition composing_shell (calls : list (string * list string * string))
    (cmd : string) (fs : gmap string file) : gmap string file :=
  match list_find (λ c : string * list string * string,
                     cmd = compose_affines_cmd c.1.1 c.1.2 c.2) calls with
  | Some (_, c) => <[c.2 := Binary "affine"]> fs
  | None => fs
  end.

Definition ants_installed : Externals :=
  with_nipype copying_resampler
    (with_shell
       (composing_shell
          ((λ name, ("/data/t1w.nii.gz", ["/work/b0_to_t1.mat"; "/work/hmc_b0_0.mat"], name))
             <$> ["/work/dwi_0000_affine_xform-00000.mat";
                  "/work/dwi_0001_affine_xform-00001.mat";
                  "/work/dwi_0002_affine_xform-00002.mat"]))
       bench).

(** Two magnitude images on a 2x1x1 grid, stored in (R,A,S) orientation. *)
Definition ras_volume (a b : Z) : nifti :=
  Nifti1Image [[Qc_of_Z a]; [Qc_of_Z b]] [2; 1; 1] identity_affine [1; 1; 1]%Qc
              "mm" "int16" "none".

Definition two_magnitudes_world : world :=
  World (<["/data/mag1.nii.gz" := Nifti (ras_volume 10 20)]>
         (<["/data/mag2.nii.gz" := Nifti (ras_volume 30 40)]> ∅)) [].

Definition two_magnitudes : IntraModalMergeInputSpec.t := {|
  IntraModalMergeInputSpec.in_files := ["/data/mag1.nii.gz"; "/data/mag2.nii.gz"];
  IntraModalMergeInputSpec.hmc := true;
  IntraModalMergeInputSpec.zero_based_avg := true;
  IntraModalMergeInputSpec.to_lps := true
|}.

(** FSL as far as the examples need it: [fslmerge] puts the volumes of its
    inputs side by side on the grid of the first one, and [mcflirt] finds no
    motion and copies its input. *)
Fixpoint merged_data (imgs : list nifti) : list (list Qc) :=
  match imgs with
  | [] => []
  | [img] => get_data img
  | img :: imgs' => zip_with app (get_data img) (merged_data imgs')
  end.

Definition fsl (cwd : string) (t : tool_run) (fs : gmap string file)
    : result interface_result * gmap string file :=
  match t with
  | fsl_Merge _ in_files =>
      match mapM (λ f, match fs !! f with Some (Nifti img) => Some img | _ => None end)
                 in_files with
      | Some (first :: rest) =>
          let merged :=
            fname_presuffix (default EmptyString (head in_files)) EmptyString "_merged"
                            (Some cwd) true in
          (Ok {| cmdline := "fslmerge -t " +:+ merged +:+ " " +:+ join " " in_files;
                 out_file := merged; out_files := []; mat_file := [];
                 par_file := EmptyString |},
           <[merged := Nifti (Nifti1Image (merged_data (first :: rest))
                                (take 3 (shape first) ++ [length (first :: rest)])
                                (affine first) (zooms first) (xyz_unit first)
                                (data_dtype first) (intent first))]> fs)
      | _ => (Raise (IOError "fslmerge"), fs)
      end
  | fsl_MCFLIRT _ _ in_file =>
      match fs !! in_file with
      | Some f =>
          let out := fname_presuffix in_file EmptyString "_mcf" (Some cwd) true in
          (Ok {| cmdline := "mcflirt -in " +:+ in_file +:+ " -cost normcorr -refvol 0";
                 out_file := out; out_files := [];
                 mat_file := [out +:+ ".mat/MAT_0000"];
                 par_file := out +:+ ".par" |},
           <[out := f]> fs)
      | None => (Raise (IOError in_file), fs)
      end
  | _ => (Raise (IOError "command not found"), fs)
  end.

(** An anatomical image on a 2x2x2 grid of 1 mm voxels that needs neither
    rescaling nor resizing, stored with the given affine. *)
Definition t1w (aff : list (list Qc)) : nifti :=
  Nifti1Image ((λ n : nat, [Qc_of_Z (Z.of_nat n)]) <$> seq 0 8) [2; 2; 2] aff
              [1; 1; 1]%Qc "mm" "int16" "none".

Definition t1w_world (aff : list (list Qc)) : world :=
  World (<["/data/sub-01_T1w.nii.gz" := Nifti (t1w aff)]> ∅) [].

Definition conform_as_is : ConformInputSpec.t := {|
  ConformInputSpec.in_file := "/data/sub-01_T1w.nii.gz";
  ConformInputSpec.target_zooms := [1; 1; 1]%Qc;
  ConformInputSpec.target_shape := [2; 2; 2]
|}.

(** A mask of two voxels of which the first is inside, and one b0 volume to
    rotate locally. *)
Definition two_voxel_mask : nifti :=
  Nifti1Image [[1]; [0]]%Qc [2; 1; 1] lps_affine [1; 1; 1]%Qc "mm" "uint8" "none".

Definition mask_world : world :=
  World (<["/data/mask.nii.gz" := Nifti two_voxel_mask]>
         (<["/xfm/warp_0.nii.gz" := Binary "warp"]> ∅)) [].

(** Two requests to [ExtractB0s] on the series of [ras_world]: the first and
    the last volume, and a volume that does not exist. *)
Definition first_and_last_volume : ExtractB0sInputSpec.t := {|
  ExtractB0sInputSpec.b0_indices := [0; -1]%Z;
  ExtractB0sInputSpec.dwi_series := "/data/sub-01_dwi.nii.gz"
|}.

Definition third_volume : ExtractB0sInputSpec.t := {|
  ExtractB0sInputSpec.b0_indices := [0; 2]%Z;
  ExtractB0sInputSpec.dwi_series := "/data/sub-01_dwi.nii.gz"
|}.

Definition three_volumes_two_b0s : MatchTransformsInputSpec.t := {|
  MatchTransformsInputSpec.b0_indices := [0; 2]%Z;
  MatchTransformsInputSpec.dwi_files := ["v0"; "v1"; "v2"];
  MatchTransformsInputSpec.transforms := ["hmc_b0_0"; "hmc_b0_2"]
|}.

(** Per-volume files of one b-value each, as [split_bvals_bvecs] leaves
    them, and a series of a single volume. *)
Definition split_bvals_world : world :=
  World (<["/work/dwi_0000.bval" := Text [[Q2Qc (1 # 2)]]]>
         (<["/work/dwi_0001.bval" := Text [[Qc_of_Z 1000]]]> ∅)) [].

Definition single_volume : GradientRotationInputSpec.t := {|
  GradientRotationInputSpec.affine_transforms := ["/xfm/a.mat"];
  GradientRotationInputSpec.bvec_files := ["/work/dwi_0000.bvec"];
  GradientRotationInputSpec.bval_files := ["/work/dwi_0000.bval"]
|}.

(** Three volumes with a warp each and a template transform; and a template
    transform of one part only. *)
Definition three_warps_and_template : ComposeTransformsInputSpec.t := {|
  ComposeTransformsInputSpec.dwi_files :=
    ["/data/dwi_0000.nii.gz"; "/data/dwi_0001.nii.gz"; "/data/dwi_0002.nii.gz"];
  ComposeTransformsInputSpec.original_b0_indices := [0%Z];
  ComposeTransformsInputSpec.reference_image := "/data/t1w.nii.gz";
  ComposeTransformsInputSpec.hmc_to_ref_affines := ["/work/hmc_b0_0.mat"];
  ComposeTransformsInputSpec.fieldwarps :=
    Some ["/work/warp_a.nii.gz"; "/work/warp_b.nii.gz"; "/work/warp_c.nii.gz"];
  ComposeTransformsInputSpec.unwarped_dwi_ref_to_t1w_affine := "/work/b0_to_t1.mat";
  ComposeTransformsInputSpec.t1_2_mni_forward_transform :=
    Some ["/work/t1_to_mni.mat"; "/work/t1_to_mni_warp.nii.gz"];
  ComposeTransformsInputSpec.save_cmd := false;
  ComposeTransformsInputSpec.num_threads := 1%Z
|}.

Definition template_of_one_part : ComposeTransformsInputSpec.t := {|
  ComposeTransformsInputSpec.dwi_files :=
    ["/data/dwi_0000.nii.gz"; "/data/dwi_0001.nii.gz"; "/data/dwi_0002.nii.gz"];
  ComposeTransformsInputSpec.original_b0_indices := [0%Z];
  ComposeTransformsInputSpec.reference_image := "/data/t1w.nii.gz";
  ComposeTransformsInputSpec.hmc_to_ref_affines := ["/work/hmc_b0_0.mat"];
  ComposeTransformsInputSpec.fieldwarps := None;
  ComposeTransformsInputSpec.unwarped_dwi_ref_to_t1w_affine := "/work/b0_to_t1.mat";
  ComposeTransformsInputSpec.t1_2_mni_forward_transform :=
    Some ["/work/t1_to_mni_warp.nii.gz"];
  ComposeTransformsInputSpec.save_cmd := false;
  ComposeTransformsInputSpec.num_threads := 1%Z
|}.

(** A diffusion series already stored in (L,P,S) orientation. *)
Definition lps_dwi : nifti :=
  Nifti1Image [[Qc_of_Z 10; Qc_of_Z 11]; [Qc_of_Z 20; Qc_of_Z 21]] [2; 1; 1; 2]
              lps_affine [1; 1; 1; 1]%Qc "mm" "int16" "none".

Definition lps_world : world :=
  World (<["/data/sub-02_dwi.nii.gz" := Nifti lps_dwi]> ∅) [].

(** A single magnitude image, and an image of five dimensions. *)
Definition one_magnitude : IntraModalMergeInputSpec.t := {|
  IntraModalMergeInputSpec.in_files := ["/data/mag1.nii.gz"];
  IntraModalMergeInputSpec.hmc := true;
  IntraModalMergeInputSpec.zero_based_avg := true;
  IntraModalMergeInputSpec.to_lps := true
|}.

Definition five_dimensions : nifti :=
  Nifti1Image (replicate 8 (replicate 4 0%Qc)) [2; 2; 2; 2; 2] identity_affine
              [1; 1; 1; 1; 1]%Qc "mm" "int16" "none".

Definition five_dimensions_world : world :=
  World (<["/data/mag5d.nii.gz" := Nifti five_dimensions]> ∅) [].

Definition one_5d_magnitude : IntraModalMergeInputSpec.t := {|
  IntraModalMergeInputSpec.in_files := ["/data/mag5d.nii.gz"];
  IntraModalMergeInputSpec.hmc := true;
  IntraModalMergeInputSpec.zero_based_avg := true;
  IntraModalMergeInputSpec.to_lps := false
|}.

(** An [fslsplit] that writes one image per volume of a four-dimensional
    series, named [vol0000], [vol0001], ... in the working directory. *)
Definition splitting_fsl (cwd : string) (t : tool_run) (fs : gmap string file)
    : result interface_result * gmap string file :=
  match t with
  | fsl_Split _ in_file =>
      match fs !! in_file with
      | Some (Nifti img) =>
          let volumes := seq 0 (default 0 (last (shape img))) in
          let name := λ n, cwd +:+ "/vol" +:+ fmt_d 4 n +:+ ".nii.gz" in
          (Ok {| cmdline := "fslsplit " +:+ in_file +:+ " -t";
                 out_file := EmptyString; out_files := name <$> volumes;
                 mat_file := []; par_file := EmptyString |},
           foldr (λ n, <[name n :=
                    Nifti (Nifti1Image
                             ((λ voxel : list Qc, [default 0%Qc (voxel !! n)])
                                <$> get_data img)
                             (take 3 (shape img)) (affine img) (take 3 (zooms img))
                             (xyz_unit img) (data_dtype img) (intent img))]>)
                 fs volumes)
      | _ => (Raise (IOError in_file), fs)
      end
  | _ => (Raise (IOError "command not found"), fs)
  end.

Definition split_ras_series : SplitDWIsInputSpec.t := {|
  SplitDWIsInputSpec.dwi_file := "/data/sub-01_dwi.nii.gz";
  SplitDWIsInputSpec.bvec_file := "/data/sub-01_dwi.bvec";
  SplitDWIsInputSpec.bval_file := "/data/sub-01_dwi.bval";
  SplitDWIsInputSpec.b0_threshold := 50
|}.

(** ** Predicates used in the statements *)

(** The six component files [create_tensor_image] writes for ImageMath. *)
Definition component_files (prefix : string) : list string :=
  (λ direction, prefix +:+ "_temp_dtiComp_" +:+ direction +:+ ".nii.gz")
    <$> ["xx"; "xy"; "xz"; "yy"; "yz"; "zz"].

(** The transforms handed to the resampling of volume [i], in the order ANTs
    applies them last to first: the template warp and affine (when given),
    the dwi-to-anatomical affine, the distortion-correction warp of the
    volume (its own when there is one per volume, the single one when there
    is just one, none otherwise), and the head-motion affine of the
    volume. *)
Definition chain_of (inputs : ComposeTransformsInputSpec.t) (i : nat) (hmc : string)
    : list string :=
  let N := length (ComposeTransformsInputSpec.dwi_files inputs) in
  match ComposeTransformsInputSpec.t1_2_mni_forward_transform inputs with
  | Some [mni_affine; mni_warp] => [mni_warp; mni_affine]
  | _ => []
  end ++
  [ComposeTransformsInputSpec.unwarped_dwi_ref_to_t1w_affine inputs] ++
  match ComposeTransformsInputSpec.fieldwarps inputs with
  | Some sdc_unwarp =>
      if decide (length sdc_unwarp = N) then option_list (sdc_unwarp !! i)
      else if decide (length sdc_unwarp = 1) then sdc_unwarp
      else []
  | None => []
  end ++
  [hmc].


(** The files one pass of the loop of [split_bvals_bvecs] writes. *)
Definition split_item_names (bval_file bvec_file cwd : string) (nsample : nat)
    : string * string :=
  (fname_presuffix bval_file EmptyString ("_" +:+ fmt_d 4 nsample) (Some cwd) true,
   fname_presuffix bvec_file EmptyString ("_" +:+ fmt_d 4 nsample) (Some cwd) true).

Definition split_item_write (bval_file bvec_file cwd : string)
    (fs : gmap string file) (item : nat * (list Qc * list Qc)) : gmap string file :=
  let names := split_item_names bval_file bvec_file cwd item.1 in
  <[names.2 := Text ((λ x, [x]) <$> item.2.2)]>
    (<[names.1 := Text ((λ x, [x]) <$> item.2.1)]> fs).

Definition split_item_files (bval_file bvec_file cwd : string)
    (item : nat * (list Qc * list Qc)) : list string :=
  let names := split_item_names bval_file bvec_file cwd item.1 in [names.1; names.2].


(** The same inputs with the distortion-correction warps not set. *)
Definition without_fieldwarps (inputs : ComposeTransformsInputSpec.t)
    : ComposeTransformsInputSpec.t := {|
  ComposeTransformsInputSpec.dwi_files := ComposeTransformsInputSpec.dwi_files inputs;
  ComposeTransformsInputSpec.original_b0_indices :=
    ComposeTransformsInputSpec.original_b0_indices inputs;
  ComposeTransformsInputSpec.reference_image :=
    ComposeTransformsInputSpec.reference_image inputs;
  ComposeTransformsInputSpec.hmc_to_ref_affines :=
    ComposeTransformsInputSpec.hmc_to_ref_affines inputs;
  ComposeTransformsInputSpec.fieldwarps := None;
  ComposeTransformsInputSpec.unwarped_dwi_ref_to_t1w_affine :=
    ComposeTransformsInputSpec.unwarped_dwi_ref_to_t1w_affine inputs;
  ComposeTransformsInputSpec.t1_2_mni_forward_transform :=
    ComposeTransformsInputSpec.t1_2_mni_forward_transform inputs;
  ComposeTransformsInputSpec.save_cmd := ComposeTransformsInputSpec.save_cmd inputs;
  ComposeTransformsInputSpec.num_threads := ComposeTransformsInputSpec.num_threads inputs
|}.

(** Of the two lists, one holds exactly one file and the other two or more. *)
Definition one_against_several (plus minus : list string) : Prop :=
  (length plus = 1 ∧ 2 ≤ length minus) ∨ (2 ≤ length plus ∧ length minus = 1).

(** The affine composition of [qsiprep.interfaces.itk] does not raise. *)
Definition compose_affines_succeeds `{Externals} : Prop :=
  ∀ reference_image affine_list output_file w,
    ∃ composed w',
      itk_compose_affines reference_image affine_list output_file w = (Ok composed, w').

(** The point-transform program does its work for [transform]: run on a
    points file of two points, it leaves an output file of two points with
    at least three coordinates each. *)
Definition points_tool_ok `{Externals} (cwd transform : string) : Prop :=
  let orig_txt :=
    fname_presuffix transform EmptyString "_pre_rotation.csv" (Some cwd) false in
  let rotated_txt :=
    fname_presuffix transform EmptyString "_post_rotation.csv" (Some cwd) false in
  ∀ fs origin point,
    length origin = 4 → length point = 4 →
    fs !! orig_txt = Some (Csv "x,y,z,t" [origin; point]) →
    ∃ header p0 p1,
      shell (aattp_cmd orig_txt rotated_txt transform) fs !! rotated_txt
        = Some (Csv header [p0; p1]) ∧
      length p0 = length p1 ∧ 3 ≤ length p0.

(** The transform at position [k] of the b0 list is the nearest one for volume
    [index]: its b0 index is at minimal distance from [index], and every
    earlier position is strictly farther (the first minimum wins a tie). *)
Definition nearest_b0 (b0_indices : list Z) (index k : nat) : Prop :=
  ∃ bk, b0_indices !! k = Some bk ∧
    (∀ j bj, b0_indices !! j = Some bj →
       (Z.abs (Z.of_nat index - bk) ≤ Z.abs (Z.of_nat index - bj))%Z) ∧
    (∀ j bj, j < k → b0_indices !! j = Some bj →
       (Z.abs (Z.of_nat index - bk) < Z.abs (Z.of_nat index - bj))%Z).

(* ====================================================================== *)
(** * Properties *)
(* ====================================================================== *)

Section match_transforms_props.

Lemma argmin_from_spec xs : ∀ best_pos best pos k pre,
  argmin_from best_pos best pos xs = k →
  length pre = pos →
  pre !! best_pos = Some best →
  (∀ j x, pre !! j = Some x → (best ≤ x)%Z) →
  (∀ j x, j < best_pos → pre !! j = Some x → (best < x)%Z) →
  ∃ m, (pre ++ xs) !! k = Some m ∧
       (∀ j x, (pre ++ xs) !! j = Some x → (m ≤ x)%Z) ∧
       (∀ j x, j < k → (pre ++ xs) !! j = Some x → (m < x)%Z).
Proof.
  induction xs as [|x xs IH]; intros best_pos best pos k pre Hk Hlen Hbest Hmin Hfirst.
  - simpl in Hk. subst k. rewrite app_nil_r. eauto.
  - simpl in Hk. replace (pre ++ x :: xs) with ((pre ++ [x]) ++ xs)
      by (by rewrite <- app_assoc).
    destruct (Z.ltb_spec x best) as [Hlt|Hge].
    + apply (IH pos x (S pos) k (pre ++ [x])); auto.
      * rewrite length_app. simpl. lia.
      * rewrite lookup_app_r by lia. by replace (pos - length pre) with 0 by lia.
      * intros j y Hj. apply lookup_app_Some in Hj as [Hj|[_ Hj]].
        -- specialize (Hmin _ _ Hj). lia.
        -- destruct (j - length pre); simpl in Hj; [|done]. injection Hj as ->. lia.
      * intros j y Hjlt Hj. rewrite lookup_app_l in Hj by lia.
        specialize (Hmin _ _ Hj). lia.
    + apply (IH best_pos best (S pos) k (pre ++ [x])); auto.
      * rewrite length_app. simpl. lia.
      * apply lookup_app_l_Some. done.
      * intros j y Hj. apply lookup_app_Some in Hj as [Hj|[_ Hj]].
        -- eauto.
        -- destruct (j - length pre); simpl in Hj; [|done]. injection Hj as ->. lia.
      * intros j y Hjlt Hj. apply lookup_app_Some in Hj as [Hj|[Hge' Hj]].
        -- eauto.
        -- apply lookup_lt_Some in Hbest. lia.
Qed.

Lemma np_argmin_spec xs :
  xs ≠ [] →
  ∃ k m, np_argmin xs = Ok k ∧ xs !! k = Some m ∧
    (∀ j x, xs !! j = Some x → (m ≤ x)%Z) ∧
    (∀ j x, j < k → xs !! j = Some x → (m < x)%Z).
Proof.
  destruct xs as [|x xs]; [done|]. intros _.
  destruct (argmin_from_spec xs 0 x 1 (argmin_from 0 x 1 xs) [x]) as (m & Hm & Hle & Hlt);
    try done.
  - intros [|j] y Hj; simpl in Hj; [|done]. injection Hj as ->. lia.
  - intros j y Hj. lia.
  - exists (argmin_from 0 x 1 xs), m. eauto.
Qed.

Lemma for_each_Ok {A B} (f : A → result B) (P : A → B → Prop) xs :
  (∀ x, x ∈ xs → ∃ y, f x = Ok y ∧ P x y) →
  ∃ ys, for_each f xs = Ok ys ∧ Forall2 P xs ys.
Proof.
  induction xs as [|x xs IH]; intros Hf.
  - exists []. split; [done|constructor].
  - destruct (Hf x) as (y & Hy & HP); [left|].
    destruct IH as (ys & Hys & HF); [intros z Hz; apply Hf; by right|].
    exists (y :: ys). simpl. rewrite Hy, Hys. split; [done|by constructor].
Qed.

Lemma nearest_transform_Ok (transforms : list string) b0_indices index :
  length transforms = length b0_indices → transforms ≠ [] →
  ∃ t : string, (nearest_b0_num ← np_argmin (b0_distances index b0_indices);
        getitem transforms nearest_b0_num) = Ok t ∧
       ∃ k, nearest_b0 b0_indices index k ∧ transforms !! k = Some t.
Proof.
  intros Hlen Hne.
  destruct (np_argmin_spec (b0_distances index b0_indices)) as (k & m & Hk & Hm & Hle & Hlt).
  { unfold b0_distances. destruct b0_indices; [by destruct transforms|done]. }
  unfold b0_distances in Hm, Hle, Hlt. rewrite list_lookup_fmap in Hm.
  destruct (b0_indices !! k) as [bk|] eqn:Hbk; [|done]. injection Hm as <-.
  destruct (lookup_lt_is_Some_2 transforms k) as [t Ht].
  { rewrite Hlen. by eapply lookup_lt_Some. }
  exists t. rewrite Hk. simpl. unfold getitem. rewrite Ht. split; [done|].
  exists k. split; [|done]. exists bk. split; [done|]. split.
  - intros j bj Hj. apply (Hle j). by rewrite list_lookup_fmap, Hj.
  - intros j bj Hjk Hj. apply (Hlt j); [done|]. by rewrite list_lookup_fmap, Hj.
Qed.

(** C1 (as amended).  With N volumes, M transforms and a b0 index list:
    if M = N the transform list is returned unchanged; otherwise, if M equals
    the number of b0 indices and M >= 1, the result has length N and volume i
    is bound to the transform whose b0 index is nearest to i, the first such
    position winning a tie; if M equals the number of b0 indices and both are
    0 (so N > 0), numpy's argmin raises ValueError; and if M differs from both
    N and the number of b0 indices, the function raises its own Exception. *)
Theorem match_transforms_cases (dwi_files transforms : list string) (b0_indices : list Z) :
  (length dwi_files = length transforms →
     match_transforms dwi_files transforms b0_indices = Ok transforms) ∧
  (length dwi_files ≠ length transforms →
   length transforms = length b0_indices → transforms ≠ [] →
     ∃ nearest_affines,
       match_transforms dwi_files transforms b0_indices = Ok nearest_affines ∧
       length nearest_affines = length dwi_files ∧
       ∀ index, index < length dwi_files →
         ∃ k t, nearest_b0 b0_indices index k ∧
                transforms !! k = Some t ∧ nearest_affines !! index = Some t) ∧
  (length dwi_files ≠ length transforms → transforms = [] → b0_indices = [] →
     match_transforms dwi_files transforms b0_indices =
       Raise (ValueError "attempt to get argmin of an empty sequence")) ∧
  (length dwi_files ≠ length transforms →
   length transforms ≠ length b0_indices →
     match_transforms dwi_files transforms b0_indices =
       Raise (Exception "number of transforms does not match number of b0 images")).
Proof.
  unfold match_transforms. repeat split.
  - intros Heq. by rewrite decide_True.
  - intros Hne Hlen Hts. rewrite decide_False, decide_True by done.
    destruct (for_each_Ok
      (λ index, nearest_b0_num ← np_argmin (b0_distances index b0_indices);
                getitem transforms nearest_b0_num)
      (λ index t, ∃ k, nearest_b0 b0_indices index k ∧ transforms !! k = Some t)
      (seq 0 (length dwi_files))) as (res & Hres & HF).
    { intros index _. by apply nearest_transform_Ok. }
    exists res. split; [done|].
    pose proof (Forall2_length _ _ _ HF) as Hl. rewrite length_seq in Hl.
    split; [done|]. intros index Hi.
    destruct (lookup_lt_is_Some_2 res index) as [t Ht]; [lia|].
    pose proof (Forall2_lookup_lr _ _ _ index index t HF) as Hlr.
    destruct Hlr as (k & Hk & Hkt); [by apply lookup_seq_lt|done|].
    exists k, t. done.
  - intros Hne -> ->. destruct dwi_files; [done|reflexivity].
  - intros Hne Hlen. by rewrite !decide_False.
Qed.

(** C1 (as stated) fails: one volume, no transform and no b0 index have
    M = number of b0 indices and M <> N, yet no length-1 list is returned. *)
Lemma match_transforms_empty_b0_raises :
  match_transforms ["dwi_0000.nii.gz"] [] [] =
    Raise (ValueError "attempt to get argmin of an empty sequence").
Proof. reflexivity. Qed.

(** Spec section 8, property 1: six volumes, b0 transforms at indices 0 and 3. *)
Example match_transforms_six_volumes :
  match_transforms ["v0"; "v1"; "v2"; "v3"; "v4"; "v5"] ["hmc_b0_0"; "hmc_b0_3"] [0; 3]%Z =
    Ok ["hmc_b0_0"; "hmc_b0_0"; "hmc_b0_3"; "hmc_b0_3"; "hmc_b0_3"; "hmc_b0_3"].
Proof. reflexivity. Qed.

(** A tie (volume 1 between b0 indices 0 and 2) goes to the first b0. *)
Example match_transforms_tie :
  match_transforms ["v0"; "v1"; "v2"] ["hmc_b0_0"; "hmc_b0_2"] [0; 2]%Z =
    Ok ["hmc_b0_0"; "hmc_b0_0"; "hmc_b0_2"].
Proof. reflexivity. Qed.

End match_transforms_props.

(** ** The monad of effects *)

Lemma M_bind_Ok {A B} (m : M A) (f : A → M B) w a w' :
  m w = (Ok a, w') → (m ≫= f) w = f a w'.
Proof. intros Hm. unfold mbind, M_bind. by rewrite Hm. Qed.

Lemma M_bind_Raise {A B} (m : M A) (f : A → M B) w e w' :
  m w = (Raise e, w') → (m ≫= f) w = (Raise e, w').
Proof. intros Hm. unfold mbind, M_bind. by rewrite Hm. Qed.

Lemma M_bind_inv {A B} (m : M A) (f : A → M B) w b w2 :
  (m ≫= f) w = (Ok b, w2) → ∃ a w1, m w = (Ok a, w1) ∧ f a w1 = (Ok b, w2).
Proof.
  unfold mbind, M_bind. destruct (m w) as [[a|e] w1]; [eauto|done].
Qed.

Lemma lift_Ok {A} (r : result A) w a w1 : lift r w = (Ok a, w1) → r = Ok a ∧ w1 = w.
Proof. unfold lift. by intros [= <- <-]. Qed.

Lemma nb_load_Ok fname w img w1 :
  nb_load fname w = (Ok img, w1) → w1 = w ∧ files w !! fname = Some (Nifti img).
Proof.
  unfold nb_load. intros Hrun. apply M_bind_inv in Hrun as (f & w2 & Hread & Hrun).
  unfold read_file in Hread. destruct (files w !! fname) as [f'|]; [|done].
  injection Hread as -> ->. destruct f; try done. by injection Hrun as <- <-.
Qed.

(** A loop whose body only reads leaves the world as it is. *)
Lemma for_eachM_read {A B} (f : A → M B) xs ys w :
  Forall2 (λ x y, f x w = (Ok y, w)) xs ys →
  for_eachM f xs w = (Ok ys, w).
Proof.
  induction 1 as [|x y xs ys Hxy _ IH]; [done|].
  simpl. rewrite (M_bind_Ok _ _ _ _ _ Hxy), (M_bind_Ok _ _ _ _ _ IH). done.
Qed.

(** ** Splitting and re-concatenating a gradient table *)

Section round_trip.
Context `{Externals}.

Lemma split_loop bval_file bvec_file cwd items w :
  for_eachM (λ '(nsample, (bval, bvec)),
      let bval_fname :=
        fname_presuffix bval_file EmptyString ("_" +:+ fmt_d 4 nsample) (Some cwd) true in
      let bvec_fname :=
        fname_presuffix bvec_file EmptyString ("_" +:+ fmt_d 4 nsample) (Some cwd) true in
      np_savetxt bval_fname (Arr1 bval) fmt_18e;;
      np_savetxt bvec_fname (Arr1 bvec) fmt_18e;;
      mret (bval_fname, bvec_fname)) items w =
  (Ok ((λ item, split_item_names bval_file bvec_file cwd item.1) <$> items),
   World (foldl (split_item_write bval_file bvec_file cwd) (files w) items) (runs w)).
Proof.
  revert w. induction items as [|[nsample [bval bvec]] items IH]; intros w.
  - by destruct w.
  - simpl. unfold mbind at 1, M_bind at 1. simpl.
    unfold mbind at 1, M_bind at 1. simpl.
    unfold mbind at 1, M_bind at 1. rewrite IH. simpl.
    done.
Qed.

Lemma split_fold_other bval_file bvec_file cwd items fs p :
  p ∉ items ≫= split_item_files bval_file bvec_file cwd →
  foldl (split_item_write bval_file bvec_file cwd) fs items !! p = fs !! p.
Proof.
  revert fs. induction items as [|item items IH]; intros fs Hp; [done|].
  simpl in *. rewrite !not_elem_of_cons in Hp.
  destruct Hp as (Hp1 & Hp2 & Hp).
  rewrite IH by done. unfold split_item_write.
  rewrite !lookup_insert_ne by done. done.
Qed.

Lemma split_fold_lookup bval_file bvec_file cwd items fs item :
  NoDup (items ≫= split_item_files bval_file bvec_file cwd) →
  item ∈ items →
  let names := split_item_names bval_file bvec_file cwd item.1 in
  let fs' := foldl (split_item_write bval_file bvec_file cwd) fs items in
  fs' !! names.1 = Some (Text ((λ x, [x]) <$> item.2.1)) ∧
  fs' !! names.2 = Some (Text ((λ x, [x]) <$> item.2.2)).
Proof.
  revert fs. induction items as [|it items IH]; intros fs Hnd Hin; [by inversion Hin|].
  simpl in Hnd. apply NoDup_cons in Hnd as [Hn1 Hnd].
  apply NoDup_cons in Hnd as [Hn2 Hnd]. simpl in Hnd.
  apply elem_of_cons in Hin as [->|Hin].
  - apply not_elem_of_cons in Hn1 as [Hne Hn1].
    simpl. rewrite !split_fold_other by done.
    unfold split_item_write. rewrite lookup_insert_ne by done.
    rewrite !lookup_insert_eq. done.
  - simpl. by apply IH.
Qed.

Lemma loadtxt_single_value b :
  loadtxt_array 1 [[b]] = Ok (Arr1 [b]).
Proof. reflexivity. Qed.

Lemma loadtxt_column_3 (v : list Qc) :
  length v = 3 → loadtxt_array 0 ((λ x, [x]) <$> v) = Ok (Arr1 v).
Proof.
  intros Hv. destruct v as [|x [|y [|z [|? ?]]]]; try done.
Qed.

Lemma np_loadtxt_Text fname ndmin rows w :
  files w !! fname = Some (Text rows) →
  np_loadtxt fname ndmin w = (loadtxt_array ndmin rows, w).
Proof.
  intros Hf. unfold np_loadtxt, read_file, mbind, M_bind. rewrite Hf. done.
Qed.

Lemma for_each_same_1d (xss : list (list Qc)) :
  for_each same_1d (Arr1 <$> xss) = Ok xss.
Proof.
  induction xss as [|xs xss IH]; [done|].
  cbn [for_each fmap list_fmap same_1d]. by rewrite IH.
Qed.

Lemma concat_singletons {A} (xs : list A) : concat ((λ x, [x]) <$> xs) = xs.
Proof. induction xs as [|x xs IH]; [done|]. simpl. f_equal. exact IH. Qed.

Lemma np_concatenate_singletons (bvals : list Qc) :
  bvals ≠ [] →
  np_concatenate ((λ b, Arr1 [b]) <$> bvals) = Ok (Arr1 bvals).
Proof.
  destruct bvals as [|b bvals]; [done|]. intros _.
  cbn [fmap list_fmap np_concatenate].
  replace ((λ b0, Arr1 [b0]) <$> bvals) with (Arr1 <$> ((λ x, [x]) <$> bvals))
    by (by rewrite <- list_fmap_compose).
  rewrite for_each_same_1d. cbn [mbind result_bind]. by rewrite concat_singletons.
Qed.

Lemma for_each_same_2d (v : list Qc) (bvecs : list (list Qc)) :
  Forall (λ u, length u = length v) bvecs →
  for_each (same_2d [v]) ((λ u, Arr2 [u]) <$> bvecs) = Ok ((λ u, [u]) <$> bvecs).
Proof.
  induction 1 as [|u bvecs Hu _ IH]; [done|].
  cbn [for_each fmap list_fmap same_2d head]. rewrite decide_True by (simpl; congruence).
  by rewrite IH.
Qed.

Lemma np_row_stack_rows (bvecs : list (list Qc)) n :
  bvecs ≠ [] → Forall (λ v, length v = n) bvecs →
  np_row_stack (Arr1 <$> bvecs) = Ok bvecs.
Proof.
  destruct bvecs as [|v bvecs]; [done|]. intros _ Hlen.
  apply Forall_cons in Hlen as [Hv Hlen].
  unfold np_row_stack. rewrite <- list_fmap_compose.
  cbn [fmap list_fmap np_concatenate compose np_atleast_2d].
  change (list_fmap _ _ (λ a, Arr2 (np_atleast_2d (Arr1 a))) bvecs)
    with ((λ u, Arr2 [u]) <$> bvecs).
  rewrite for_each_same_2d by (eapply Forall_impl; [done|]; simpl; congruence).
  cbn [mbind result_bind np_atleast_2d]. by rewrite concat_singletons.
Qed.

(** C2 (as amended).  A table of N >= 2 rows whose b-values are whole
    numbers, read by [read_bvals_bvecs] and split into per-volume files with
    pairwise distinct names, is reproduced by the two concatenations: the
    b-vectors come back as the same array, and the merged b-value file holds
    the same values, one per line, in the same order. *)
Theorem split_concatenate_round_trip (bval_file bvec_file cwd out_file : string)
    (bvals : list Qc) (bvecs : list (list Qc)) (w : world) :
  read_bvals_bvecs bval_file bvec_file (files w) = Ok (bvals, bvecs) →
  length bvecs = length bvals →
  2 ≤ length bvals →
  Forall (λ bvec, length bvec = 3) bvecs →
  Forall (λ bval, fmt_i bval = bval) bvals →
  NoDup (seq 0 (length bvals) ≫= λ nsample,
           [(split_item_names bval_file bvec_file cwd nsample).1;
            (split_item_names bval_file bvec_file cwd nsample).2]) →
  ∃ split_bval_files split_bvec_files w1 w2,
    split_bvals_bvecs bval_file bvec_file cwd w
      = (Ok (split_bval_files, split_bvec_files), w1) ∧
    length split_bval_files = length bvals ∧
    length split_bvec_files = length bvals ∧
    concatenate_bvecs split_bvec_files w1 = (Ok bvecs, w1) ∧
    concatenate_bvals split_bval_files out_file w1 = (Ok (), w2) ∧
    files w2 !! out_file = Some (Text ((λ bval, [bval]) <$> bvals)).
Proof.
  intros Hread Hlen HN Hvec Hint Hnd.
  set (items := zip (seq 0 (length bvals)) (zip ((λ b, [b]) <$> bvals) bvecs)).
  set (names := (λ item : nat * (list Qc * list Qc),
                   split_item_names bval_file bvec_file cwd item.1) <$> items).
  set (w1 := World (foldl (split_item_write bval_file bvec_file cwd) (files w) items)
                   (runs w)).
  assert (length (zip ((λ b : Qc, [b]) <$> bvals) bvecs) = length bvals) as Hzl.
  { rewrite length_zip, length_fmap. lia. }
  assert (items.*1 = seq 0 (length bvals)) as Hfst.
  { unfold items. apply fst_zip. rewrite length_seq. lia. }
  assert (length items = length bvals) as Hil.
  { rewrite <- (length_fmap fst), Hfst. apply length_seq. }
  assert (NoDup (items ≫= split_item_files bval_file bvec_file cwd)) as Hnd'.
  { replace (items ≫= split_item_files bval_file bvec_file cwd)
      with (items.*1 ≫= λ nsample,
              [(split_item_names bval_file bvec_file cwd nsample).1;
               (split_item_names bval_file bvec_file cwd nsample).2]).
    - by rewrite Hfst.
    - clear. induction items as [|it its IH]; [done|].
      cbn [fmap list_fmap mbind list_bind]. rewrite IH. done. }
  assert (∀ i b v, bvals !! i = Some b → bvecs !! i = Some v →
            items !! i = Some (i, ([b], v))) as Hitem.
  { intros i b v Hb Hv. unfold items.
    apply lookup_zip_with_Some. exists i, ([b], v). split; [done|]. split.
    - apply lookup_seq. split; [done|]. by eapply lookup_lt_Some.
    - apply lookup_zip_with_Some. exists [b], v. split; [done|]. split; [|done].
      by rewrite list_lookup_fmap, Hb. }
  exists (names.*1), (names.*2), w1,
    (World (<[out_file := Text ((λ b, [b]) <$> bvals)]> (files w1)) (runs w1)).
  split; [|split; [|split; [|split; [|split]]]].
  - unfold split_bvals_bvecs. unfold mbind at 1, M_bind at 1. rewrite Hread.
    fold items. unfold mbind at 1, M_bind at 1. rewrite split_loop. done.
  - unfold names. by rewrite !length_fmap.
  - unfold names. by rewrite !length_fmap.
  - unfold concatenate_bvecs.
    erewrite M_bind_Ok; [|apply (for_eachM_read _ _ (Arr1 <$> bvecs))].
    + unfold lift. erewrite np_row_stack_rows; [done| |exact Hvec].
      intros ->. simpl in Hlen. lia.
    + apply Forall2_same_length_lookup_2.
      { unfold names. rewrite !length_fmap. lia. }
      intros i name a Hname Ha.
      rewrite list_lookup_fmap in Ha.
      destruct (bvecs !! i) as [v|] eqn:Hv; [|done]. injection Ha as <-.
      destruct (lookup_lt_is_Some_2 bvals i) as [b Hb].
      { rewrite <- Hlen. by eapply lookup_lt_Some. }
      pose proof (Hitem _ _ _ Hb Hv) as Hit.
      unfold names in Hname. rewrite !list_lookup_fmap, Hit in Hname.
      injection Hname as <-.
      destruct (split_fold_lookup bval_file bvec_file cwd items (files w) _ Hnd'
                  (list_elem_of_lookup_2 _ _ _ Hit)) as [_ Hf].
      erewrite np_loadtxt_Text; [|exact Hf]. simpl.
      rewrite loadtxt_column_3; [done|]. by eapply (Forall_lookup_1 _ _ _ _ Hvec).
  - unfold concatenate_bvals.
    erewrite M_bind_Ok; [|apply (for_eachM_read _ _ ((λ b, Arr1 [b]) <$> bvals))].
    + unfold lift at 1. unfold mbind at 1, M_bind at 1.
      rewrite np_concatenate_singletons by (intros ->; simpl in HN; lia).
      destruct bvals as [|b1 [|b2 bvals]]; [simpl in HN; lia..|].
      simpl np_squeeze. unfold np_savetxt, write_file. f_equal. f_equal. f_equal. f_equal.
      apply list_fmap_ext. intros _ b Hb%list_elem_of_lookup_2. f_equal.
      by apply (proj1 (Forall_forall _ _) Hint).
    + apply Forall2_same_length_lookup_2.
      { unfold names. rewrite !length_fmap. lia. }
      intros i name a Hname Ha.
      rewrite list_lookup_fmap in Ha.
      destruct (bvals !! i) as [b|] eqn:Hb; [|done]. injection Ha as <-.
      destruct (lookup_lt_is_Some_2 bvecs i) as [v Hv].
      { rewrite Hlen. by eapply lookup_lt_Some. }
      pose proof (Hitem _ _ _ Hb Hv) as Hit.
      unfold names in Hname. rewrite !list_lookup_fmap, Hit in Hname.
      injection Hname as <-.
      destruct (split_fold_lookup bval_file bvec_file cwd items (files w) _ Hnd'
                  (list_elem_of_lookup_2 _ _ _ Hit)) as [Hf _].
      erewrite np_loadtxt_Text; [|exact Hf]. done.
  - simpl. apply lookup_insert_eq.
Qed.

End round_trip.

(** ** Conforming a diffusion image *)

Section conform_dwi.
Context `{Externals}.






End conform_dwi.


(** Spec section 8, property 6: from (R,A,S) to (L,P,S) the first two axes
    are flipped; the gradient (1,0,0) of volume 0 becomes (-1,0,0), the
    gradient (0,1,0) of volume 1 becomes (0,-1,0); the bval path is that of
    the input. *)
Example ConformDwi_ras_to_lps :
  let run := @ConformDwi._run_interface bench "/data/sub-01_dwi.nii.gz" "/work" ras_world in
  run.1 = Ok {| ConformDwiOutputSpec.dwi_file := "/work/sub-01_dwi_lps.nii.gz";
                ConformDwiOutputSpec.bvec_file := "/work/sub-01_dwi_lps.bvec";
                ConformDwiOutputSpec.bval_file := "/data/sub-01_dwi.bval" |} ∧
  holds_table run.2 "/work/sub-01_dwi_lps.bvec" [[-1; 0]; [0; -1]; [0; 0]]%Qc ∧
  holds_table run.2 "/data/sub-01_dwi.bval" [[0; Qc_of_Z 1000]]%Qc.
Proof. repeat split; compute_done. Qed.

(** A single gradient (1,0,0), stored as one column, becomes (-1,0,0). *)
Example ConformDwi_single_gradient :
  let w := World (<["/data/sub-01_dwi.bvec" := Text [[1]; [0]; [0]]%Qc]> (files ras_world)) [] in
  holds_table (@ConformDwi._run_interface bench "/data/sub-01_dwi.nii.gz" "/work" w).2
    "/work/sub-01_dwi_lps.bvec" [[-1]; [0]; [0]]%Qc.
Proof. compute_done. Qed.

(** A table with two rows is refused. *)
Example ConformDwi_two_rows :
  let w := World (<["/data/sub-01_dwi.bvec" := Text [[1; 0]; [0; 1]]%Qc]> (files ras_world)) [] in
  (@ConformDwi._run_interface bench "/data/sub-01_dwi.nii.gz" "/work" w).1 =
    Raise (ValueError "Unrecognized bvec format").
Proof. compute_done. Qed.

(** Witness for C2: the two-row table of [fsl_world]. *)
Lemma split_concatenate_round_trip_witness :
  ∃ split_bval_files split_bvec_files w1 w2,
    @split_bvals_bvecs bench "/data/dwi.bval" "/data/dwi.bvec" "/work" fsl_world
      = (Ok (split_bval_files, split_bvec_files), w1) ∧
    length split_bval_files = 2 ∧
    length split_bvec_files = 2 ∧
    concatenate_bvecs split_bvec_files w1
      = (Ok [[1; 0; 0]; [0; 1; 0]]%Qc, w1) ∧
    concatenate_bvals split_bval_files "/work/rotated.bval" w1 = (Ok (), w2) ∧
    files w2 !! "/work/rotated.bval" = Some (Text [[Qc_of_Z 0]; [Qc_of_Z 1000]]).
Proof.
  apply (@split_concatenate_round_trip bench "/data/dwi.bval" "/data/dwi.bvec"
           "/work" "/work/rotated.bval" [Qc_of_Z 0; Qc_of_Z 1000]
           [[1; 0; 0]; [0; 1; 0]]%Qc fsl_world).
  - reflexivity.
  - reflexivity.
  - simpl. lia.
  - repeat constructor.
  - repeat constructor.
  - apply (bool_decide_unpack _). vm_compute. exact I.
Defined.

(** C2 (as stated) fails: a b-value of 1/2 comes back as 0, because the
    merged b-value file is written with the format [%i]. *)
Lemma split_concatenate_truncates_bvals :
  let split := @split_bvals_bvecs bench "/data/dwi.bval" "/data/dwi.bvec" "/work"
                 fractional_world in
  split.1 = Ok (["/work/dwi_0000.bval"; "/work/dwi_0001.bval"],
                ["/work/dwi_0000.bvec"; "/work/dwi_0001.bvec"]) ∧
  holds_table split.2 "/work/dwi_0000.bval" [[Q2Qc (1 # 2)]] ∧
  let merged := concatenate_bvals ["/work/dwi_0000.bval"; "/work/dwi_0001.bval"]
                  "/work/rotated.bval" split.2 in
  merged.1 = Ok () ∧
  holds_table merged.2 "/work/rotated.bval" [[Qc_of_Z 0]; [Qc_of_Z 1000]] ∧
  ¬ holds_table merged.2 "/work/rotated.bval" [[Q2Qc (1 # 2)]; [Qc_of_Z 1000]].
Proof. repeat split; compute_done. Qed.

(** With a single volume the concatenation of b-values does not complete:
    [squeeze] turns the one-element array into a 0-D array, which
    [np.savetxt] refuses after it has opened the file, which is left empty. *)
Lemma concatenate_bvals_single_file_raises :
  let w := World (<["/work/dwi_0000.bval" := Text [[Qc_of_Z 1000]]]> ∅) [] in
  concatenate_bvals ["/work/dwi_0000.bval"] "/work/rotated.bval" w =
    (Raise (ValueError "Expected 1D or 2D array, got 0D array instead"),
     World (<["/work/rotated.bval" := Text []]> (files w)) []).
Proof. reflexivity. Qed.

(** ** Global rotation of the gradients *)

Section global_rotation.
Context `{Externals}.

(** A loop whose body succeeds in every world succeeds. *)
Lemma for_eachM_Ok {A B} (f : A → M B) (P : B → Prop) xs :
  (∀ x w, x ∈ xs → ∃ y w', f x w = (Ok y, w') ∧ P y) →
  ∀ w, ∃ ys w', for_eachM f xs w = (Ok ys, w') ∧
                length ys = length xs ∧ Forall P ys.
Proof.
  induction xs as [|x xs IH]; intros Hf w.
  - exists [], w. done.
  - destruct (Hf x w) as (y & w1 & Hy & HP); [left|].
    destruct (IH (λ x' w' Hin, Hf x' w' (list_elem_of_further _ _ _ Hin)) w1)
      as (ys & w2 & Hys & Hlen & HPs).
    exists (y :: ys), w2. simpl.
    rewrite (M_bind_Ok _ _ _ _ _ Hy), (M_bind_Ok _ _ _ _ _ Hys).
    split; [done|]. split; [simpl; lia|by constructor].
Qed.

Lemma loadtxt_two_rows (p0 p1 : list Qc) :
  length p0 = length p1 → 2 ≤ length p0 →
  loadtxt_array 0 [p0; p1] = Ok (Arr2 [p0; p1]).
Proof.
  intros Hp Hp2.
  destruct p0 as [|a [|b p0]]; simpl in Hp2; try lia.
  destruct p1 as [|a' [|b' p1]]; simpl in Hp; try lia.
  unfold loadtxt_array.
  rewrite !filter_cons_True, filter_nil by done.
  cbn [forallb]. rewrite bool_decide_eq_true_2 by (simpl; lia). done.
Qed.

Lemma aattp_rotate_vec_Ok (orig_vec : list Qc) (transform cwd : string) (w : world) :
  length orig_vec = 3 → points_tool_ok cwd transform →
  ∃ vec cmd w', aattp_rotate_vec orig_vec transform cwd w = (Ok (vec, cmd), w') ∧
                length vec = 3.
Proof.
  intros Hlen Htool. unfold aattp_rotate_vec. case_decide as Hb0.
  { exists orig_vec, "b0: No rotation", w. done. }
  set (orig_txt := fname_presuffix transform EmptyString "_pre_rotation.csv" (Some cwd) false).
  set (rotated_txt := fname_presuffix transform EmptyString "_post_rotation.csv" (Some cwd) false).
  destruct (Htool (<[orig_txt :=
      Csv "x,y,z,t" [[0; 0; 0; 0]; ((λ x, Qc_of_Z 5 * x) <$> orig_vec) ++ [0]]%Qc]> (files w))
      [0; 0; 0; 0]%Qc (((λ x, Qc_of_Z 5 * x)%Qc <$> orig_vec) ++ [0%Qc]))
    as (header & p0 & p1 & Hout & Hp & Hp3).
  { done. }
  { rewrite length_app, length_fmap. simpl. lia. }
  { apply lookup_insert_eq. }
  fold orig_txt rotated_txt in Hout.
  unfold mbind at 1, M_bind at 1, write_file at 1.
  unfold mbind at 1, M_bind at 1, run_os_system at 1.
  unfold mbind at 1, M_bind at 1, np_loadtxt_csv at 1, mbind at 1, M_bind at 1, read_file at 1.
  cbn [files]. rewrite Hout. unfold lift at 1.
  rewrite loadtxt_two_rows by (done || lia).
  unfold mbind at 1, M_bind at 1, lift at 1. cbn [first_three_columns].
  unfold mbind at 1, M_bind at 1, lift at 1. cbn [getitem lookup list_lookup fmap list_fmap].
  unfold mbind at 1, M_bind at 1, lift at 1. cbn [getitem lookup list_lookup].
  eexists _, _, _. split; [reflexivity|].
  unfold unit_vector. rewrite length_fmap, length_zip_with, !length_take. lia.
Qed.

(** The worlds a loop goes through: one before each item, and the last. *)
Lemma for_eachM_chain {A B} (f : A → M B) xs ys w w' :
  for_eachM f xs w = (Ok ys, w') →
  ∃ worlds : list world,
    worlds !! 0 = Some w ∧ worlds !! length xs = Some w' ∧
    ∀ i x, xs !! i = Some x →
      ∃ y w_i w_next,
        ys !! i = Some y ∧ worlds !! i = Some w_i ∧ worlds !! S i = Some w_next ∧
        f x w_i = (Ok y, w_next).
Proof.
  revert ys w w'. induction xs as [|x xs IH]; intros ys w w' Hrun.
  - injection Hrun as <- <-. exists [w]. by repeat split.
  - cbn [for_eachM] in Hrun.
    apply M_bind_inv in Hrun as (y & w1 & Hy & Hrun).
    apply M_bind_inv in Hrun as (ys' & w2 & Hys & Hrun).
    injection Hrun as <- <-.
    destruct (IH _ _ _ Hys) as (worlds & Hfirst & Hlast & Hsteps).
    exists (w :: worlds). split; [done|]. split; [done|].
    intros [|i] x' Hx'.
    + injection Hx' as <-. exists y, w, w1. by repeat split.
    + destruct (Hsteps i x' Hx') as (y' & w_i & w_next & ? & ? & ? & ?).
      exists y', w_i, w_next. by repeat split.
Qed.

Lemma np_transpose_rows (ncols : nat) (rows : list (list Qc)) :
  np_transpose ncols rows
    = (λ k, (λ row : list Qc, default 0%Qc (row !! k)) <$> rows) <$> seq 0 ncols.
Proof.
  revert rows. induction ncols as [|n IH]; intros rows; [done|].
  cbn [np_transpose seq fmap list_fmap]. f_equal.
  - apply list_fmap_ext. intros _ row _. by rewrite head_lookup.
  - rewrite IH, <- fmap_S_seq, <- list_fmap_compose.
    apply list_fmap_ext. intros _ k _. simpl.
    rewrite <- list_fmap_compose. apply list_fmap_ext. intros _ row _. simpl.
    by rewrite lookup_tail.
Qed.

(** C10 (as amended).  [bvec_rotation] pairs the rows of the gradient table
    with the transforms by position.  When either list is empty there is
    nothing to stack: [np.row_stack] raises ValueError and no file is
    written.  When neither is (rows of three components, the point-transform
    program doing its work), it raises no error whatever the two lengths
    are: with n = min(len(bvecs), len(transforms)), gradient i is rotated
    with transform i for i = 0, ..., n-1, one after the other, and nothing
    is done with the entries beyond n; the commands returned are those of
    the n rotations in order, and the bvec file has three rows of n columns,
    column i holding rotated gradient i with 8 decimals. *)
Theorem bvec_rotation_truncates (original_bvecs : list (list Qc))
    (transforms : list string) (output_file cwd : string) (w : world) :
  let n := length original_bvecs `min` length transforms in
  (original_bvecs = [] ∨ transforms = [] →
   bvec_rotation original_bvecs transforms output_file cwd w
     = (Raise (ValueError "need at least one array to concatenate"), w)) ∧
  (Forall (λ bvec, length bvec = 3) original_bvecs →
   Forall (points_tool_ok cwd) transforms →
   original_bvecs ≠ [] → transforms ≠ [] →
   ∃ (commands : list string) (rotated : list (list Qc)) (worlds : list world)
     (w_last : world),
     let table :=
       (λ k, (λ vec : list Qc, fmt_8f (default 0%Qc (vec !! k))) <$> rotated)
         <$> [0; 1; 2] in
     bvec_rotation original_bvecs transforms output_file cwd w
       = (Ok commands,
          World (<[output_file := Text table]> (files w_last)) (runs w_last)) ∧
     length commands = n ∧ length rotated = n ∧
     worlds !! 0 = Some w ∧ worlds !! n = Some w_last ∧
     (∀ i, i < n →
        ∃ bvec transform vec cmd w_i w_next,
          original_bvecs !! i = Some bvec ∧ transforms !! i = Some transform ∧
          worlds !! i = Some w_i ∧ worlds !! S i = Some w_next ∧
          aattp_rotate_vec bvec transform cwd w_i = (Ok (vec, cmd), w_next) ∧
          rotated !! i = Some vec ∧ commands !! i = Some cmd) ∧
     length table = 3 ∧ Forall (λ row, length row = n) table).
Proof.
  intros n. split.
  { intros Hempty. unfold bvec_rotation.
    assert (zip original_bvecs transforms = []) as ->.
    { destruct Hempty as [-> | ->]; [done|]. by destruct original_bvecs. }
    reflexivity. }
  intros Hvec Htool Hb Ht.
  destruct (for_eachM_Ok
      (λ '(bvec, transform), aattp_rotate_vec bvec transform cwd)
      (λ r : list Qc * string, length r.1 = 3)
      (zip original_bvecs transforms)) with (w := w)
    as (rotated & w1 & Hloop & Hlen & Hall).
  { intros [bvec transform] w0 Hin.
    destruct (aattp_rotate_vec_Ok bvec transform cwd w0) as (vec & cmd & w' & Hrun & Hv).
    - eapply (proj1 (Forall_forall _ _) Hvec), elem_of_zip_l, Hin.
    - eapply (proj1 (Forall_forall _ _) Htool), elem_of_zip_r, Hin.
    - exists (vec, cmd), w'. done. }
  rewrite length_zip in Hlen. fold n in Hlen.
  destruct (for_eachM_chain _ _ _ _ _ Hloop) as (worlds & Hfirst & Hlast & Hsteps).
  rewrite length_zip in Hlast. fold n in Hlast.
  assert (rotated.*1 ≠ []) as Hne.
  { destruct rotated; [|done]. destruct original_bvecs, transforms; simpl in *; done. }
  assert (Forall (λ v : list Qc, length v = 3) rotated.*1) as Hall3.
  { apply Forall_fmap. exact Hall. }
  assert (length (default [] (head rotated.*1)) = 3) as Hhead.
  { destruct rotated.*1 as [|v vs]; [done|]. by apply Forall_cons in Hall3 as [? _]. }
  exists (rotated.*2), (rotated.*1), worlds, w1. cbv zeta.
  split; [|split; [|split; [|split; [|split; [|split; [|split]]]]]].
  - unfold bvec_rotation. rewrite (M_bind_Ok _ _ _ _ _ Hloop).
    unfold mbind at 1, M_bind at 1, lift at 1.
    rewrite (np_row_stack_rows _ 3) by done.
    unfold mbind at 1, M_bind at 1, np_savetxt, write_file. cbn [mret M_ret].
    unfold np_T. rewrite Hhead, np_transpose_rows.
    do 4 f_equal. cbn [seq fmap list_fmap]. 
    by rewrite <- !list_fmap_compose.
  - by rewrite length_fmap.
  - by rewrite length_fmap.
  - done.
  - done.
  - intros i Hi.
    destruct (lookup_lt_is_Some_2 (zip original_bvecs transforms) i) as [[bvec transform] Hpair].
    { rewrite length_zip. done. }
    destruct (Hsteps i _ Hpair) as ([vec cmd] & w_i & w_next & Hy & Hwi & Hwn & Hrun).
    apply lookup_zip_with_Some in Hpair as (b & t & [= <- <-] & Hb' & Ht').
    exists bvec, transform, vec, cmd, w_i, w_next.
    rewrite !list_lookup_fmap, Hy. done.
  - done.
  - repeat constructor; by rewrite !length_fmap.
Qed.

End global_rotation.

(** C10 (as stated) fails when one list is empty: one gradient and no
    transform leave nothing to stack, and [np.row_stack] raises. *)
Lemma bvec_rotation_no_transform_raises :
  (@bvec_rotation bench [[1; 0; 0]]%Qc [] "/work/rotated.bvec" "/work" (World ∅ [])).1 =
    Raise (ValueError "need at least one array to concatenate").
Proof. reflexivity. Qed.

Lemma identity_points_tool_ok (transform : string) :
  transform ∈ ["/xfm/a.mat"; "/xfm/b.mat"] →
  @points_tool_ok
    (with_shell (identity_points_tool "/work" ["/xfm/a.mat"; "/xfm/b.mat"]) bench)
    "/work" transform.
Proof.
  intros Hin fs origin point Ho Hp Hfs.
  exists "x,y,z,t", origin, point. split; [|lia].
  cbn [shell with_shell]. unfold identity_points_tool.
  apply elem_of_cons in Hin as [->|Hin]; [|apply elem_of_cons in Hin as [->|Hin];
    [|by apply elem_of_nil in Hin]].
  - match goal with |- context [list_find ?P ?l] =>
      let r := eval vm_compute in (list_find P l) in
      change (list_find P l) with r end.
    cbv beta iota. rewrite Hfs. apply lookup_insert_eq.
  - match goal with |- context [list_find ?P ?l] =>
      let r := eval vm_compute in (list_find P l) in
      change (list_find P l) with r end.
    cbv beta iota. rewrite Hfs. apply lookup_insert_eq.
Qed.

(** Witness for C10: three gradients (the first a b0) and two transforms. *)
Lemma bvec_rotation_truncates_witness :
  let tools := with_shell (identity_points_tool "/work" ["/xfm/a.mat"; "/xfm/b.mat"]) bench in
  let original_bvecs := [[0; 0; 0]; [1; 0; 0]; [0; 1; 0]]%Qc in
  let transforms := ["/xfm/a.mat"; "/xfm/b.mat"] in
  ∃ (commands : list string) (rotated : list (list Qc)) (worlds : list world)
    (w_last : world),
    let table :=
      (λ k, (λ vec : list Qc, fmt_8f (default 0%Qc (vec !! k))) <$> rotated)
        <$> [0; 1; 2] in
    @bvec_rotation tools original_bvecs transforms "/work/rotated.bvec" "/work" (World ∅ [])
      = (Ok commands,
         World (<["/work/rotated.bvec" := Text table]> (files w_last)) (runs w_last)) ∧
    length commands = 2 ∧ length rotated = 2 ∧
    worlds !! 0 = Some (World ∅ []) ∧ worlds !! 2 = Some w_last ∧
    (∀ i, i < 2 →
       ∃ bvec transform vec cmd w_i w_next,
         original_bvecs !! i = Some bvec ∧ transforms !! i = Some transform ∧
         worlds !! i = Some w_i ∧ worlds !! S i = Some w_next ∧
         @aattp_rotate_vec tools bvec transform "/work" w_i = (Ok (vec, cmd), w_next) ∧
         rotated !! i = Some vec ∧ commands !! i = Some cmd) ∧
    length table = 3 ∧ Forall (λ row, length row = 2) table.
Proof.
  apply (proj2 (@bvec_rotation_truncates
           (with_shell (identity_points_tool "/work" ["/xfm/a.mat"; "/xfm/b.mat"]) bench)
           [[0; 0; 0]; [1; 0; 0]; [0; 1; 0]]%Qc ["/xfm/a.mat"; "/xfm/b.mat"]
           "/work/rotated.bvec" "/work" (World ∅ []))).
  - repeat constructor.
  - repeat constructor; apply identity_points_tool_ok; repeat constructor.
  - discriminate.
  - discriminate.
Defined.

(** The run of the witness: the third gradient is dropped, the b0 is left as
    it is, and (1,0,0) under the identity stays (1,0,0). *)
Example bvec_rotation_three_gradients_two_transforms :
  let run := @bvec_rotation
      (with_shell (identity_points_tool "/work" ["/xfm/a.mat"; "/xfm/b.mat"]) bench)
      [[0; 0; 0]; [1; 0; 0]; [0; 1; 0]]%Qc ["/xfm/a.mat"; "/xfm/b.mat"]
      "/work/rotated.bvec" "/work" (World ∅ []) in
  run.1 = Ok ["b0: No rotation";
              "antsApplyTransformsToPoints --dimensionality 3 --input /work/b_pre_rotation.csv --output /work/b_post_rotation.csv --transform [/xfm/b.mat, 1]"] ∧
  holds_table run.2 "/work/rotated.bvec" [[0; 1]; [0; 0]; [0; 0]]%Qc.
Proof. split; compute_done. Qed.

(** ** Concatenating the two series of a reversed-phase-encoding scan *)

Section concat_rpe.
Context `{Externals}.

Lemma OutputMultiObject_get_listed (value : list string) :
  2 ≤ length value → OutputMultiObject_get value = Listed value.
Proof. destruct value as [|a [|b value]]; simpl; [lia|lia|done]. Qed.

Lemma OutputMultiObject_get_bare (value : list string) :
  length value = 1 → ∃ path, value = [path] ∧ OutputMultiObject_get value = Bare path.
Proof. destruct value as [|a [|b value]]; simpl; [lia| |lia]. by exists a. Qed.

Lemma py_len_raises (x : multi_object) (e : exn) : py_len x = Raise e → e = TypeError.
Proof. destruct x; simpl; congruence. Qed.

Lemma py_add_raises (x y : multi_object) (e : exn) : py_add x y = Raise e → e = TypeError.
Proof. destruct x, y; simpl; congruence. Qed.

Lemma py_add_one_against_several (plus minus : list string) :
  one_against_several plus minus →
  py_add (OutputMultiObject_get plus) (OutputMultiObject_get minus) = Raise TypeError.
Proof.
  intros [[Hone Hmore]|[Hmore Hone]];
    apply OutputMultiObject_get_bare in Hone as (path & _ & ->);
    by rewrite (OutputMultiObject_get_listed _ Hmore).
Qed.

Lemma ConcatRPESplits_compose_affines_Ok reference_image affine_list output_file w :
  compose_affines_succeeds →
  ∃ composed w',
    ConcatRPESplits.compose_affines reference_image affine_list output_file w
      = (Ok composed, w') ∧ True.
Proof.
  intros Hok. unfold ConcatRPESplits.compose_affines.
  destruct (Hok reference_image affine_list output_file w) as (r & w' & ->).
  eauto.
Qed.

(** C6.  The claim fails where a series brings a single file: the inputs
    are read as [OutputMultiObject] traits, so a list of one file arrives as
    a bare name.  When, for the volumes, the b-values, the b-vectors or the
    b0 images, one series holds exactly one file and the other two or more,
    the name and the list cannot be concatenated: the step raises TypeError
    before anything is composed, instead of giving the unified lists. *)
Theorem ConcatRPESplits_single_file_raises (inputs : ConcatRPESplitsInputSpec.t)
    (cwd : string) (w : world) :
  one_against_several (ConcatRPESplitsInputSpec.dwi_plus inputs)
                      (ConcatRPESplitsInputSpec.dwi_minus inputs) ∨
  one_against_several (ConcatRPESplitsInputSpec.bval_plus inputs)
                      (ConcatRPESplitsInputSpec.bval_minus inputs) ∨
  one_against_several (ConcatRPESplitsInputSpec.bvec_plus inputs)
                      (ConcatRPESplitsInputSpec.bvec_minus inputs) ∨
  one_against_several (ConcatRPESplitsInputSpec.b0_images_plus inputs)
                      (ConcatRPESplitsInputSpec.b0_images_minus inputs) →
  ConcatRPESplits._run_interface inputs cwd w = (Raise TypeError, w).
Proof.
  intros Hmixed. unfold ConcatRPESplits._run_interface. cbv zeta.
  do 6 (unfold mbind at 1, M_bind at 1, lift at 1;
        match goal with
        | |- match ?r with _ => _ end = _ =>
            let E := fresh "E" in
            destruct r eqn:E;
            [|first [by rewrite (py_len_raises _ _ E) | by rewrite (py_add_raises _ _ _ E)]]
        end).
  destruct Hmixed as [Hm|[Hm|[Hm|Hm]]]; apply py_add_one_against_several in Hm; congruence.
Qed.

(** Where every list holds two or more files (and the affine composition
    does not raise), the step does what C6 describes: with P plus volumes
    and M minus volumes, the unified lists are the plus lists followed by the
    minus lists, P+M volumes in all; the unified b0 indices are those of the
    plus series followed by P + i for every minus index i; and the provenance
    tags are P times "plus", then M times "minus". *)
Theorem ConcatRPESplits_indexing (inputs : ConcatRPESplitsInputSpec.t) (cwd : string)
    (w : world) :
  compose_affines_succeeds →
  2 ≤ length (ConcatRPESplitsInputSpec.dwi_plus inputs) →
  2 ≤ length (ConcatRPESplitsInputSpec.dwi_minus inputs) →
  2 ≤ length (ConcatRPESplitsInputSpec.bval_plus inputs) →
  2 ≤ length (ConcatRPESplitsInputSpec.bval_minus inputs) →
  2 ≤ length (ConcatRPESplitsInputSpec.bvec_plus inputs) →
  2 ≤ length (ConcatRPESplitsInputSpec.bvec_minus inputs) →
  2 ≤ length (ConcatRPESplitsInputSpec.b0_images_plus inputs) →
  2 ≤ length (ConcatRPESplitsInputSpec.b0_images_minus inputs) →
  2 ≤ length (ConcatRPESplitsInputSpec.hmc_affines_plus inputs) →
  2 ≤ length (ConcatRPESplitsInputSpec.hmc_affines_minus inputs) →
  let P := length (ConcatRPESplitsInputSpec.dwi_plus inputs) in
  let M := length (ConcatRPESplitsInputSpec.dwi_minus inputs) in
  ∃ results w',
    ConcatRPESplits._run_interface inputs cwd w = (Ok results, w') ∧
    ConcatRPESplitsOutputSpec.dwi_files results =
      Listed (ConcatRPESplitsInputSpec.dwi_plus inputs
                ++ ConcatRPESplitsInputSpec.dwi_minus inputs) ∧
    length (ConcatRPESplitsInputSpec.dwi_plus inputs
              ++ ConcatRPESplitsInputSpec.dwi_minus inputs) = P + M ∧
    ConcatRPESplitsOutputSpec.bval_files results =
      Listed (ConcatRPESplitsInputSpec.bval_plus inputs
                ++ ConcatRPESplitsInputSpec.bval_minus inputs) ∧
    ConcatRPESplitsOutputSpec.bvec_files results =
      Listed (ConcatRPESplitsInputSpec.bvec_plus inputs
                ++ ConcatRPESplitsInputSpec.bvec_minus inputs) ∧
    ConcatRPESplitsOutputSpec.b0_images results =
      Listed (ConcatRPESplitsInputSpec.b0_images_plus inputs
                ++ ConcatRPESplitsInputSpec.b0_images_minus inputs) ∧
    ConcatRPESplitsOutputSpec.b0_indices results =
      ConcatRPESplitsInputSpec.b0_indices_plus inputs
        ++ ((λ i, Z.of_nat P + i)%Z <$> ConcatRPESplitsInputSpec.b0_indices_minus inputs) ∧
    ConcatRPESplitsOutputSpec.original_grouping results =
      replicate P "plus" ++ replicate M "minus".
Proof.
  intros Hok Hdp Hdm Hvp Hvm Hcp Hcm Hbp Hbm Hap Ham P M.
  unfold ConcatRPESplits._run_interface. cbv zeta.
  rewrite !OutputMultiObject_get_listed by done.
  cbn [py_len py_add py_iter].
  do 7 (unfold mbind at 1, M_bind at 1, lift at 1).
  match goal with |- context [for_eachM ?f ?items ≫= _] =>
    destruct (for_eachM_Ok f (λ _, True) items) with (w := w)
      as (combined_plus & w1 & Hplus & _)
  end.
  { intros [affine_num hmc_aff_plus] w0 _.
    by apply ConcatRPESplits_compose_affines_Ok. }
  rewrite (M_bind_Ok _ _ _ _ _ Hplus).
  unfold mbind at 1, M_bind at 1, lift at 1.
  match goal with |- context [for_eachM ?f ?items ≫= _] =>
    destruct (for_eachM_Ok f (λ _, True) items) with (w := w1)
      as (combined_minus & w2 & Hminus & _)
  end.
  { intros [affine_num hmc_aff_minus] w0 _.
    by apply ConcatRPESplits_compose_affines_Ok. }
  rewrite (M_bind_Ok _ _ _ _ _ Hminus).
  eexists _, w2. split; [reflexivity|].
  simpl. rewrite length_app. done.
Qed.

End concat_rpe.

(** The example behind C6: the series of the spec's example, but with a
    single b0 image in the plus series. *)
Lemma ConcatRPESplits_single_file_raises_witness :
  @ConcatRPESplits._run_interface (with_itk_compose_affines compose_to_file bench)
    one_plus_b0 "/work" (World ∅ []) = (Raise TypeError, World ∅ []).
Proof.
  apply (@ConcatRPESplits_single_file_raises
           (with_itk_compose_affines compose_to_file bench) one_plus_b0 "/work" (World ∅ [])).
  right. right. right. left. simpl. lia.
Defined.

(** With a single b0 image in each series the two names are concatenated as
    text: the step completes and reports one name that belongs to no file. *)
Example ConcatRPESplits_one_b0_image_each :
  let run := @ConcatRPESplits._run_interface
               (with_itk_compose_affines compose_to_file bench)
               one_b0_each "/work" (World ∅ []) in
  ∃ results, run.1 = Ok results ∧
    ConcatRPESplitsOutputSpec.b0_images results = Bare "p0.niim0.nii" ∧
    ConcatRPESplitsOutputSpec.b0_indices results = [0; 5]%Z.
Proof. eexists. split; [vm_compute; reflexivity|]. split; reflexivity. Qed.

(** The example of the spec, with an affine composition that writes its
    output. *)
Lemma ConcatRPESplits_indexing_witness :
  ∃ results w',
    @ConcatRPESplits._run_interface (with_itk_compose_affines compose_to_file bench)
      rpe_inputs "/work" (World ∅ []) = (Ok results, w') ∧
    ConcatRPESplitsOutputSpec.dwi_files results =
      Listed (ConcatRPESplitsInputSpec.dwi_plus rpe_inputs
                ++ ConcatRPESplitsInputSpec.dwi_minus rpe_inputs) ∧
    length (ConcatRPESplitsInputSpec.dwi_plus rpe_inputs
              ++ ConcatRPESplitsInputSpec.dwi_minus rpe_inputs) = 5 + 4 ∧
    ConcatRPESplitsOutputSpec.bval_files results =
      Listed (ConcatRPESplitsInputSpec.bval_plus rpe_inputs
                ++ ConcatRPESplitsInputSpec.bval_minus rpe_inputs) ∧
    ConcatRPESplitsOutputSpec.bvec_files results =
      Listed (ConcatRPESplitsInputSpec.bvec_plus rpe_inputs
                ++ ConcatRPESplitsInputSpec.bvec_minus rpe_inputs) ∧
    ConcatRPESplitsOutputSpec.b0_images results =
      Listed (ConcatRPESplitsInputSpec.b0_images_plus rpe_inputs
                ++ ConcatRPESplitsInputSpec.b0_images_minus rpe_inputs) ∧
    ConcatRPESplitsOutputSpec.b0_indices results =
      ConcatRPESplitsInputSpec.b0_indices_plus rpe_inputs
        ++ ((λ i, 5 + i)%Z <$> ConcatRPESplitsInputSpec.b0_indices_minus rpe_inputs) ∧
    ConcatRPESplitsOutputSpec.original_grouping results =
      replicate 5 "plus" ++ replicate 4 "minus".
Proof.
  apply (@ConcatRPESplits_indexing (with_itk_compose_affines compose_to_file bench)
           rpe_inputs "/work" (World ∅ [])); [|simpl; lia..].
  intros reference_image affine_list output_file w.
  eexists _, _. reflexivity.
Defined.

(** Spec section 8, property 7: nine volumes, b0 indices 0, 2, 5 and 6, five
    "plus" tags followed by four "minus" tags. *)
Example ConcatRPESplits_five_plus_four_minus :
  let run := @ConcatRPESplits._run_interface
               (with_itk_compose_affines compose_to_file bench)
               rpe_inputs "/work" (World ∅ []) in
  ∃ results, run.1 = Ok results ∧
    ConcatRPESplitsOutputSpec.dwi_files results =
      Listed ["p0.nii"; "p1.nii"; "p2.nii"; "p3.nii"; "p4.nii";
              "m0.nii"; "m1.nii"; "m2.nii"; "m3.nii"] ∧
    ConcatRPESplitsOutputSpec.b0_indices results = [0; 2; 5; 6]%Z ∧
    ConcatRPESplitsOutputSpec.original_grouping results =
      ["plus"; "plus"; "plus"; "plus"; "plus"; "minus"; "minus"; "minus"; "minus"] ∧
    ConcatRPESplitsOutputSpec.to_dwi_ref_affines results =
      ["/work/combined_hmc_affine_plus_000.mat"; "/work/combined_hmc_affine_plus_001.mat";
       "/work/combined_hmc_affine_plus_002.mat"; "/work/combined_hmc_affine_plus_003.mat";
       "/work/combined_hmc_affine_plus_004.mat"; "/work/combined_hmc_affine_minus_000.mat";
       "/work/combined_hmc_affine_minus_001.mat"; "/work/combined_hmc_affine_minus_002.mat";
       "/work/combined_hmc_affine_minus_003.mat"].
Proof. eexists. split; [vm_compute; reflexivity|]. repeat split. Qed.

(** ** Composing the transforms of every volume *)

Section compose_transforms.
Context `{Externals}.
Import ComposeTransformsInputSpec.

Lemma for_each_length {A B} (f : A → result B) xs ys :
  for_each f xs = Ok ys → length ys = length xs.
Proof.
  revert ys. induction xs as [|x xs IH]; intros ys; simpl.
  - by intros [= <-].
  - destruct (f x); [|done]. destruct (for_each f xs) as [ys'|]; [|done].
    intros [= <-]. simpl. by rewrite (IH ys').
Qed.

Lemma match_transforms_length dwi_files transforms b0_indices nearest :
  match_transforms dwi_files transforms b0_indices = Ok nearest →
  length nearest = length dwi_files.
Proof.
  unfold match_transforms. repeat case_decide; try done.
  - by intros [= <-].
  - intros Hn%for_each_length. by rewrite length_seq in Hn.
Qed.

(** The chains of [xfms_list] when every stage has one entry per volume. *)
Lemma chains_Ok (stages : list (list string)) (N : nat) :
  Forall (λ stage, length stage = N) stages →
  ∃ chains,
    for_each (λ image_num, for_each (λ xfm, getitem xfm image_num) stages) (seq 0 N)
      = Ok chains ∧
    length chains = N ∧ Forall (λ chain, length chain = length stages) chains.
Proof.
  intros Hstages.
  destruct (for_each_Ok
      (λ image_num, for_each (λ xfm : list string, getitem xfm image_num) stages)
      (λ _ chain, length chain = length stages) (seq 0 N)) as (chains & Hc & HF).
  - intros image_num Hin%elem_of_seq.
    destruct (for_each_Ok (λ xfm : list string, getitem xfm image_num) (λ _ _, True) stages)
      as (chain & Hchain & _).
    + intros xfm Hxfm. pose proof (proj1 (Forall_forall _ _) Hstages _ Hxfm) as Hl.
      simpl in Hl. destruct (lookup_lt_is_Some_2 xfm image_num) as [t Ht]; [lia|].
      exists t. unfold getitem. by rewrite Ht.
    + exists chain. split; [done|]. by apply for_each_length in Hchain.
  - exists chains. split; [done|]. split.
    + apply Forall2_length in HF. by rewrite length_seq in HF.
    + clear Hc. induction HF; constructor; done.
Qed.

(** C3 (as amended).  When the distortion-correction list has a length that
    is neither 1 nor the number of volumes, the step raises no error on its
    account: the list is left out of the stages and the step behaves as if
    no warp had been given.  With the transform matching succeeding and no
    template transform (or one with its two parts), the length assertion
    holds, the stages are head motion, dwi-to-anatomical (and the two
    template parts), and one chain per volume is handed to resampling. *)
Theorem ComposeTransforms_drops_mismatched_fieldwarps
    (inputs : ComposeTransformsInputSpec.t) (sdc_unwarp : list string)
    (cwd : string) (w : world) :
  fieldwarps inputs = Some sdc_unwarp →
  length sdc_unwarp ≠ length (dwi_files inputs) →
  length sdc_unwarp ≠ 1 →
  let N := length (dwi_files inputs) in
  let b0_to_t1 := replicate N (unwarped_dwi_ref_to_t1w_affine inputs) in
  ComposeTransforms._run_interface inputs cwd w
    = ComposeTransforms._run_interface (without_fieldwarps inputs) cwd w ∧
  ∀ dwi_hmc_affines,
    match_transforms (dwi_files inputs) (hmc_to_ref_affines inputs)
                     (original_b0_indices inputs) = Ok dwi_hmc_affines →
    (t1_2_mni_forward_transform inputs = None →
       ComposeTransforms.image_transforms inputs = Ok [dwi_hmc_affines; b0_to_t1] ∧
       ∃ chains, ComposeTransforms.xfms_list inputs = Ok chains ∧
                 length chains = N ∧ Forall (λ chain, length chain = 2) chains) ∧
    (∀ mni_affine mni_warp,
       t1_2_mni_forward_transform inputs = Some [mni_affine; mni_warp] →
       ComposeTransforms.image_transforms inputs =
         Ok [dwi_hmc_affines; b0_to_t1; replicate N mni_affine; replicate N mni_warp] ∧
       ∃ chains, ComposeTransforms.xfms_list inputs = Ok chains ∧
                 length chains = N ∧ Forall (λ chain, length chain = 4) chains).
Proof.
  intros Hfw HN H1 N b0_to_t1.
  assert (ComposeTransforms.image_transforms inputs
          = ComposeTransforms.image_transforms (without_fieldwarps inputs)) as Hsame.
  { unfold ComposeTransforms.image_transforms. rewrite Hfw.
    cbn [without_fieldwarps dwi_files hmc_to_ref_affines original_b0_indices
         fieldwarps unwarped_dwi_ref_to_t1w_affine t1_2_mni_forward_transform].
    destruct (match_transforms _ _ _) as [dwi_hmc_affines|e]; [|done].
    cbn [mbind result_bind]. rewrite !decide_False by done. reflexivity. }
  split.
  - unfold ComposeTransforms._run_interface, ComposeTransforms.xfms_list.
    rewrite Hsame. reflexivity.
  - intros dwi_hmc_affines Hmt.
    pose proof (match_transforms_length _ _ _ _ Hmt) as Hlen. fold N in Hlen.
    split.
    + intros Hmni.
      assert (ComposeTransforms.image_transforms inputs = Ok [dwi_hmc_affines; b0_to_t1])
        as Himg.
      { unfold ComposeTransforms.image_transforms. rewrite Hmt, Hfw, Hmni.
        cbn [mbind result_bind]. rewrite !decide_False by done.
        cbn [app forallb head default]. fold N b0_to_t1.
        unfold b0_to_t1. rewrite length_replicate, Hlen.
        rewrite !bool_decide_eq_true_2 by done. reflexivity. }
      split; [exact Himg|].
      unfold ComposeTransforms.xfms_list. rewrite Himg. cbn [mbind result_bind].
      destruct (chains_Ok (rev [dwi_hmc_affines; b0_to_t1]) N) as (chains & Hc & Hl & Hall).
      { repeat constructor; [apply length_replicate|done]. }
      exists chains. done.
    + intros mni_affine mni_warp Hmni.
      assert (ComposeTransforms.image_transforms inputs =
                Ok [dwi_hmc_affines; b0_to_t1; replicate N mni_affine; replicate N mni_warp])
        as Himg.
      { unfold ComposeTransforms.image_transforms. rewrite Hmt, Hfw, Hmni.
        cbn [mbind result_bind].
        rewrite (decide_True (P := length [mni_affine; mni_warp] = 2)) by done.
        rewrite (decide_False (P := length sdc_unwarp = length (dwi_files inputs))) by done.
        rewrite (decide_False (P := length sdc_unwarp = 1)) by done.
        cbn [getitem lookup list_lookup mbind result_bind app forallb head default].
        fold N b0_to_t1. unfold b0_to_t1. rewrite !length_replicate, Hlen.
        rewrite !bool_decide_eq_true_2 by done. reflexivity. }
      split; [exact Himg|].
      unfold ComposeTransforms.xfms_list. rewrite Himg. cbn [mbind result_bind].
      destruct (chains_Ok
        (rev [dwi_hmc_affines; b0_to_t1; replicate N mni_affine; replicate N mni_warp]) N)
        as (chains & Hc & Hl & Hall).
      { repeat constructor; try apply length_replicate; done. }
      exists chains. done.
Qed.

End compose_transforms.

(** Witness for C3: two warps for three volumes. *)
Lemma ComposeTransforms_drops_mismatched_fieldwarps_witness :
  @ComposeTransforms._run_interface ants_installed two_warps_three_volumes "/work"
      three_volumes_world
    = @ComposeTransforms._run_interface ants_installed
        (without_fieldwarps two_warps_three_volumes) "/work" three_volumes_world ∧
  ∀ dwi_hmc_affines,
    match_transforms
      (ComposeTransformsInputSpec.dwi_files two_warps_three_volumes)
      (ComposeTransformsInputSpec.hmc_to_ref_affines two_warps_three_volumes)
      (ComposeTransformsInputSpec.original_b0_indices two_warps_three_volumes)
      = Ok dwi_hmc_affines →
    (ComposeTransformsInputSpec.t1_2_mni_forward_transform two_warps_three_volumes = None →
       ComposeTransforms.image_transforms two_warps_three_volumes =
         Ok [dwi_hmc_affines; replicate 3 "/work/b0_to_t1.mat"] ∧
       ∃ chains, ComposeTransforms.xfms_list two_warps_three_volumes = Ok chains ∧
                 length chains = 3 ∧ Forall (λ chain, length chain = 2) chains) ∧
    (∀ mni_affine mni_warp,
       ComposeTransformsInputSpec.t1_2_mni_forward_transform two_warps_three_volumes
         = Some [mni_affine; mni_warp] →
       ComposeTransforms.image_transforms two_warps_three_volumes =
         Ok [dwi_hmc_affines; replicate 3 "/work/b0_to_t1.mat";
             replicate 3 mni_affine; replicate 3 mni_warp] ∧
       ∃ chains, ComposeTransforms.xfms_list two_warps_three_volumes = Ok chains ∧
                 length chains = 3 ∧ Forall (λ chain, length chain = 4) chains).
Proof.
  apply (@ComposeTransforms_drops_mismatched_fieldwarps ants_installed
           two_warps_three_volumes ["/work/warp_a.nii.gz"; "/work/warp_b.nii.gz"]
           "/work" three_volumes_world).
  - reflexivity.
  - simpl. lia.
  - simpl. lia.
Defined.

(** C3 (as stated) fails: with two warps for three volumes the step does not
    raise; it resamples every volume through a chain without any warp. *)
Lemma ComposeTransforms_two_warps_three_volumes_runs :
  (@ComposeTransforms._run_interface ants_installed two_warps_three_volumes "/work"
     three_volumes_world).1 =
  Ok {| ComposeTransformsOutputSpec.out_warps :=
          ["/work/dwi_0000_xform-00000.nii.gz"; "/work/dwi_0001_xform-00001.nii.gz";
           "/work/dwi_0002_xform-00002.nii.gz"];
        ComposeTransformsOutputSpec.out_affines :=
          ["/work/dwi_0000_affine_xform-00000.mat"; "/work/dwi_0001_affine_xform-00001.mat";
           "/work/dwi_0002_affine_xform-00002.mat"];
        ComposeTransformsOutputSpec.transform_lists :=
          [["/work/b0_to_t1.mat"; "/work/hmc_b0_0.mat"];
           ["/work/b0_to_t1.mat"; "/work/hmc_b0_0.mat"];
           ["/work/b0_to_t1.mat"; "/work/hmc_b0_0.mat"]];
        ComposeTransformsOutputSpec.log_cmdline := None |}.
Proof. vm_compute. reflexivity. Qed.

(** ** Merging the images of one modality *)

Section intra_modal_merge.
Context `{Externals}.

Lemma reorient_name in_file newpath w out w1 :
  reorient in_file newpath w = (Ok out, w1) →
  out = fname_presuffix in_file EmptyString "_lps" newpath true.
Proof.
  unfold reorient. intros Hrun.
  apply M_bind_inv in Hrun as (img & w2 & _ & Hrun).
  apply M_bind_inv in Hrun as (lps & w3 & _ & Hrun).
  apply M_bind_inv in Hrun as ([] & w4 & _ & Hrun).
  by injection Hrun as <- _.
Qed.

Lemma reorient_names in_files newpath w reoriented w1 :
  for_eachM (λ inf, reorient inf newpath) in_files w = (Ok reoriented, w1) →
  reoriented = (λ inf, fname_presuffix inf EmptyString "_lps" newpath true) <$> in_files.
Proof.
  revert w w1 reoriented.
  induction in_files as [|inf in_files IH]; intros w w1 reoriented Hrun.
  - by injection Hrun as <- _.
  - simpl in Hrun.
    apply M_bind_inv in Hrun as (out & w2 & Hout & Hrun).
    apply M_bind_inv in Hrun as (outs & w3 & Houts & Hrun).
    injection Hrun as <- _. simpl. f_equal; [by eapply reorient_name|by eapply IH].
Qed.

(** C9 on the code.  With the reorientation requested and two or more input
    files, once every input has been reoriented (the new files carry the
    suffix [_lps] in the working directory), the rest of the step is the
    merge of the files named in the inputs, that is the original files and
    not the reoriented ones, followed by motion correction of the merged
    series. *)
Theorem IntraModalMerge_merge_ignores_reoriented_files
    (inputs : IntraModalMergeInputSpec.t) (cwd : string) (w w1 : world)
    (reoriented : list string) :
  IntraModalMergeInputSpec.to_lps inputs = true →
  2 ≤ length (IntraModalMergeInputSpec.in_files inputs) →
  for_eachM (λ inf, reorient inf (Some cwd)) (IntraModalMergeInputSpec.in_files inputs) w
    = (Ok reoriented, w1) →
  reoriented = (λ inf, fname_presuffix inf EmptyString "_lps" (Some cwd) true)
                 <$> IntraModalMergeInputSpec.in_files inputs ∧
  ∃ first,
    IntraModalMergeInputSpec.in_files inputs !! 0 = Some first ∧
    IntraModalMerge._run_interface inputs cwd w =
      (magmrg ← run_interface (fsl_Merge "t" (IntraModalMergeInputSpec.in_files inputs));
       IntraModalMerge.motion_correct inputs
         (fname_presuffix first EmptyString "_avg" (Some cwd) true) (out_file magmrg)) w1.
Proof.
  intros Hlps Hlen Hloop. pose proof (reorient_names _ _ _ _ _ Hloop) as Hnames.
  split; [done|].
  destruct (IntraModalMergeInputSpec.in_files inputs) as [|first [|second rest]] eqn:Hfiles;
    simpl in Hlen; try lia.
  exists first. split; [done|].
  unfold IntraModalMerge._run_interface. rewrite Hfiles, Hlps.
  change (getitem (first :: second :: rest) 0) with (Ok first).
  unfold lift at 1. unfold mbind at 1, M_bind at 1.
  rewrite (M_bind_Ok _ _ _ _ _ Hloop). rewrite Hnames. reflexivity.
Qed.

End intra_modal_merge.

(** Witness for C9: two images stored in (R,A,S) orientation. *)
Lemma IntraModalMerge_merge_ignores_reoriented_files_witness :
  let tools := with_nipype (fsl "/work") bench in
  let loop := @for_eachM _ _ (λ inf, @reorient tools inf (Some "/work"))
                ["/data/mag1.nii.gz"; "/data/mag2.nii.gz"] two_magnitudes_world in
  ["/work/mag1_lps.nii.gz"; "/work/mag2_lps.nii.gz"]
    = (λ inf, fname_presuffix inf EmptyString "_lps" (Some "/work") true)
        <$> IntraModalMergeInputSpec.in_files two_magnitudes ∧
  ∃ first,
    IntraModalMergeInputSpec.in_files two_magnitudes !! 0 = Some first ∧
    @IntraModalMerge._run_interface tools two_magnitudes "/work" two_magnitudes_world =
      (magmrg ← @run_interface tools
                  (fsl_Merge "t" (IntraModalMergeInputSpec.in_files two_magnitudes));
       @IntraModalMerge.motion_correct tools two_magnitudes
         (fname_presuffix first EmptyString "_avg" (Some "/work") true)
         (out_file magmrg)) loop.2.
Proof.
  apply (@IntraModalMerge_merge_ignores_reoriented_files
           (with_nipype (fsl "/work") bench) two_magnitudes "/work" two_magnitudes_world).
  - reflexivity.
  - simpl. lia.
  - vm_compute. reflexivity.
Defined.

(** Example: two images stored in (R,A,S) orientation, with the
    reorientation requested: both are reoriented and written to the
    working directory, but the merge program is started on the two original
    files, and the series handed to motion correction is still in (R,A,S)
    orientation. *)
Lemma IntraModalMerge_merges_original_files :
  let run := @IntraModalMerge._run_interface (with_nipype (fsl "/work") bench)
               two_magnitudes "/work" two_magnitudes_world in
  runs run.2 = [fsl_Merge "t" ["/data/mag1.nii.gz"; "/data/mag2.nii.gz"];
                fsl_MCFLIRT "normcorr" 0 "/work/mag1_merged.nii.gz"] ∧
  (∃ lps1 lps2 merged,
     files run.2 !! "/work/mag1_lps.nii.gz" = Some (Nifti lps1) ∧
     files run.2 !! "/work/mag2_lps.nii.gz" = Some (Nifti lps2) ∧
     files run.2 !! "/work/mag1_merged.nii.gz" = Some (Nifti merged) ∧
     @aff2axcodes bench (affine lps1) = Ok ["L"; "P"; "S"] ∧
     @aff2axcodes bench (affine lps2) = Ok ["L"; "P"; "S"] ∧
     @aff2axcodes bench (affine merged) = Ok ["R"; "A"; "S"]).
Proof.
  split; [vm_compute; reflexivity|].
  eexists _, _, _. repeat split; vm_compute; reflexivity.
Qed.

(** ** Conforming an anatomical image *)

(** C4 at a failing input.  An image already stored in (L,P,S) orientation
    that needs neither rescaling nor resizing: the target affine is the
    original affine A, but the transform the step derives is the flip of the
    first two axes, so A . T differs from A and the assertion before the
    transform is written fails. *)
Lemma Conform_lps_input_fails_assertion :
  @Conform._run_interface bench conform_as_is "/work" (t1w_world lps_affine)
    = (Raise AssertionError, t1w_world lps_affine) ∧
  inv_ornt_aff (@io_orientation bench lps_affine) [2; 2; 2]
    = [[-1; 0; 0; 1]; [0; -1; 0; 1]; [0; 0; 1; 0]; [0; 0; 0; 1]]%Qc.
Proof. split; compute_done. Qed.

(** The same image stored in (R,A,S) orientation passes the assertion: the
    transform written is the flip that [to_lps] applied. *)
Example Conform_ras_input_passes :
  let run := @Conform._run_interface bench conform_as_is "/work" (t1w_world identity_affine) in
  run.1 = Ok {| ConformOutputSpec.out_file := "/work/sub-01_T1w_lps.nii.gz";
                ConformOutputSpec.transform := "/work/sub-01_T1w.mat" |} ∧
  holds_table run.2 "/work/sub-01_T1w.mat"
    [[-1; 0; 0; 1]; [0; -1; 0; 1]; [0; 0; 1; 0]; [0; 0; 0; 1]]%Qc.
Proof. split; compute_done. Qed.

Section conform.
Context `{Externals}.

Lemma to_lps_same (img r : nifti) :
  aff2axcodes (affine img) = Ok ["L"; "P"; "S"] → to_lps img = Ok r → r = img.
Proof.
  unfold to_lps. intros ->. cbn [mbind result_bind].
  rewrite decide_False by (by intros []). by intros [= <-].
Qed.

(** Whenever [Conform] completes, the transform T it has written (with 8
    decimals) passed the assertion: for the affine A of the input image and
    the affine A' of the conformed image, A . T is close to A', whether the
    image was rescaled, resized, both or neither. *)
Theorem Conform_written_transform_passed_assertion (inputs : ConformInputSpec.t)
    (cwd : string) (w w' : world) (out : ConformOutputSpec.t) :
  Conform._run_interface inputs cwd w = (Ok out, w') →
  ∃ orig_img transform target_affine,
    files w !! ConformInputSpec.in_file inputs = Some (Nifti orig_img) ∧
    np_allclose (Q2Qc (1 # 100000000)) (mat_dot (affine orig_img) transform) target_affine
      = true ∧
    ConformOutputSpec.transform out
      = fname_presuffix (ConformInputSpec.in_file inputs) EmptyString ".mat" (Some cwd) false ∧
    holds_table w' (ConformOutputSpec.transform out)
      (fmap (M:=list) (fmap (M:=list) fmt_8f) transform) ∧
    (ConformOutputSpec.out_file out ≠ ConformOutputSpec.transform out →
     ∃ conformed,
       files w' !! ConformOutputSpec.out_file out = Some (Nifti conformed) ∧
       affine conformed = target_affine).
Proof.
  unfold Conform._run_interface. intros Hrun.
  apply M_bind_inv in Hrun as (orig_img & w1 & Hload & Hrun).
  apply nb_load_Ok in Hload as [-> Horig].
  apply M_bind_inv in Hrun as (orig_axcodes & w1 & [Hcodes ->]%lift_Ok & Hrun).
  apply M_bind_inv in Hrun as (reoriented & w1 & [Hlps ->]%lift_Ok & Hrun).
  apply M_bind_inv in Hrun as (atol & w1 & [Hatol ->]%lift_Ok & Hrun).
  apply M_bind_inv in Hrun
    as ([[[conformed is_orig] target_affine] conform_xfm] & w1 & Hchoice & Hrun).
  apply M_bind_inv in Hrun as (out_name & w2 & Hout & Hrun).
  match type of Hrun with
  | (if np_allclose ?atol (mat_dot ?A ?T) ?A' then _ else _) _ = _ =>
      destruct (np_allclose atol (mat_dot A T) A') eqn:Hclose; [|done];
      exists orig_img, T, A'
  end.
  apply M_bind_inv in Hrun as ([] & w3 & Hsave & Hrun).
  injection Hrun as <- <-. injection Hsave as <-. simpl.
  split; [done|]. split; [done|]. split; [done|].
  split. { unfold holds_table; simpl. by rewrite lookup_insert_eq. }
  intros Hne. rewrite lookup_insert_ne by done.
  assert (affine conformed = target_affine ∧ w1 = w ∧
          (is_orig = true → conformed = orig_img)) as (Haff & -> & Hsame).
  { match type of Hchoice with (if ?c then _ else _) _ = _ => destruct c end.
    - injection Hchoice as <- <- <- <- <-. done.
    - injection Hchoice as <- <- <- <- <-. split; [done|]. split; [done|].
      intros Hcase%bool_decide_eq_true. subst orig_axcodes. by eapply to_lps_same. }
  destruct is_orig.
  - injection Hout as <- <-. exists orig_img. rewrite Hsame in Haff by done. done.
  - apply M_bind_inv in Hout as ([] & w4 & Hwrite & Hout).
    injection Hout as <- <-. injection Hwrite as <-. simpl.
    exists conformed. by rewrite lookup_insert_eq.
Qed.

End conform.

(** The (R,A,S) image of the example above. *)
Lemma Conform_written_transform_passed_assertion_witness :
  let run := @Conform._run_interface bench conform_as_is "/work" (t1w_world identity_affine) in
  ∃ orig_img transform target_affine,
    files (t1w_world identity_affine) !! ConformInputSpec.in_file conform_as_is
      = Some (Nifti orig_img) ∧
    np_allclose (Q2Qc (1 # 100000000)) (mat_dot (affine orig_img) transform) target_affine
      = true ∧
    "/work/sub-01_T1w.mat"
      = fname_presuffix (ConformInputSpec.in_file conform_as_is) EmptyString ".mat"
          (Some "/work") false ∧
    holds_table run.2 "/work/sub-01_T1w.mat"
      (fmap (M:=list) (fmap (M:=list) fmt_8f) transform) ∧
    ("/work/sub-01_T1w_lps.nii.gz" ≠ "/work/sub-01_T1w.mat" →
     ∃ conformed,
       files run.2 !! "/work/sub-01_T1w_lps.nii.gz" = Some (Nifti conformed) ∧
       affine conformed = target_affine).
Proof.
  apply (@Conform_written_transform_passed_assertion bench conform_as_is "/work"
           (t1w_world identity_affine)
           (@Conform._run_interface bench conform_as_is "/work" (t1w_world identity_affine)).2
           {| ConformOutputSpec.out_file := "/work/sub-01_T1w_lps.nii.gz";
              ConformOutputSpec.transform := "/work/sub-01_T1w.mat" |}).
  vm_compute. reflexivity.
Defined.

(** ** Local rotation of the gradients *)

Section local_rotation_props.
Context `{Externals}.

Lemma get_data_of_names (rotated_vec_files : list string) :
  rotated_vec_files ≠ [] →
  for_each (λ img : string, py_get_data (PyStr img)) rotated_vec_files
    = Raise (AttributeError "'str' object has no attribute 'get_data'").
Proof. destruct rotated_vec_files; [done|reflexivity]. Qed.

(** C8 on the code.  [local_bvec_rotation] never returns: when the mask
    loads and the loop over the volumes completes, the list handed to
    [np.stack] is built from file names, on which [get_data] does not exist
    (or it is empty and [np.stack] refuses it).  With at least one volume the
    exception is AttributeError and the world is the one the loop left: the
    output file is not written and the per-volume files are not removed. *)
Theorem local_bvec_rotation_never_returns (original_bvecs : list (list Qc))
    (warp_transforms : list string) (mask_image cwd output_fname : string) (w : world) :
  (∃ e w', local_bvec_rotation original_bvecs warp_transforms mask_image cwd output_fname w
             = (Raise e, w')) ∧
  ∀ mask_img rotated w1,
    nb_load mask_image w = (Ok mask_img, w) →
    for_eachM (rotate_volume mask_img
                 (get_vector_nii ((λ _, [0; 0; 0]%Qc) <$> get_data mask_img)
                                 (affine mask_img) mask_img)
                 (os_path_join cwd "local_bvec_"))
              (zip (seq 0 (length original_bvecs)) (zip original_bvecs warp_transforms)) w
      = (Ok rotated, w1) →
    rotated ≠ [] →
    local_bvec_rotation original_bvecs warp_transforms mask_image cwd output_fname w
      = (Raise (AttributeError "'str' object has no attribute 'get_data'"), w1).
Proof.
  split.
  - unfold local_bvec_rotation. unfold mbind at 1, M_bind at 1.
    destruct (nb_load mask_image w) as [[mask_img|e] w0]; [|eauto].
    unfold mbind at 1, M_bind at 1.
    destruct (for_eachM _ _ w0) as [[rotated|e] w1]; [|eauto].
    unfold mbind at 1, M_bind at 1, lift at 1.
    destruct rotated as [|r rotated]; [|eauto].
    cbn [fmap list_fmap for_each]. unfold mbind at 1, M_bind at 1, lift at 1.
    cbn [np_stack_last]. eauto.
  - intros mask_img rotated w1 Hload Hloop Hne.
    unfold local_bvec_rotation. rewrite (M_bind_Ok _ _ _ _ _ Hload).
    rewrite (M_bind_Ok _ _ _ _ _ Hloop).
    unfold mbind at 1, M_bind at 1, lift at 1.
    rewrite get_data_of_names; [done|]. by destruct rotated.
Qed.

End local_rotation_props.

(** C8 at a failing input: one b0 volume.  The per-volume file is written,
    then the assembly raises; the output file does not exist and the
    per-volume file is still there. *)
Lemma local_bvec_rotation_one_b0_volume :
  let run := @local_bvec_rotation bench [[0; 0; 0]]%Qc ["/xfm/warp_0.nii.gz"]
               "/data/mask.nii.gz" "/work" "/work/rotated_local_bvecs.nii.gz" mask_world in
  run.1 = Raise (AttributeError "'str' object has no attribute 'get_data'") ∧
  files run.2 !! "/work/rotated_local_bvecs.nii.gz" = None ∧
  files run.2 !! "/work/local_bvec_000_rotated.nii.gz" =
    Some (Nifti (Nifti1Image [[0; 0; 0]; [0; 0; 0]]%Qc [2; 1; 1; 1; 3] lps_affine
                             [1; 1; 1]%Qc "mm" "<f4" "vector")).
Proof. repeat split; compute_done. Qed.

Section principal_direction.
Context `{Externals}.



Lemma for_each_fmap_Ok {A B} (f : A → result B) (g : A → B) xs :
  Forall (λ x, f x = Ok (g x)) xs → for_each f xs = Ok (g <$> xs).
Proof.
  induction 1 as [|x xs Hx _ IH]; [done|]. simpl. by rewrite Hx, IH.
Qed.




End principal_direction.



(* ====================================================================== *)
(** * Further properties of the interfaces *)
(* ====================================================================== *)

(** ** Matching transforms to volumes *)

Section match_more.

Lemma for_each_elem {A B} (f : A → result B) (P : B → Prop) xs ys :
  for_each f xs = Ok ys → (∀ x y, x ∈ xs → f x = Ok y → P y) → Forall P ys.
Proof.
  revert ys. induction xs as [|x xs IH]; intros ys Hrun Hf.
  - injection Hrun as <-. constructor.
  - simpl in Hrun. destruct (f x) as [y|e] eqn:Hy; [|done].
    cbn [mbind result_bind] in Hrun.
    destruct (for_each f xs) as [ys'|e] eqn:Hys; [|done].
    injection Hrun as <-. constructor.
    + eapply Hf; [left|done].
    + apply IH; [done|]. intros x' y' Hin. apply Hf. by right.
Qed.

(** [MatchTransforms] touches no file and runs no program; when it returns,
    it returns one transform per volume, each taken from the transforms it
    was given. *)
Theorem MatchTransforms_output_drawn_from_inputs (inputs : MatchTransformsInputSpec.t)
    (w w' : world) (out : list string) :
  MatchTransforms._run_interface inputs w = (Ok out, w') →
  w' = w ∧
  length out = length (MatchTransformsInputSpec.dwi_files inputs) ∧
  Forall (λ t, t ∈ MatchTransformsInputSpec.transforms inputs) out.
Proof.
  unfold MatchTransforms._run_interface. intros [Hrun ->]%lift_Ok.
  split; [done|]. unfold match_transforms in Hrun.
  case_decide as Hn.
  - injection Hrun as <-. split; [done|]. by apply Forall_forall.
  - case_decide as Hm; [|done]. split.
    + apply for_each_length in Hrun. by rewrite length_seq in Hrun.
    + eapply for_each_elem; [exact Hrun|]. intros index t _ Ht. simpl in Ht.
      destruct (np_argmin _) as [k|e]; [|done]. cbn [mbind result_bind] in Ht.
      unfold getitem in Ht.
      destruct (MatchTransformsInputSpec.transforms inputs !! k) as [t'|] eqn:Hk; [|done].
      injection Ht as <-. by eapply list_elem_of_lookup_2.
Qed.

(** When the b0 indices are pairwise distinct, a volume that is itself a b0
    is bound to the transform of that b0. *)
Theorem match_transforms_b0_volume_keeps_its_transform
    (dwi_files transforms : list string) (b0_indices : list Z) (k i : nat) (t : string) :
  length dwi_files ≠ length transforms →
  length transforms = length b0_indices →
  NoDup b0_indices →
  b0_indices !! k = Some (Z.of_nat i) →
  transforms !! k = Some t →
  i < length dwi_files →
  ∃ nearest_affines,
    match_transforms dwi_files transforms b0_indices = Ok nearest_affines ∧
    nearest_affines !! i = Some t.
Proof.
  intros Hne Hlen Hnd Hk Ht Hi. unfold match_transforms.
  rewrite decide_False, decide_True by done.
  destruct (for_each_Ok
    (λ index, nearest_b0_num ← np_argmin (b0_distances index b0_indices);
              getitem transforms nearest_b0_num)
    (λ index t, ∃ k, nearest_b0 b0_indices index k ∧ transforms !! k = Some t)
    (seq 0 (length dwi_files))) as (res & Hres & HF).
  { intros index _. apply nearest_transform_Ok; [done|]. by destruct transforms. }
  exists res. split; [done|].
  pose proof (Forall2_length _ _ _ HF) as Hl. rewrite length_seq in Hl.
  destruct (lookup_lt_is_Some_2 res i) as [t' Ht']; [lia|].
  destruct (Forall2_lookup_lr _ _ _ i i t' HF) as (k' & (bk & Hbk & Hmin & _) & Hkt);
    [by apply lookup_seq_lt|done|].
  specialize (Hmin _ _ Hk).
  assert (bk = Z.of_nat i) as -> by lia.
  assert (k' = k) as -> by (by eapply NoDup_lookup).
  by rewrite Ht', <- Hkt, Ht.
Qed.

End match_more.

Lemma MatchTransforms_output_drawn_from_inputs_witness :
  let inputs := three_volumes_two_b0s in
  World ∅ [] = World ∅ [] ∧
  length ["hmc_b0_0"; "hmc_b0_0"; "hmc_b0_2"] = length (MatchTransformsInputSpec.dwi_files inputs) ∧
  Forall (λ t, t ∈ MatchTransformsInputSpec.transforms inputs)
         ["hmc_b0_0"; "hmc_b0_0"; "hmc_b0_2"].
Proof.
  apply (MatchTransforms_output_drawn_from_inputs
           three_volumes_two_b0s
           (World ∅ []) (World ∅ [])).
  reflexivity.
Defined.

Lemma match_transforms_b0_volume_keeps_its_transform_witness :
  ∃ nearest_affines,
    match_transforms ["v0"; "v1"; "v2"; "v3"] ["hmc_b0_0"; "hmc_b0_3"] [0; 3]%Z
      = Ok nearest_affines ∧
    nearest_affines !! 3 = Some "hmc_b0_3".
Proof.
  apply (match_transforms_b0_volume_keeps_its_transform
           ["v0"; "v1"; "v2"; "v3"] ["hmc_b0_0"; "hmc_b0_3"] [0; 3]%Z 1 3 "hmc_b0_3").
  - simpl. lia.
  - reflexivity.
  - apply (bool_decide_unpack _). vm_compute. exact I.
  - reflexivity.
  - reflexivity.
  - simpl. lia.
Defined.

(** ** Extracting the b0 volumes of a series *)

Section extract_b0s.

Lemma np_size_3 (nx ny nz : nat) : np_size [nx; ny; nz] = nx * ny * nz.
Proof. unfold np_size. simpl. lia. Qed.

Lemma reshape_lines {A} (n : nat) (ls : list (list A)) :
  Forall (λ l, length l = n) ls →
  reshape (replicate (length ls) n) (concat ls) = ls.
Proof.
  induction 1 as [|l ls Hl _ IH]; [done|].
  simpl. f_equal.
  - rewrite take_app_le by lia. apply take_ge. lia.
  - rewrite drop_app_ge by lia. rewrite Hl, Nat.sub_diag. exact IH.
Qed.

Lemma reshape_bind {A B} (k : nat) (f : A → list B) (xs : list A) :
  (∀ x, length (f x) = k) →
  reshape (replicate (length xs) k) (xs ≫= f) = f <$> xs.
Proof.
  intros Hk. induction xs as [|x xs IH]; [done|].
  rewrite bind_cons. simpl. f_equal.
  - rewrite take_app_le by (rewrite Hk; lia). apply take_ge. rewrite Hk. lia.
  - rewrite drop_app_ge by (rewrite Hk; lia). rewrite Hk, Nat.sub_diag. exact IH.
Qed.

Lemma axis_index_in_range (n : nat) (i : Z) :
  (- Z.of_nat n ≤ i < Z.of_nat n)%Z →
  axis_index n i = Ok (Z.to_nat (i `mod` Z.of_nat n)).
Proof.
  intros Hi. unfold axis_index. case_decide as Hpos.
  - by rewrite Z.mod_small.
  - rewrite decide_True by lia. f_equal. f_equal.
    rewrite <- (Z.mod_add i 1) by lia. rewrite Z.mod_small; lia.
Qed.

Lemma axis_index_out_of_range (n : nat) (i : Z) :
  ¬ (- Z.of_nat n ≤ i < Z.of_nat n)%Z →
  axis_index n i = Raise (IndexError "index is out of bounds").
Proof. intros Hi. unfold axis_index. rewrite !decide_False by lia. done. Qed.

Lemma for_each_Exists_Raise {A B} (f : A → result B) (e : exn) xs :
  (∀ x e', f x = Raise e' → e' = e) →
  Exists (λ x, f x = Raise e) xs → for_each f xs = Raise e.
Proof.
  intros Hsame. induction 1 as [x xs Hx|x xs _ IH]; simpl.
  - by rewrite Hx.
  - destruct (f x) as [y|e'] eqn:Hy; cbn [mbind result_bind].
    + by rewrite IH.
    + by rewrite (Hsame _ _ Hy).
Qed.

(** [ExtractB0s] on a four-dimensional series of T volumes: every voxel of
    the output holds the values of the listed volumes, in the order of the
    list (an index may be repeated, and a negative index counts from the
    last volume); shape, affine and header follow the input; the output is
    written to the working directory under the input's name with the suffix
    [_b0_series], and nothing else is touched. *)
Theorem ExtractB0s_selects_listed_volumes (inputs : ExtractB0sInputSpec.t) (cwd : string)
    (w : world) (img : nifti) (nx ny nz T : nat) :
  files w !! ExtractB0sInputSpec.dwi_series inputs = Some (Nifti img) →
  shape img = [nx; ny; nz; T] →
  length (get_data img) = nx * ny * nz →
  Forall (λ voxel, length voxel = T) (get_data img) →
  Forall (λ i, - Z.of_nat T ≤ i < Z.of_nat T)%Z (ExtractB0sInputSpec.b0_indices inputs) →
  let indices := ExtractB0sInputSpec.b0_indices inputs in
  let output_fname :=
    fname_presuffix (ExtractB0sInputSpec.dwi_series inputs) EmptyString "_b0_series"
                    (Some cwd) true in
  let b0_series :=
    Nifti1Image
      ((λ voxel : list Qc,
          (λ i, default 0%Qc (voxel !! Z.to_nat (i `mod` Z.of_nat T))) <$> indices)
         <$> get_data img)
      [nx; ny; nz; length indices] (affine img) (zooms img) (xyz_unit img)
      (data_dtype img) (intent img) in
  ExtractB0s._run_interface inputs cwd w
    = (Ok output_fname, World (<[output_fname := Nifti b0_series]> (files w)) (runs w)).
Proof.
  intros Hfile Hshape Hvoxels Hlines Hrange indices output_fname b0_series.
  unfold ExtractB0s._run_interface, nb_load.
  unfold mbind at 1, M_bind at 1, mbind at 1, M_bind at 1, read_file at 1.
  rewrite Hfile. cbn [mret M_ret].
  assert (for_each (axis_index T) indices
          = Ok ((λ i, Z.to_nat (i `mod` Z.of_nat T)) <$> indices)) as Hpos.
  { apply for_each_fmap_Ok. eapply Forall_impl; [exact Hrange|].
    intros i Hi. by apply axis_index_in_range. }
  unfold take_last_axis. rewrite Hshape. cbn [last removelast].
  fold indices. rewrite Hpos. cbn [mbind result_bind].
  rewrite np_size_3, <- Hvoxels. unfold np_ravel. rewrite reshape_lines by done.
  unfold mbind at 1, M_bind at 1, lift at 1.
  unfold mbind at 1, M_bind at 1, to_filename, write_file. cbn [mret M_ret].
  f_equal. f_equal. f_equal. f_equal. unfold b0_series. f_equal.
  unfold voxels_of. cbn [take drop app]. rewrite np_size_3.
  replace (np_size [length indices]) with (length indices) by (unfold np_size; simpl; lia).
  set (pick := λ line : list Qc,
         (λ p, default 0%Qc (line !! p)) <$> ((λ i, Z.to_nat (i `mod` Z.of_nat T)) <$> indices)).
  change (get_data img ≫= pick) with (mbind (M:=list) pick (get_data img)).
  rewrite <- Hvoxels. rewrite (reshape_bind (length indices) pick).
  - unfold pick. apply list_fmap_ext. intros _ voxel _.
    by rewrite <- list_fmap_compose.
  - intros line. unfold pick. by rewrite !length_fmap.
Qed.

(** An index beyond the last axis makes [ExtractB0s] raise IndexError; no
    file is written. *)
Theorem ExtractB0s_index_out_of_bounds (inputs : ExtractB0sInputSpec.t) (cwd : string)
    (w : world) (img : nifti) (n : nat) :
  files w !! ExtractB0sInputSpec.dwi_series inputs = Some (Nifti img) →
  last (shape img) = Some n →
  Exists (λ i, ¬ (- Z.of_nat n ≤ i < Z.of_nat n)%Z) (ExtractB0sInputSpec.b0_indices inputs) →
  ExtractB0s._run_interface inputs cwd w
    = (Raise (IndexError "index is out of bounds"), w).
Proof.
  intros Hfile Hlast Hout.
  unfold ExtractB0s._run_interface, nb_load.
  unfold mbind at 1, M_bind at 1, mbind at 1, M_bind at 1, read_file at 1.
  rewrite Hfile. cbn [mret M_ret].
  unfold take_last_axis. rewrite Hlast.
  rewrite (for_each_Exists_Raise _ (IndexError "index is out of bounds")).
  - reflexivity.
  - intros i e. unfold axis_index. repeat case_decide; congruence.
  - eapply Exists_impl; [exact Hout|]. intros i Hi. by apply axis_index_out_of_range.
Qed.
End extract_b0s.

(** The first and the last volume of the two-volume series of [ras_world]. *)
Lemma ExtractB0s_selects_listed_volumes_witness :
  let inputs := first_and_last_volume in
  let indices := ExtractB0sInputSpec.b0_indices inputs in
  let output_fname :=
    fname_presuffix (ExtractB0sInputSpec.dwi_series inputs) EmptyString "_b0_series"
                    (Some "/work") true in
  let b0_series :=
    Nifti1Image
      ((λ voxel : list Qc,
          (λ i, default 0%Qc (voxel !! Z.to_nat (i `mod` Z.of_nat 2))) <$> indices)
         <$> get_data ras_dwi)
      [2; 1; 1; length indices] (affine ras_dwi) (zooms ras_dwi) (xyz_unit ras_dwi)
      (data_dtype ras_dwi) (intent ras_dwi) in
  ExtractB0s._run_interface inputs "/work" ras_world
    = (Ok output_fname,
       World (<[output_fname := Nifti b0_series]> (files ras_world)) (runs ras_world)).
Proof.
  apply (ExtractB0s_selects_listed_volumes first_and_last_volume "/work" ras_world
           ras_dwi 2 1 1 2).
  - reflexivity.
  - reflexivity.
  - reflexivity.
  - repeat constructor.
  - repeat constructor; simpl; lia.
Defined.

(** The run of the witness: the file written and what it holds. *)
Example ExtractB0s_first_and_last_volume :
  let run := ExtractB0s._run_interface first_and_last_volume "/work" ras_world in
  run.1 = Ok "/work/sub-01_dwi_b0_series.nii.gz" ∧
  files run.2 !! "/work/sub-01_dwi_b0_series.nii.gz" =
    Some (Nifti (Nifti1Image [[Qc_of_Z 10; Qc_of_Z 11]; [Qc_of_Z 20; Qc_of_Z 21]]
                             [2; 1; 1; 2] identity_affine [1; 1; 1; 1]%Qc
                             "mm" "int16" "none")).
Proof. split; compute_done. Qed.

(** Volume 2 of a series of two volumes. *)
Lemma ExtractB0s_index_out_of_bounds_witness :
  ExtractB0s._run_interface third_volume "/work" ras_world
    = (Raise (IndexError "index is out of bounds"), ras_world).
Proof.
  apply (ExtractB0s_index_out_of_bounds third_volume "/work" ras_world ras_dwi 2).
  - reflexivity.
  - reflexivity.
  - apply Exists_cons_tl, Exists_cons_hd. lia.
Defined.

(** ** The names of the per-volume gradient files *)

Lemma chars_app (s1 s2 : string) : chars (s1 +:+ s2) = chars s1 ++ chars s2.
Proof. unfold chars. induction s1 as [|c s1 IH]; [done|]. simpl. by rewrite IH. Qed.

Lemma str_chars (s : string) : str (chars s) = s.
Proof. apply string_of_list_ascii_of_string. Qed.

Lemma chars_str (l : list ascii) : chars (str l) = l.
Proof. apply list_ascii_of_string_of_list_ascii. Qed.

Lemma chars_inj (s1 s2 : string) : chars s1 = chars s2 → s1 = s2.
Proof. intros Heq. by rewrite <- (str_chars s1), <- (str_chars s2), Heq. Qed.

Lemma string_app_inv_tail (s1 s2 t : string) : s1 +:+ t = s2 +:+ t → s1 = s2.
Proof.
  intros Heq. apply chars_inj. apply (f_equal chars) in Heq.
  rewrite !chars_app in Heq. by eapply app_inv_tail.
Qed.







Section split_names.
Context `{Externals}.

End split_names.


(** ** Concatenating b-values and rotating b0 volumes *)

Section concatenation.
Context `{Externals}.

Lemma load_single_values (bval_list : list string) (bvals : list Qc) (w : world) :
  Forall2 (λ f b, files w !! f = Some (Text [[b]])) bval_list bvals →
  for_eachM (λ bval_file, np_loadtxt bval_file 1) bval_list w
    = (Ok ((λ b, Arr1 [b]) <$> bvals), w).
Proof.
  intros Hfiles. apply for_eachM_read.
  apply Forall2_fmap_r. eapply Forall2_impl; [exact Hfiles|].
  intros f b Hf. cbv beta. by rewrite (np_loadtxt_Text _ _ _ _ Hf).
Qed.

(** [concatenate_bvals] on two or more per-volume files of one b-value each:
    the merged file holds the integer part of every b-value, one per line,
    in the order of the list; no other file is touched and nothing is run. *)
Theorem concatenate_bvals_writes_integer_parts (bval_list : list string)
    (out_file : string) (bvals : list Qc) (w : world) :
  2 ≤ length bvals →
  Forall2 (λ f b, files w !! f = Some (Text [[b]])) bval_list bvals →
  concatenate_bvals bval_list out_file w
    = (Ok (), World (<[out_file := Text ((λ b, [fmt_i b]) <$> bvals)]> (files w)) (runs w)).
Proof.
  intros HN Hfiles. unfold concatenate_bvals.
  rewrite (M_bind_Ok _ _ _ _ _ (load_single_values _ _ _ Hfiles)).
  unfold mbind at 1, M_bind at 1, lift at 1.
  rewrite np_concatenate_singletons by (intros ->; simpl in HN; lia).
  destruct bvals as [|b1 [|b2 bvals]]; simpl in HN; try lia.
  reflexivity.
Qed.

(** With a single per-volume file of one b-value, [concatenate_bvals] raises:
    [squeeze] leaves a 0-d array, which [np.savetxt] refuses once it has
    opened the output file. *)
Lemma concatenate_bvals_one_value (bval_file out_file : string) (b : Qc) (w : world) :
  files w !! bval_file = Some (Text [[b]]) →
  concatenate_bvals [bval_file] out_file w
    = (Raise (ValueError "Expected 1D or 2D array, got 0D array instead"),
       World (<[out_file := Text []]> (files w)) (runs w)).
Proof.
  intros Hfile. unfold concatenate_bvals.
  assert (Forall2 (λ f b, files w !! f = Some (Text [[b]])) [bval_file] [b]) as Hfiles
    by (by repeat constructor).
  rewrite (M_bind_Ok _ _ _ _ _ (load_single_values _ _ _ Hfiles)).
  reflexivity.
Qed.

(** [GradientRotation] cannot handle a series of a single volume: with one
    per-volume file of one b-value, [squeeze] in [concatenate_bvals] leaves a
    0-d array, which [np.savetxt] refuses after opening its file.  The step
    raises before any gradient is read: it leaves an empty [rotated.bval] in
    the working directory, writes nothing else and starts no program. *)
Theorem GradientRotation_single_volume_raises (inputs : GradientRotationInputSpec.t)
    (cwd bval_file : string) (b : Qc) (w : world) :
  GradientRotationInputSpec.bval_files inputs = [bval_file] →
  files w !! bval_file = Some (Text [[b]]) →
  GradientRotation._run_interface inputs cwd w
    = (Raise (ValueError "Expected 1D or 2D array, got 0D array instead"),
       World (<[os_path_join cwd "rotated" +:+ ".bval" := Text []]> (files w)) (runs w)).
Proof.
  intros Hlist Hfile. unfold GradientRotation._run_interface. rewrite Hlist.
  apply M_bind_Raise. by apply (concatenate_bvals_one_value _ _ b).
Qed.

(** A series of b0 volumes only is not rotated: [bvec_rotation] starts no
    program and writes no points file; the table written holds zeros, with
    as many columns as there are (gradient, transform) pairs. *)
Theorem bvec_rotation_b0_series_runs_nothing (original_bvecs : list (list Qc))
    (transforms : list string) (output_file cwd : string) (w : world) :
  original_bvecs ≠ [] → transforms ≠ [] →
  Forall (λ bvec, bvec = [0; 0; 0]%Qc) original_bvecs →
  let n := length original_bvecs `min` length transforms in
  bvec_rotation original_bvecs transforms output_file cwd w
    = (Ok (replicate n "b0: No rotation"),
       World (<[output_file := Text (replicate 3 (replicate n 0%Qc))]> (files w)) (runs w)).
Proof.
  intros Hb Ht Hzero n. unfold bvec_rotation.
  assert (for_eachM (λ '(bvec, transform), aattp_rotate_vec bvec transform cwd)
            (zip original_bvecs transforms) w
          = (Ok (replicate n ([0; 0; 0]%Qc, "b0: No rotation")), w)) as Hloop.
  { subst n. clear Hb Ht. revert transforms.
    induction Hzero as [|bvec bvecs -> _ IH]; intros [|t ts]; try done.
    simpl. unfold mbind at 1, M_bind at 1.
    unfold aattp_rotate_vec at 1. rewrite decide_True by compute_done.
    cbn [mret M_ret]. unfold mbind at 1, M_bind at 1. by rewrite IH. }
  rewrite (M_bind_Ok _ _ _ _ _ Hloop).
  assert (0 < n) as Hn.
  { subst n. destruct original_bvecs, transforms; simpl; try done; lia. }
  rewrite (fmap_replicate fst), (fmap_replicate snd). cbn [fst snd].
  unfold mbind at 1, M_bind at 1, lift at 1.
  rewrite (np_row_stack_rows _ 3).
  2:{ destruct n; [lia|done]. }
  2:{ by apply Forall_replicate. }
  unfold mbind at 1, M_bind at 1, np_savetxt, write_file. cbn [mret M_ret].
  do 4 f_equal. unfold np_T.
  replace (default [] (head (replicate n [0; 0; 0]%Qc))) with ([0; 0; 0]%Qc)
    by (destruct n; [lia|done]).
  cbn [length np_transpose]. rewrite !fmap_replicate. cbn [head tail default].
  cbn [fmap list_fmap id]. rewrite !fmap_replicate.
  replace (fmt_8f 0) with 0%Qc by compute_done. reflexivity.
Qed.

End concatenation.

(** The files of [split_bvals_world]: 1/2 is written as 0. *)
Lemma concatenate_bvals_writes_integer_parts_witness :
  concatenate_bvals ["/work/dwi_0000.bval"; "/work/dwi_0001.bval"] "/work/rotated.bval"
                    split_bvals_world
    = (Ok (), World (<["/work/rotated.bval" :=
                         Text ((λ b, [fmt_i b]) <$> [Q2Qc (1 # 2); Qc_of_Z 1000])]>
                       (files split_bvals_world)) (runs split_bvals_world)).
Proof.
  apply (concatenate_bvals_writes_integer_parts
           ["/work/dwi_0000.bval"; "/work/dwi_0001.bval"] "/work/rotated.bval"
           [Q2Qc (1 # 2); Qc_of_Z 1000] split_bvals_world).
  - simpl. lia.
  - repeat constructor.
Defined.

Lemma GradientRotation_single_volume_raises_witness :
  @GradientRotation._run_interface bench single_volume "/work" split_bvals_world
    = (Raise (ValueError "Expected 1D or 2D array, got 0D array instead"),
       World (<[os_path_join "/work" "rotated" +:+ ".bval" := Text []]>
                (files split_bvals_world)) (runs split_bvals_world)).
Proof.
  apply (@GradientRotation_single_volume_raises bench single_volume "/work"
           "/work/dwi_0000.bval" (Q2Qc (1 # 2)) split_bvals_world).
  - reflexivity.
  - reflexivity.
Defined.

(** Two b0 volumes and one transform. *)
Lemma bvec_rotation_b0_series_runs_nothing_witness :
  let n := length [[0; 0; 0]; [0; 0; 0]]%Qc `min` length ["/xfm/a.mat"] in
  @bvec_rotation bench [[0; 0; 0]; [0; 0; 0]]%Qc ["/xfm/a.mat"] "/work/rotated.bvec"
                 "/work" (World ∅ [])
    = (Ok (replicate n "b0: No rotation"),
       World (<["/work/rotated.bvec" := Text (replicate 3 (replicate n 0%Qc))]>
                (files (World ∅ []))) (runs (World ∅ []))).
Proof.
  apply (@bvec_rotation_b0_series_runs_nothing bench [[0; 0; 0]; [0; 0; 0]]%Qc
           ["/xfm/a.mat"] "/work/rotated.bvec" "/work" (World ∅ [])).
  - done.
  - done.
  - repeat constructor.
Defined.

(** ** The chains of transforms of [ComposeTransforms] *)

Section chains.
Import ComposeTransformsInputSpec ComposeTransformsOutputSpec.
Context `{Externals}.

Local Ltac stage_lengths :=
  repeat constructor; rewrite ?length_replicate; done.

Local Ltac stages_checked :=
  cbn [getitem lookup list_lookup mbind result_bind app forallb head default];
  rewrite ?length_replicate;
  repeat match goal with
         | H : length _ = _ |- _ => rewrite H
         end;
  rewrite ?bool_decide_eq_true_2 by done; reflexivity.

Lemma chains_lookup (stages : list (list string)) (N : nat) :
  Forall (λ stage, length stage = N) stages →
  for_each (λ image_num, for_each (λ xfm, getitem xfm image_num) stages) (seq 0 N)
    = Ok ((λ image_num, (λ xfm : list string, default EmptyString (xfm !! image_num))
                          <$> stages) <$> seq 0 N).
Proof.
  intros Hstages. apply for_each_fmap_Ok. apply Forall_forall.
  intros image_num Hin%elem_of_seq. apply for_each_fmap_Ok.
  eapply Forall_impl; [exact Hstages|]. intros xfm Hlen. cbv beta in *.
  destruct (lookup_lt_is_Some_2 xfm image_num) as [t Ht]; [lia|].
  unfold getitem. by rewrite Ht.
Qed.

(** The chain of every volume, as described by [chain_of]: whether there is
    one distortion-correction warp per volume, a single one for all volumes,
    a list of another length (left out) or none, and with or without a
    template transform.  It is what [ComposeTransforms] reports in
    [transform_lists]. *)
Theorem ComposeTransforms_chain_order (inputs : ComposeTransformsInputSpec.t)
    (dwi_hmc_affines : list string) :
  match_transforms (dwi_files inputs) (hmc_to_ref_affines inputs)
                   (original_b0_indices inputs) = Ok dwi_hmc_affines →
  (t1_2_mni_forward_transform inputs = None ∨
   ∃ mni_affine mni_warp, t1_2_mni_forward_transform inputs = Some [mni_affine; mni_warp]) →
  ComposeTransforms.xfms_list inputs = Ok (imap (chain_of inputs) dwi_hmc_affines) ∧
  ∀ cwd w w' out,
    ComposeTransforms._run_interface inputs cwd w = (Ok out, w') →
    transform_lists out = imap (chain_of inputs) dwi_hmc_affines.
Proof.
  intros Hmt Hmni.
  pose proof (match_transforms_length _ _ _ _ Hmt) as Hlen.
  set (N := length (dwi_files inputs)) in *.
  assert (∀ stages : list (list string),
    Forall (λ stage, length stage = N) stages →
    (∀ i h, dwi_hmc_affines !! i = Some h →
       (λ xfm : list string, default EmptyString (xfm !! i)) <$> rev stages
         = chain_of inputs i h) →
    ComposeTransforms.image_transforms inputs = Ok stages →
    ComposeTransforms.xfms_list inputs = Ok (imap (chain_of inputs) dwi_hmc_affines))
    as Hchains.
  { intros stages Hall Hchain Himg. unfold ComposeTransforms.xfms_list.
    rewrite Himg. cbn [mbind result_bind]. fold N.
    rewrite chains_lookup by (by apply Forall_rev). f_equal.
    apply list_eq. intros i. rewrite list_lookup_fmap, list_lookup_imap.
    destruct (decide (i < N)) as [Hi|Hi].
    - rewrite lookup_seq_lt by done.
      destruct (lookup_lt_is_Some_2 dwi_hmc_affines i) as [h Hh]; [lia|].
      rewrite Hh. simpl. f_equal. by apply Hchain.
    - rewrite lookup_seq_ge by lia. rewrite lookup_ge_None_2 by lia. done. }
  assert (∀ (x : string) (i : nat), i < N → default EmptyString (replicate N x !! i) = x)
    as Hrep.
  { intros x i Hi. by rewrite lookup_replicate_2. }
  assert (∀ (n : nat) (s : string), concat (replicate n [s]) = replicate n s)
    as Hbroadcast.
  { intros n s. induction n as [|n IH]; [done|]. simpl. by rewrite IH. }
  assert (ComposeTransforms.xfms_list inputs = Ok (imap (chain_of inputs) dwi_hmc_affines))
    as Hlist.
  { destruct (fieldwarps inputs) as [sdc|] eqn:Hfw;
      [destruct (decide (length sdc = N)) as [HsN|HsN];
       [|destruct (decide (length sdc = 1)) as [Hs1|Hs1];
         [destruct sdc as [|s [|? ?]]; try done|]]|];
    destruct Hmni as [Hmni|(mni_affine & mni_warp & Hmni)].
    all: set (b0_to_t1 := unwarped_dwi_ref_to_t1w_affine inputs).
    - apply (Hchains [dwi_hmc_affines; sdc; replicate N b0_to_t1]).
      + stage_lengths.
      + intros i h Hh. pose proof (lookup_lt_Some _ _ _ Hh) as Hi.
        unfold chain_of. rewrite Hfw, Hmni. fold N. rewrite decide_True by done.
        destruct (lookup_lt_is_Some_2 sdc i) as [t Ht]; [lia|].
        cbn. rewrite Hrep, Ht, Hh by lia. done.
      + unfold ComposeTransforms.image_transforms. rewrite Hmt, Hfw, Hmni.
        cbn [mbind result_bind]. fold N. rewrite decide_True by done.
        stages_checked.
    - apply (Hchains [dwi_hmc_affines; sdc; replicate N b0_to_t1;
                      replicate N mni_affine; replicate N mni_warp]).
      + stage_lengths.
      + intros i h Hh. pose proof (lookup_lt_Some _ _ _ Hh) as Hi.
        unfold chain_of. rewrite Hfw, Hmni. fold N. rewrite decide_True by done.
        destruct (lookup_lt_is_Some_2 sdc i) as [t Ht]; [lia|].
        cbn. rewrite !Hrep, Ht, Hh by lia. done.
      + unfold ComposeTransforms.image_transforms. rewrite Hmt, Hfw, Hmni.
        cbn [mbind result_bind]. fold N.
        rewrite (decide_True (P := length sdc = N)) by done.
        rewrite (decide_True (P := length [mni_affine; mni_warp] = 2)) by done.
        stages_checked.
    - apply (Hchains [dwi_hmc_affines; replicate N s; replicate N b0_to_t1]).
      + stage_lengths.
      + intros i h Hh. pose proof (lookup_lt_Some _ _ _ Hh) as Hi.
        unfold chain_of. rewrite Hfw, Hmni. fold N.
        rewrite decide_False, decide_True by done.
        cbn. rewrite !Hrep, Hh by lia. done.
      + unfold ComposeTransforms.image_transforms. rewrite Hmt, Hfw, Hmni.
        cbn [mbind result_bind]. fold N.
        rewrite decide_False, decide_True by done. rewrite Hbroadcast.
        stages_checked.
    - apply (Hchains [dwi_hmc_affines; replicate N s; replicate N b0_to_t1;
                      replicate N mni_affine; replicate N mni_warp]).
      + stage_lengths.
      + intros i h Hh. pose proof (lookup_lt_Some _ _ _ Hh) as Hi.
        unfold chain_of. rewrite Hfw, Hmni. fold N.
        rewrite decide_False, decide_True by done.
        cbn. rewrite !Hrep, Hh by lia. done.
      + unfold ComposeTransforms.image_transforms. rewrite Hmt, Hfw, Hmni.
        cbn [mbind result_bind]. fold N.
        rewrite (decide_False (P := length [s] = N)) by done.
        rewrite (decide_True (P := length [s] = 1)) by done.
        rewrite (decide_True (P := length [mni_affine; mni_warp] = 2)) by done.
        rewrite Hbroadcast. stages_checked.
    - apply (Hchains [dwi_hmc_affines; replicate N b0_to_t1]).
      + stage_lengths.
      + intros i h Hh. pose proof (lookup_lt_Some _ _ _ Hh) as Hi.
        unfold chain_of. rewrite Hfw, Hmni. fold N. rewrite !decide_False by done.
        cbn. rewrite !Hrep, Hh by lia. done.
      + unfold ComposeTransforms.image_transforms. rewrite Hmt, Hfw, Hmni.
        cbn [mbind result_bind]. fold N. rewrite !decide_False by done.
        stages_checked.
    - apply (Hchains [dwi_hmc_affines; replicate N b0_to_t1;
                      replicate N mni_affine; replicate N mni_warp]).
      + stage_lengths.
      + intros i h Hh. pose proof (lookup_lt_Some _ _ _ Hh) as Hi.
        unfold chain_of. rewrite Hfw, Hmni. fold N. rewrite !decide_False by done.
        cbn. rewrite !Hrep, Hh by lia. done.
      + unfold ComposeTransforms.image_transforms. rewrite Hmt, Hfw, Hmni.
        cbn [mbind result_bind]. fold N.
        rewrite (decide_False (P := length sdc = N)) by done.
        rewrite (decide_False (P := length sdc = 1)) by done.
        rewrite (decide_True (P := length [mni_affine; mni_warp] = 2)) by done.
        stages_checked.
    - apply (Hchains [dwi_hmc_affines; replicate N b0_to_t1]).
      + stage_lengths.
      + intros i h Hh. pose proof (lookup_lt_Some _ _ _ Hh) as Hi.
        unfold chain_of. rewrite Hfw, Hmni.
        cbn. rewrite !Hrep, Hh by lia. done.
      + unfold ComposeTransforms.image_transforms. rewrite Hmt, Hfw, Hmni.
        cbn [mbind result_bind]. fold N. stages_checked.
    - apply (Hchains [dwi_hmc_affines; replicate N b0_to_t1;
                      replicate N mni_affine; replicate N mni_warp]).
      + stage_lengths.
      + intros i h Hh. pose proof (lookup_lt_Some _ _ _ Hh) as Hi.
        unfold chain_of. rewrite Hfw, Hmni.
        cbn. rewrite !Hrep, Hh by lia. done.
      + unfold ComposeTransforms.image_transforms. rewrite Hmt, Hfw, Hmni.
        cbn [mbind result_bind]. fold N.
        rewrite (decide_True (P := length [mni_affine; mni_warp] = 2)) by done.
        stages_checked. }
  split; [exact Hlist|].
  intros cwd w w' out Hrun. unfold ComposeTransforms._run_interface in Hrun.
  apply M_bind_inv in Hrun as (chains & w1 & [Hchains' ->]%lift_Ok & Hrun).
  rewrite Hlist in Hchains'. injection Hchains' as <-.
  case_decide; [|done].
  apply M_bind_inv in Hrun as (out_files & w2 & _ & Hrun).
  destruct (save_cmd inputs).
  - apply M_bind_inv in Hrun as ([] & w3 & _ & Hrun). by injection Hrun as <- _.
  - by injection Hrun as <- _.
Qed.

End chains.

Section compose_more.
Import ComposeTransformsInputSpec ComposeTransformsOutputSpec.
Context `{Externals}.

(** A template transform that does not have exactly two parts stops
    [ComposeTransforms] at its assertion, before any program is started. *)
Theorem ComposeTransforms_template_transform_needs_two_parts
    (inputs : ComposeTransformsInputSpec.t) (dwi_hmc_affines mni_xform : list string)
    (cwd : string) (w : world) :
  match_transforms (dwi_files inputs) (hmc_to_ref_affines inputs)
                   (original_b0_indices inputs) = Ok dwi_hmc_affines →
  t1_2_mni_forward_transform inputs = Some mni_xform →
  length mni_xform ≠ 2 →
  ComposeTransforms._run_interface inputs cwd w = (Raise AssertionError, w).
Proof.
  intros Hmt Hmni Hlen.
  unfold ComposeTransforms._run_interface, ComposeTransforms.xfms_list,
    ComposeTransforms.image_transforms.
  rewrite Hmt, Hmni. cbn [mbind result_bind].
  rewrite (decide_False (P := length mni_xform = 2)) by done. reflexivity.
Qed.

Lemma contains_from_spec (needle hay : list ascii) :
  contains_from needle hay = true ↔ ∃ pre post, hay = pre ++ needle ++ post.
Proof.
  induction hay as [|c hay IH]; cbn [contains_from].
  - rewrite orb_false_r, bool_decide_eq_true. split.
    + rewrite take_nil. intros <-. by exists [], [].
    + intros (pre & post & Heq). symmetry in Heq.
      apply app_eq_nil in Heq as [_ Heq]. apply app_eq_nil in Heq as [-> _]. done.
  - rewrite orb_true_iff, bool_decide_eq_true, IH. split.
    + intros [Htake|(pre & post & ->)].
      * exists [], (drop (length needle) (c :: hay)). simpl.
        rewrite <- Htake at 1. by rewrite take_drop.
      * by exists (c :: pre), post.
    + intros ([|c' pre] & post & Heq).
      * left. simpl in Heq. rewrite Heq. by rewrite take_app_length.
      * right. injection Heq as -> ->. eauto.
Qed.

Lemma contains_spec (needle hay : string) :
  contains needle hay = true ↔ ∃ pre post, hay = pre +:+ needle +:+ post.
Proof.
  unfold contains. rewrite contains_from_spec. split.
  - intros (pre & post & Heq). exists (str pre), (str post).
    apply chars_inj. by rewrite !chars_app, !chars_str.
  - intros (pre & post & ->). exists (chars pre), (chars post).
    by rewrite !chars_app.
Qed.

(** What [_compose_tfms] hands to the composition of affines: the transforms
    of the chain whose name does not contain [.nii], in the order of the
    chain.  The composed affine exists when the function returns, and the
    two programs started are the resampling and the composition. *)
Theorem _compose_tfms_composes_the_affines (in_file : string) (in_xform : list string)
    (reference_image : string) (index : nat) (newpath : string) (w w' : world)
    (out_file cmdline affine_file affine_cmd : string) :
  _compose_tfms in_file in_xform reference_image index newpath w
    = (Ok (out_file, cmdline, affine_file, affine_cmd), w') →
  ∃ affines,
    affines `sublist_of` in_xform ∧
    (∀ transform, transform ∈ affines ↔
       transform ∈ in_xform ∧ ¬ ∃ pre post, transform = pre +:+ ".nii" +:+ post) ∧
    out_file = fname_presuffix in_file EmptyString ("_xform-" +:+ fmt_d 5 index)
                               (Some newpath) true ∧
    affine_file = fname_presuffix in_file EmptyString
                    ("_affine_xform-" +:+ fmt_d 5 index +:+ ".mat") (Some newpath) false ∧
    affine_cmd = compose_affines_cmd reference_image affines affine_file ∧
    is_Some (files w' !! affine_file) ∧
    runs w' = runs w ++ [ants_ApplyTransforms in_file in_xform out_file reference_image
                           "LanczosWindowedSinc";
                         os_system affine_cmd].
Proof.
  unfold _compose_tfms. intros Hrun.
  exists (filter (λ transform, contains ".nii" transform = false) in_xform).
  split; [apply sublist_filter|]. split.
  { intros transform. rewrite list_elem_of_filter.
    split.
    - intros [Hc Hin]. split; [done|]. intros Hex%contains_spec. congruence.
    - intros [Hin Hnot]. split; [|done].
      destruct (contains ".nii" transform) eqn:Hcontains; [|done].
      exfalso. apply Hnot. by apply contains_spec. }
  apply M_bind_inv in Hrun as (runtime & w1 & Hresample & Hrun).
  apply M_bind_inv in Hrun as (nii & w2 & [-> _]%nb_load_Ok & Hrun).
  apply M_bind_inv in Hrun as ([] & w3 & Hwrite & Hrun).
  apply M_bind_inv in Hrun as ([affine_file' affine_cmd'] & w4 & Hcompose & Hrun).
  injection Hrun as <- <- <- <- <-.
  unfold compose_affines in Hcompose.
  apply M_bind_inv in Hcompose as ([] & w5 & Hshell & Hcompose).
  apply M_bind_inv in Hcompose as (produced & w6 & Hexists & Hcompose).
  injection Hexists as <- <-. injection Hshell as <-. injection Hwrite as <-.
  case_bool_decide as Hproduced; [|done]. injection Hcompose as <- <- <-.
  unfold run_interface in Hresample.
  destruct (nipype _ _) as [r fs]. injection Hresample as -> <-.
  split; [done|]. split; [done|]. split; [done|]. split; [done|].
  cbn [runs]. by rewrite <- app_assoc.
Qed.

End compose_more.

Lemma ComposeTransforms_chain_order_witness :
  ComposeTransforms.xfms_list three_warps_and_template
    = Ok (imap (chain_of three_warps_and_template)
               ["/work/hmc_b0_0.mat"; "/work/hmc_b0_0.mat"; "/work/hmc_b0_0.mat"]) ∧
  ∀ cwd w w' out,
    @ComposeTransforms._run_interface bench three_warps_and_template cwd w = (Ok out, w') →
    ComposeTransformsOutputSpec.transform_lists out
      = imap (chain_of three_warps_and_template)
             ["/work/hmc_b0_0.mat"; "/work/hmc_b0_0.mat"; "/work/hmc_b0_0.mat"].
Proof.
  apply (@ComposeTransforms_chain_order bench three_warps_and_template).
  - reflexivity.
  - right. by eexists _, _.
Defined.

(** The chains of the witness, written out. *)
Example ComposeTransforms_three_warps_and_template :
  ComposeTransforms.xfms_list three_warps_and_template =
    Ok [["/work/t1_to_mni_warp.nii.gz"; "/work/t1_to_mni.mat"; "/work/b0_to_t1.mat";
         "/work/warp_a.nii.gz"; "/work/hmc_b0_0.mat"];
        ["/work/t1_to_mni_warp.nii.gz"; "/work/t1_to_mni.mat"; "/work/b0_to_t1.mat";
         "/work/warp_b.nii.gz"; "/work/hmc_b0_0.mat"];
        ["/work/t1_to_mni_warp.nii.gz"; "/work/t1_to_mni.mat"; "/work/b0_to_t1.mat";
         "/work/warp_c.nii.gz"; "/work/hmc_b0_0.mat"]].
Proof. reflexivity. Qed.

Lemma ComposeTransforms_template_transform_needs_two_parts_witness :
  @ComposeTransforms._run_interface bench template_of_one_part "/work" three_volumes_world
    = (Raise AssertionError, three_volumes_world).
Proof.
  apply (@ComposeTransforms_template_transform_needs_two_parts bench template_of_one_part
           ["/work/hmc_b0_0.mat"; "/work/hmc_b0_0.mat"; "/work/hmc_b0_0.mat"]
           ["/work/t1_to_mni_warp.nii.gz"]).
  - reflexivity.
  - reflexivity.
  - simpl. lia.
Defined.

(** The chain of a volume with a warp between two affines: the warp is left
    out of the composition. *)
Lemma _compose_tfms_composes_the_affines_witness :
  let in_xform := ["/work/b0_to_t1.mat"; "/work/warp_a.nii.gz"; "/work/hmc_b0_0.mat"] in
  let run := @_compose_tfms ants_installed "/data/dwi_0000.nii.gz" in_xform
               "/data/t1w.nii.gz" 0 "/work" three_volumes_world in
  let out_file := "/work/dwi_0000_xform-00000.nii.gz" in
  let affine_file := "/work/dwi_0000_affine_xform-00000.mat" in
  let affine_cmd := "antsApplyTransforms -d 3 -r /data/t1w.nii.gz -o Linear[/work/dwi_0000_affine_xform-00000.mat, 1] --transform /work/b0_to_t1.mat --transform /work/hmc_b0_0.mat" in
  ∃ affines,
    affines `sublist_of` in_xform ∧
    (∀ transform, transform ∈ affines ↔
       transform ∈ in_xform ∧ ¬ ∃ pre post, transform = pre +:+ ".nii" +:+ post) ∧
    out_file = fname_presuffix "/data/dwi_0000.nii.gz" EmptyString ("_xform-" +:+ fmt_d 5 0)
                               (Some "/work") true ∧
    affine_file = fname_presuffix "/data/dwi_0000.nii.gz" EmptyString
                    ("_affine_xform-" +:+ fmt_d 5 0 +:+ ".mat") (Some "/work") false ∧
    affine_cmd = @compose_affines_cmd "/data/t1w.nii.gz" affines affine_file ∧
    is_Some (files run.2 !! affine_file) ∧
    runs run.2 = runs three_volumes_world
                   ++ [ants_ApplyTransforms "/data/dwi_0000.nii.gz" in_xform out_file
                         "/data/t1w.nii.gz" "LanczosWindowedSinc";
                       os_system affine_cmd].
Proof.
  apply (@_compose_tfms_composes_the_affines ants_installed "/data/dwi_0000.nii.gz"
           ["/work/b0_to_t1.mat"; "/work/warp_a.nii.gz"; "/work/hmc_b0_0.mat"]
           "/data/t1w.nii.gz" 0 "/work" three_volumes_world
           (@_compose_tfms ants_installed "/data/dwi_0000.nii.gz"
              ["/work/b0_to_t1.mat"; "/work/warp_a.nii.gz"; "/work/hmc_b0_0.mat"]
              "/data/t1w.nii.gz" 0 "/work" three_volumes_world).2
           "/work/dwi_0000_xform-00000.nii.gz"
           "antsApplyTransforms --input /data/dwi_0000.nii.gz --output /work/dwi_0000_xform-00000.nii.gz").
  vm_compute. reflexivity.
Defined.

(** ** Images that need no work *)

Section conform_dwi_more.
Context `{Externals}.

(** A diffusion image already in (L,P,S) orientation is left alone by
    [ConformDwi]: no file is written or read beyond the image, and the paths
    handed on are the input image and the [.bvec] and [.bval] files beside
    it, whether or not these exist. *)
Theorem ConformDwi_lps_input_untouched (dwi_file_in cwd : string) (w : world)
    (input_img : nifti) :
  files w !! dwi_file_in = Some (Nifti input_img) →
  aff2axcodes (affine input_img) = Ok ["L"; "P"; "S"] →
  ConformDwi._run_interface dwi_file_in cwd w
    = (Ok {| ConformDwiOutputSpec.dwi_file := dwi_file_in;
             ConformDwiOutputSpec.bvec_file :=
               fname_presuffix dwi_file_in EmptyString ".bvec" None false;
             ConformDwiOutputSpec.bval_file :=
               fname_presuffix dwi_file_in EmptyString ".bval" None false |}, w).
Proof.
  intros Hfile Hcodes. unfold ConformDwi._run_interface, nb_load.
  unfold mbind at 1, M_bind at 1, mbind at 1, M_bind at 1, read_file at 1.
  rewrite Hfile. cbn [mret M_ret].
  unfold mbind at 1, M_bind at 1, lift at 1. rewrite Hcodes.
  rewrite decide_False by (by intros []). reflexivity.
Qed.

End conform_dwi_more.

Section merge_more.
Context `{Externals}.

(** A single input of three dimensions or fewer (after squeezing) is handed
    back by [IntraModalMerge] as the merged image and as the average: no
    program is started.  With the reorientation requested it is the
    reoriented copy in the working directory, otherwise the input itself and
    no file is written. *)
Theorem IntraModalMerge_single_image_passes_through
    (inputs : IntraModalMergeInputSpec.t) (cwd in_file : string) (w : world)
    (img lps : nifti) :
  IntraModalMergeInputSpec.in_files inputs = [in_file] →
  files w !! in_file = Some (Nifti img) →
  (IntraModalMergeInputSpec.to_lps inputs = true → to_lps img = Ok lps) →
  let used := if IntraModalMergeInputSpec.to_lps inputs then lps else img in
  let out := if IntraModalMergeInputSpec.to_lps inputs
             then fname_presuffix in_file EmptyString "_lps" (Some cwd) true
             else in_file in
  length (shape used) ≠ 5 →
  length (squeezed_shape (shape used)) < 4 →
  IntraModalMerge._run_interface inputs cwd w
    = (Ok {| IntraModalMergeOutputSpec.out_file := out;
             IntraModalMergeOutputSpec.out_avg := out;
             IntraModalMergeOutputSpec.out_mats := None;
             IntraModalMergeOutputSpec.out_movpar := None |},
       if IntraModalMergeInputSpec.to_lps inputs
       then World (<[out := Nifti lps]> (files w)) (runs w)
       else w).
Proof.
  intros Hfiles Hfile Hlps used out Hdim Hsq.
  unfold IntraModalMerge._run_interface. rewrite Hfiles.
  change (getitem [in_file] 0) with (Ok in_file).
  unfold lift at 1. unfold mbind at 1, M_bind at 1.
  subst used out. destruct (IntraModalMergeInputSpec.to_lps inputs).
  - cbn [for_eachM]. unfold reorient, nb_load.
    unfold mbind at 1, M_bind at 1, mbind at 1, M_bind at 1, mbind at 1, M_bind at 1,
      mbind at 1, M_bind at 1, read_file at 1.
    rewrite Hfile. cbn [mret M_ret].
    unfold mbind at 1, M_bind at 1, lift at 1. rewrite Hlps by done.
    unfold mbind at 1, M_bind at 1, to_filename at 1, write_file at 1.
    cbn [mret M_ret]. unfold mbind at 1, M_bind at 1. cbn [mret M_ret].
    set (out := fname_presuffix in_file EmptyString "_lps" (Some cwd) true).
    set (w1 := World (<[out := Nifti lps]> (files w)) (runs w)).
    assert (nb_load out w1 = (Ok lps, w1)) as Hload.
    { unfold nb_load, mbind, M_bind, read_file, w1. cbn [files].
      by rewrite lookup_insert_eq. }
    rewrite (M_bind_Ok _ _ _ _ _ Hload). rewrite decide_False by done.
    unfold mbind at 1, M_bind at 1. cbn [mret M_ret].
    rewrite (M_bind_Ok _ _ _ _ _ Hload). by rewrite decide_True.
  - unfold mbind at 1, M_bind at 1. cbn [mret M_ret].
    assert (nb_load in_file w = (Ok img, w)) as Hload.
    { unfold nb_load, mbind, M_bind, read_file. by rewrite Hfile. }
    rewrite (M_bind_Ok _ _ _ _ _ Hload). rewrite decide_False by done.
    unfold mbind at 1, M_bind at 1. cbn [mret M_ret].
    rewrite (M_bind_Ok _ _ _ _ _ Hload). by rewrite decide_True.
Qed.

(** A single input of five dimensions none of which has length one is
    refused with RuntimeError (without the reorientation, nothing has been
    written by then). *)
Theorem IntraModalMerge_5d_image_raises (inputs : IntraModalMergeInputSpec.t)
    (cwd in_file : string) (w : world) (img : nifti) :
  IntraModalMergeInputSpec.in_files inputs = [in_file] →
  IntraModalMergeInputSpec.to_lps inputs = false →
  files w !! in_file = Some (Nifti img) →
  length (shape img) = 5 →
  Forall (λ n, n ≠ 1) (shape img) →
  IntraModalMerge._run_interface inputs cwd w
    = (Raise (RuntimeError ("Input image (" +:+ in_file +:+ ") is 5D")), w).
Proof.
  intros Hfiles Hlps Hfile Hdim Hnone.
  unfold IntraModalMerge._run_interface. rewrite Hfiles, Hlps.
  change (getitem [in_file] 0) with (Ok in_file).
  unfold lift at 1. unfold mbind at 1, M_bind at 1. cbn [mret M_ret].
  unfold mbind at 1, M_bind at 1. cbn [mret M_ret].
  assert (nb_load in_file w = (Ok img, w)) as Hload.
  { unfold nb_load, mbind, M_bind, read_file. by rewrite Hfile. }
  rewrite (M_bind_Ok _ _ _ _ _ Hload). rewrite decide_True by done.
  assert (squeezed_shape (shape img) = shape img) as Hsq.
  { unfold squeezed_shape. clear Hdim. induction Hnone as [|n ns Hn _ IH]; [done|].
    rewrite filter_cons_True by done. by rewrite IH. }
  rewrite Hsq, decide_True by done. reflexivity.
Qed.

Lemma elem_of_concat {A} (x : A) (ls : list (list A)) :
  x ∈ concat ls ↔ ∃ l, x ∈ l ∧ l ∈ ls.
Proof.
  induction ls as [|l ls IH]; simpl.
  - split; [by intros ?%not_elem_of_nil|]. by intros (l & _ & ?%not_elem_of_nil).
  - rewrite elem_of_app, IH. split.
    + intros [Hx|(l' & Hx & Hl')]; [exists l; split; [done|left]|].
      exists l'. split; [done|by right].
    + intros (l' & Hx & [->|Hl']%elem_of_cons); [by left|]. right. eauto.
Qed.

Lemma min_fold_spec (x : Qc) (xs : list Qc) :
  let m := foldr (λ y m, if decide (y < m)%Qc then y else m) x xs in
  m ∈ x :: xs ∧ Forall (λ y, m ≤ y)%Qc (x :: xs).
Proof.
  induction xs as [|y xs IH]; simpl.
  - split; [left|]. repeat constructor. apply Qcle_refl.
  - destruct IH as [Hin Hmin]. simpl in Hin, Hmin.
    set (m := foldr (λ y m, if decide (y < m)%Qc then y else m) x xs) in *.
    apply Forall_cons in Hmin as [Hx Hxs].
    case_decide as Hlt.
    + split; [right; left|].
      assert (y ≤ m)%Qc as Hle by (by apply Qclt_le_weak).
      constructor; [by eapply Qcle_trans|]. constructor; [apply Qcle_refl|].
      eapply Forall_impl; [exact Hxs|]. intros z Hz. by eapply Qcle_trans.
    + split.
      * apply elem_of_cons in Hin as [Hin|Hin]; [rewrite Hin; left|].
        right. by right.
      * constructor; [done|]. constructor; [by apply Qcnot_lt_le|done].
Qed.

Lemma np_min_spec (data : list (list Qc)) :
  concat data ≠ [] →
  np_min data ∈ concat data ∧ Forall (λ y, np_min data ≤ y)%Qc (concat data).
Proof.
  unfold np_min. destruct (concat data) as [|x xs]; [done|]. intros _.
  apply min_fold_spec.
Qed.

(** When the average is made zero-based, no voxel of the average image is
    negative, and (unless the image has no voxel) some voxel is exactly
    zero. *)
Lemma zero_based_average (data : list (list Qc)) :
  let hmcdat := mean_over_volumes data in
  let shifted := (λ voxel : list Qc, (λ x, x - np_min hmcdat)%Qc <$> voxel) <$> hmcdat in
  Forall (λ voxel, ∃ x, voxel = [x] ∧ (0 ≤ x)%Qc) shifted ∧
  (data ≠ [] → [0%Qc] ∈ shifted).
Proof.
  intros hmcdat shifted.
  destruct data as [|d data].
  { split; [constructor|done]. }
  destruct (np_min_spec hmcdat) as [Hin Hmin]; [done|].
  assert (∀ voxel, voxel ∈ hmcdat → ∃ x, voxel = [x] ∧ x ∈ concat hmcdat) as Hshape.
  { intros voxel Hv. unfold hmcdat, mean_over_volumes in Hv.
    apply list_elem_of_fmap in Hv as (v & -> & Hv'). eexists. split; [done|].
    apply elem_of_concat. eexists. split; [|by apply list_elem_of_fmap_2; exact Hv'].
    left. }
  split.
  - apply Forall_fmap, Forall_forall. intros voxel Hv.
    destruct (Hshape _ Hv) as (x & -> & Hx). eexists. split; [done|].
    pose proof (proj1 (Forall_forall _ _) Hmin _ Hx) as Hle. cbv beta in Hle.
    unfold Qcminus. apply (Qcplus_le_mono_r _ _ (np_min hmcdat)).
    ring_simplify. exact Hle.
  - intros _. apply elem_of_concat in Hin as (voxel & Hmv & Hv).
    destruct (Hshape _ Hv) as (x & -> & _).
    apply list_elem_of_singleton in Hmv.
    apply list_elem_of_fmap. exists [x]. split; [|done].
    simpl. rewrite <- Hmv. f_equal. ring.
Qed.

Lemma motion_correct_average (inputs : IntraModalMergeInputSpec.t)
    (out_avg merged : string) (w w' : world) (out : IntraModalMergeOutputSpec.t) :
  IntraModalMerge.motion_correct inputs out_avg merged w = (Ok out, w') →
  IntraModalMergeInputSpec.zero_based_avg inputs = true →
  ∃ avg,
    files w' !! IntraModalMergeOutputSpec.out_avg out = Some (Nifti avg) ∧
    Forall (λ voxel, ∃ x, voxel = [x] ∧ (0 ≤ x)%Qc) (get_data avg) ∧
    (get_data avg ≠ [] → [0%Qc] ∈ get_data avg).
Proof.
  unfold IntraModalMerge.motion_correct. intros Hrun Hzero. rewrite Hzero in Hrun.
  apply M_bind_inv in Hrun as (mcres & w1 & _ & Hrun).
  apply M_bind_inv in Hrun as (hmcnii & w2 & _ & Hrun).
  apply M_bind_inv in Hrun as ([] & w3 & Hwrite & Hrun).
  injection Hrun as <- <-. injection Hwrite as <-. cbn [IntraModalMergeOutputSpec.out_avg files].
  eexists. split; [apply lookup_insert_eq|].
  cbn [get_data IntraModalMerge.with_data].
  destruct (zero_based_average (get_data hmcnii)) as [Hpos Hzero'].
  split; [exact Hpos|]. intros Hne. apply Hzero'. intros Hnil.
  apply Hne. by rewrite Hnil.
Qed.

(** When [IntraModalMerge] has run the motion correction with a zero-based
    average requested, no voxel of the average image it wrote is negative
    and, unless the image has no voxel, some voxel is exactly zero. *)
Theorem IntraModalMerge_average_is_zero_based (inputs : IntraModalMergeInputSpec.t)
    (cwd : string) (w w' : world) (out : IntraModalMergeOutputSpec.t) :
  IntraModalMerge._run_interface inputs cwd w = (Ok out, w') →
  IntraModalMergeInputSpec.zero_based_avg inputs = true →
  is_Some (IntraModalMergeOutputSpec.out_mats out) →
  ∃ avg,
    files w' !! IntraModalMergeOutputSpec.out_avg out = Some (Nifti avg) ∧
    Forall (λ voxel, ∃ x, voxel = [x] ∧ (0 ≤ x)%Qc) (get_data avg) ∧
    (get_data avg ≠ [] → [0%Qc] ∈ get_data avg).
Proof.
  unfold IntraModalMerge._run_interface. intros Hrun Hzero Hmats.
  apply M_bind_inv in Hrun as (first & w1 & _ & Hrun).
  apply M_bind_inv in Hrun as (in_files & w2 & _ & Hrun).
  destruct in_files as [|in_file [|second rest]].
  - apply M_bind_inv in Hrun as (magmrg & w3 & _ & Hrun).
    by eapply motion_correct_average.
  - apply M_bind_inv in Hrun as (filenii & w3 & _ & Hrun).
    apply M_bind_inv in Hrun as (in_file' & w4 & _ & Hrun).
    apply M_bind_inv in Hrun as (loaded & w5 & _ & Hrun).
    case_decide.
    + injection Hrun as <- _. by destruct Hmats.
    + by eapply motion_correct_average.
  - apply M_bind_inv in Hrun as (magmrg & w3 & _ & Hrun).
    by eapply motion_correct_average.
Qed.

End merge_more.

Lemma ConformDwi_lps_input_untouched_witness :
  @ConformDwi._run_interface bench "/data/sub-02_dwi.nii.gz" "/work" lps_world
    = (Ok {| ConformDwiOutputSpec.dwi_file := "/data/sub-02_dwi.nii.gz";
             ConformDwiOutputSpec.bvec_file :=
               fname_presuffix "/data/sub-02_dwi.nii.gz" EmptyString ".bvec" None false;
             ConformDwiOutputSpec.bval_file :=
               fname_presuffix "/data/sub-02_dwi.nii.gz" EmptyString ".bval" None false |},
       lps_world).
Proof.
  apply (@ConformDwi_lps_input_untouched bench "/data/sub-02_dwi.nii.gz" "/work" lps_world
           lps_dwi).
  - reflexivity.
  - reflexivity.
Defined.

(** The first image of [two_magnitudes_world], on its own. *)
Lemma IntraModalMerge_single_image_passes_through_witness :
  let lps := match @to_lps bench (ras_volume 10 20) with
             | Ok lps => lps
             | Raise _ => ras_volume 10 20
             end in
  let out := fname_presuffix "/data/mag1.nii.gz" EmptyString "_lps" (Some "/work") true in
  @IntraModalMerge._run_interface bench one_magnitude "/work" two_magnitudes_world
    = (Ok {| IntraModalMergeOutputSpec.out_file := out;
             IntraModalMergeOutputSpec.out_avg := out;
             IntraModalMergeOutputSpec.out_mats := None;
             IntraModalMergeOutputSpec.out_movpar := None |},
       World (<[out := Nifti lps]> (files two_magnitudes_world))
             (runs two_magnitudes_world)).
Proof.
  apply (@IntraModalMerge_single_image_passes_through bench one_magnitude "/work"
           "/data/mag1.nii.gz" two_magnitudes_world (ras_volume 10 20)).
  - reflexivity.
  - reflexivity.
  - intros _. vm_compute. reflexivity.
  - vm_compute. lia.
  - vm_compute. lia.
Defined.

Lemma IntraModalMerge_5d_image_raises_witness :
  @IntraModalMerge._run_interface bench one_5d_magnitude "/work" five_dimensions_world
    = (Raise (RuntimeError ("Input image (" +:+ "/data/mag5d.nii.gz" +:+ ") is 5D")),
       five_dimensions_world).
Proof.
  apply (@IntraModalMerge_5d_image_raises bench one_5d_magnitude "/work"
           "/data/mag5d.nii.gz" five_dimensions_world five_dimensions).
  - reflexivity.
  - reflexivity.
  - reflexivity.
  - reflexivity.
  - repeat constructor; lia.
Defined.

(** The two images of [two_magnitudes_world], merged and motion-corrected. *)
Lemma IntraModalMerge_average_is_zero_based_witness :
  let run := @IntraModalMerge._run_interface (with_nipype (fsl "/work") bench)
               two_magnitudes "/work" two_magnitudes_world in
  ∃ avg,
    files run.2 !! "/work/mag1_avg.nii.gz" = Some (Nifti avg) ∧
    Forall (λ voxel, ∃ x, voxel = [x] ∧ (0 ≤ x)%Qc) (get_data avg) ∧
    (get_data avg ≠ [] → [0%Qc] ∈ get_data avg).
Proof.
  apply (@IntraModalMerge_average_is_zero_based (with_nipype (fsl "/work") bench)
           two_magnitudes "/work" two_magnitudes_world
           (@IntraModalMerge._run_interface (with_nipype (fsl "/work") bench)
              two_magnitudes "/work" two_magnitudes_world).2
           {| IntraModalMergeOutputSpec.out_file := "/work/mag1_merged_mcf.nii.gz";
              IntraModalMergeOutputSpec.out_avg := "/work/mag1_avg.nii.gz";
              IntraModalMergeOutputSpec.out_mats :=
                Some ["/work/mag1_merged_mcf.nii.gz.mat/MAT_0000"];
              IntraModalMergeOutputSpec.out_movpar :=
                Some "/work/mag1_merged_mcf.nii.gz.par" |}).
  - vm_compute. reflexivity.
  - reflexivity.
  - by eexists.
Defined.

(** ** The local rotation and its temporary files *)

Section local_more.
Context `{Externals}.

Lemma local_bvec_rotation_raises (original_bvecs : list (list Qc))
    (warp_transforms : list string) (mask_image cwd output_fname : string) (w : world) :
  ∃ e w', local_bvec_rotation original_bvecs warp_transforms mask_image cwd output_fname w
            = (Raise e, w').
Proof.
  unfold local_bvec_rotation. unfold mbind at 1, M_bind at 1.
  destruct (nb_load mask_image w) as [[mask_img|e] w0]; [|eauto].
  unfold mbind at 1, M_bind at 1.
  destruct (for_eachM _ _ w0) as [[rotated|e] w1]; [|eauto].
  unfold mbind at 1, M_bind at 1, lift at 1.
  destruct rotated as [|r rotated]; [|eauto].
  cbn [fmap list_fmap for_each]. unfold mbind at 1, M_bind at 1, lift at 1.
  cbn [np_stack_last]. eauto.
Qed.

(** [LocalGradientRotation] never completes: whatever its inputs, the step
    raises (in the concatenation of the gradients, in the loop over the
    volumes or, when both succeed, in the final assembly of
    [local_bvec_rotation]), so that no output is reported. *)
Theorem LocalGradientRotation_never_completes (inputs : LocalGradientRotationInputSpec.t)
    (cwd : string) (w : world) :
  ∃ e w', LocalGradientRotation._run_interface inputs cwd w = (Raise e, w').
Proof.
  unfold LocalGradientRotation._run_interface. unfold mbind at 1, M_bind at 1.
  destruct (concatenate_bvecs _ w) as [[original_bvecs|e] w0]; [|eauto].
  destruct (local_bvec_rotation_raises original_bvecs
              (LocalGradientRotationInputSpec.warp_transforms inputs)
              (LocalGradientRotationInputSpec.mask_image inputs) cwd
              (os_path_join cwd "rotated" +:+ "_local_bvecs.nii.gz") w0)
    as (e & w1 & Hraise).
  exists e, w1. by apply M_bind_Raise.
Qed.

Lemma os_remove_all (names : list string) (fs : gmap string file) (rs : list tool_run) :
  NoDup names → Forall (λ name, is_Some (fs !! name)) names →
  for_eachM os_remove names (World fs rs)
    = (Ok (replicate (length names) ()),
       World (foldl (λ m name, delete name m) fs names) rs).
Proof.
  revert fs. induction names as [|name names IH]; intros fs Hnd Hall; [done|].
  apply NoDup_cons in Hnd as [Hname Hnd]. apply Forall_cons in Hall as [[f Hf] Hall].
  cbn [for_eachM]. unfold mbind at 1, M_bind at 1, os_remove at 1. cbn [files].
  rewrite Hf. cbn [runs]. unfold mbind at 1, M_bind at 1. rewrite IH; [done|done|].
  apply Forall_forall. intros name' Hin.
  rewrite lookup_delete_ne by (intros ->; done).
  by apply (proj1 (Forall_forall _ _) Hall).
Qed.

Lemma foldl_delete_lookup (names : list string) (fs : gmap string file) (p : string) :
  foldl (λ m name, delete name m) fs names !! p
    = if decide (p ∈ names) then None else fs !! p.
Proof.
  revert fs. induction names as [|name names IH]; intros fs; [done|].
  cbn [foldl]. rewrite IH. destruct (decide (p = name)) as [->|Hne].
  - rewrite lookup_delete_eq. rewrite (decide_True (P := name ∈ name :: names)) by left.
    by case_decide.
  - rewrite lookup_delete_ne by done.
    destruct (decide (p ∈ names)) as [Hin|Hin].
    + by rewrite decide_True by (by right).
    + rewrite decide_False; [done|]. by intros [?|?]%elem_of_cons.
Qed.

Lemma component_files_NoDup (prefix : string) : NoDup (component_files prefix).
Proof.
  unfold component_files. apply NoDup_fmap_2_strong.
  - intros d1 d2 _ _ Heq. apply (String.app_inj prefix) in Heq.
    apply (String.app_inj "_temp_dtiComp_") in Heq.
    by apply string_app_inv_tail in Heq.
  - apply (bool_decide_unpack _). vm_compute. exact I.
Qed.

(** [create_tensor_image] cleans up after itself: when ImageMath leaves the
    component files in place, the function returns the name of the tensor
    image, has started ImageMath once, and none of the six component files
    is left. *)
Theorem create_tensor_image_removes_components (mask_img : nifti) (direction : list Qc)
    (prefix : string) (w : world) :
  let compose_cmd :=
    "ImageMath 3 " +:+ (prefix +:+ "_tensor.nii") +:+ " ComponentTo3DTensor " +:+ prefix
      +:+ "_temp_dtiComp_" in
  (∀ fs name, name ∈ component_files prefix → is_Some (fs !! name) →
              is_Some (shell compose_cmd fs !! name)) →
  ∃ w',
    create_tensor_image mask_img direction prefix w = (Ok (prefix +:+ "_tensor.nii"), w') ∧
    Forall (λ name, files w' !! name = None) (component_files prefix) ∧
    runs w' = runs w ++ [os_system compose_cmd].
Proof.
  intros compose_cmd Hkeeps. unfold create_tensor_image.
  match goal with |- context [for_eachM ?f tensor_index] =>
    assert (∃ fs1, for_eachM f tensor_index w
                   = (Ok (component_files prefix), World fs1 (runs w)) ∧
                   Forall (λ name, is_Some (fs1 !! name)) (component_files prefix))
      as (fs1 & Hloop & Hwritten)
  end.
  { destruct w as [fs rs]. eexists. split; [reflexivity|].
    cbn [files]. unfold component_files. cbn [fmap list_fmap].
    repeat constructor;
      repeat (first [ by eexists; apply lookup_insert_eq
                    | rewrite lookup_insert_ne
                        by (intros Heq; apply (String.app_inj prefix) in Heq;
                            apply (String.app_inj "_temp_dtiComp_") in Heq;
                            by apply string_app_inv_tail in Heq) ]). }
  rewrite (M_bind_Ok _ _ _ _ _ Hloop).
  unfold mbind at 1, M_bind at 1, run_os_system at 1. cbn [files runs].
  fold compose_cmd.
  rewrite (M_bind_Ok _ _ _ _ _
             (os_remove_all _ _ _ (component_files_NoDup prefix)
                (proj2 (Forall_forall _ _)
                   (λ name Hin, Hkeeps fs1 name Hin
                      (proj1 (Forall_forall _ _) Hwritten name Hin))))).
  eexists. split; [reflexivity|]. split; [|done].
  apply Forall_forall. intros name Hin. cbn [files].
  rewrite foldl_delete_lookup. by rewrite decide_True.
Qed.

End local_more.

(** ** What [ConcatRPESplits] and [SplitDWIs] report *)

Section concat_more.
Context `{Externals}.

Lemma for_eachM_length {A B} (f : A → M B) xs ys w w' :
  for_eachM f xs w = (Ok ys, w') → length ys = length xs.
Proof.
  revert ys w w'. induction xs as [|x xs IH]; intros ys w w' Hrun.
  - by injection Hrun as <- _.
  - cbn [for_eachM] in Hrun.
    apply M_bind_inv in Hrun as (y & w1 & _ & Hrun).
    apply M_bind_inv in Hrun as (ys' & w2 & Hys & Hrun).
    injection Hrun as <- _. simpl. f_equal. by eapply IH.
Qed.

(** The outputs of [ConcatRPESplits] that do not depend on the volumes.  The
    list of warps is reported only when both series come with a warp: that
    of the plus series [len(dwi_plus)] times, then that of the minus series
    [len(dwi_minus)] times, [len] being taken of the value read from the
    trait; a warp given for one series only is dropped.  The combined
    affines are one per item the loops over the head-motion affines went
    through, which need not be the number of volumes; the reference image
    and mask are passed on. *)
Theorem ConcatRPESplits_warps_need_both_series (inputs : ConcatRPESplitsInputSpec.t)
    (cwd : string) (w w' : world) (out : ConcatRPESplitsOutputSpec.t) :
  ConcatRPESplits._run_interface inputs cwd w = (Ok out, w') →
  ∃ P M plus_affines minus_affines,
    py_len (OutputMultiObject_get (ConcatRPESplitsInputSpec.dwi_plus inputs)) = Ok P ∧
    py_len (OutputMultiObject_get (ConcatRPESplitsInputSpec.dwi_minus inputs)) = Ok M ∧
    py_iter (OutputMultiObject_get (ConcatRPESplitsInputSpec.hmc_affines_plus inputs))
      = Ok plus_affines ∧
    py_iter (OutputMultiObject_get (ConcatRPESplitsInputSpec.hmc_affines_minus inputs))
      = Ok minus_affines ∧
    (∀ plus_warp minus_warp,
       ConcatRPESplitsInputSpec.template_plus_to_ref_warp inputs = Some plus_warp →
       ConcatRPESplitsInputSpec.template_minus_to_ref_warp inputs = Some minus_warp →
       ConcatRPESplitsOutputSpec.to_dwi_ref_warps out
         = Some (replicate P plus_warp ++ replicate M minus_warp)) ∧
    (ConcatRPESplitsInputSpec.template_plus_to_ref_warp inputs = None ∨
     ConcatRPESplitsInputSpec.template_minus_to_ref_warp inputs = None →
       ConcatRPESplitsOutputSpec.to_dwi_ref_warps out = None) ∧
    length (ConcatRPESplitsOutputSpec.to_dwi_ref_affines out)
      = length plus_affines + length minus_affines ∧
    ConcatRPESplitsOutputSpec.b0_ref_image out
      = ConcatRPESplitsInputSpec.b0_ref_image inputs ∧
    ConcatRPESplitsOutputSpec.b0_ref_mask out = ConcatRPESplitsInputSpec.b0_ref_mask inputs.
Proof.
  intros Hrun. unfold ConcatRPESplits._run_interface in Hrun. cbv zeta in Hrun.
  apply M_bind_inv in Hrun as (P & w0 & [HP ->]%lift_Ok & Hrun).
  apply M_bind_inv in Hrun as (M & w0 & [HM ->]%lift_Ok & Hrun).
  apply M_bind_inv in Hrun as (dwi_files & w0 & [_ ->]%lift_Ok & Hrun).
  apply M_bind_inv in Hrun as (bval_files & w0 & [_ ->]%lift_Ok & Hrun).
  apply M_bind_inv in Hrun as (bvec_files & w0 & [_ ->]%lift_Ok & Hrun).
  apply M_bind_inv in Hrun as (b0_images & w0 & [_ ->]%lift_Ok & Hrun).
  apply M_bind_inv in Hrun as (plus_affines & w0 & [Hpa ->]%lift_Ok & Hrun).
  apply M_bind_inv in Hrun as (combined_plus & w1 & Hplus & Hrun).
  apply M_bind_inv in Hrun as (minus_affines & w0 & [Hma ->]%lift_Ok & Hrun).
  apply M_bind_inv in Hrun as (combined_minus & w2 & Hminus & Hrun).
  injection Hrun as <- <-.
  exists P, M, plus_affines, minus_affines.
  cbn [ConcatRPESplitsOutputSpec.to_dwi_ref_warps
       ConcatRPESplitsOutputSpec.to_dwi_ref_affines
       ConcatRPESplitsOutputSpec.b0_ref_image ConcatRPESplitsOutputSpec.b0_ref_mask].
  do 4 (split; [done|]).
  split; [by intros plus_warp minus_warp -> ->|].
  split.
  { intros [->| ->]; [done|].
    by destruct (ConcatRPESplitsInputSpec.template_plus_to_ref_warp inputs). }
  split; [|done].
  rewrite length_app.
  apply for_eachM_length in Hplus, Hminus.
  rewrite length_zip, length_seq in Hplus, Hminus. lia.
Qed.

End concat_more.

Section split_dwis.
Context `{Externals}.

Lemma flatnonzero_from (threshold : Z) (bvalues : list Qc) (start : nat) :
  let found := zip (seq start (length bvalues)) bvalues
                 ≫= λ '(idx, b), if decide (b < Qc_of_Z threshold)%Qc then [idx] else [] in
  (∀ i, i ∈ found ↔
        start ≤ i ∧ ∃ b, bvalues !! (i - start) = Some b ∧ (b < Qc_of_Z threshold)%Qc) ∧
  StronglySorted lt found.
Proof.
  revert start. induction bvalues as [|b bvalues IH]; intros start found.
  - split; [|constructor]. intros i. split; [by intros ?%not_elem_of_nil|].
    by intros (_ & b & ? & _).
  - destruct (IH (S start)) as [Hmem Hsorted]. subst found.
    cbn [length seq zip zip_with]. rewrite bind_cons.
    set (rest := zip (seq (S start) (length bvalues)) bvalues ≫= _) in *.
    assert (∀ i, i ∈ rest → start < i) as Hlater.
    { intros i Hi%Hmem. lia. }
    split.
    + intros i. rewrite elem_of_app, Hmem. split.
      * intros [Hhead|(Hi & b' & Hb' & Hlt)].
        -- case_decide as Hb; [|by apply not_elem_of_nil in Hhead].
           apply list_elem_of_singleton in Hhead as ->. split; [lia|].
           exists b. by rewrite Nat.sub_diag.
        -- split; [lia|]. exists b'. split; [|done].
           replace (i - start) with (S (i - S start)) by lia. done.
      * intros (Hi & b' & Hb' & Hlt).
        destruct (decide (i = start)) as [->|Hne].
        -- left. rewrite Nat.sub_diag in Hb'. injection Hb' as ->.
           rewrite decide_True by done. left.
        -- right. split; [lia|]. exists b'. split; [|done].
           replace (i - start) with (S (i - S start)) in Hb' by lia. done.
    + case_decide; [|done]. constructor; [done|].
      apply Forall_forall. intros i Hi. by apply Hlater.
Qed.

(** What [SplitDWIs] reports about the b0 volumes: the volume numbers whose
    b-value in the bval file is strictly below the threshold (a b-value equal
    to the threshold is not a b0), in increasing order, and for each of them
    the file that [fsl.Split] returned at that position. *)
Theorem SplitDWIs_b0_images_follow_indices (inputs : SplitDWIsInputSpec.t) (cwd : string)
    (w w' : world) (out : SplitDWIsOutputSpec.t) :
  SplitDWIs._run_interface inputs cwd w = (Ok out, w') →
  (∃ loaded,
     np_loadtxt (SplitDWIsInputSpec.bval_file inputs) 0 w' = (Ok loaded, w') ∧
     let bvalues := match loaded with
                    | Arr0 x => [x]
                    | Arr1 xs => xs
                    | Arr2 rows => concat rows
                    end in
     ∀ i : nat, Z.of_nat i ∈ SplitDWIsOutputSpec.b0_indices out ↔
       ∃ b, bvalues !! i = Some b ∧
            (b < Qc_of_Z (SplitDWIsInputSpec.b0_threshold inputs))%Qc) ∧
  StronglySorted Z.lt (SplitDWIsOutputSpec.b0_indices out) ∧
  Forall2 (λ idx path, (0 ≤ idx)%Z ∧
             SplitDWIsOutputSpec.dwi_files out !! Z.to_nat idx = Some path)
          (SplitDWIsOutputSpec.b0_indices out) (SplitDWIsOutputSpec.b0_images out).
Proof.
  unfold SplitDWIs._run_interface. intros Hrun.
  apply M_bind_inv in Hrun as (split & w1 & _ & Hrun).
  apply M_bind_inv in Hrun as ([split_bval_files split_bvec_files] & w2 & _ & Hrun).
  apply M_bind_inv in Hrun as (loaded & w3 & Hload & Hrun).
  apply M_bind_inv in Hrun as (b0_paths & w4 & [Hpaths ->]%lift_Ok & Hrun).
  injection Hrun as <- <-.
  cbn [SplitDWIsOutputSpec.b0_indices SplitDWIsOutputSpec.b0_images
       SplitDWIsOutputSpec.dwi_files].
  assert (w3 = w2) as ->.
  { unfold np_loadtxt in Hload.
    apply M_bind_inv in Hload as (f & w5 & Hread & Hload).
    unfold read_file in Hread. destruct (files w2 !! _) as [f'|]; [|done].
    injection Hread as <- <-. destruct f'; try done. by apply lift_Ok in Hload as [_ ->]. }
  set (bvalues := match loaded with
                  | Arr0 x => [x]
                  | Arr1 xs => xs
                  | Arr2 rows => concat rows
                  end) in *.
  destruct (flatnonzero_from (SplitDWIsInputSpec.b0_threshold inputs) bvalues 0)
    as [Hmem Hsorted].
  fold (flatnonzero_below bvalues (SplitDWIsInputSpec.b0_threshold inputs)) in Hmem, Hsorted.
  split; [|split].
  - exists loaded. split; [done|]. fold bvalues. intros i.
    rewrite list_elem_of_fmap. split.
    + intros (j & Hj%Nat2Z.inj & Hin). subst j. apply Hmem in Hin as (_ & b & Hb & Hlt).
      rewrite Nat.sub_0_r in Hb. eauto.
    + intros (b & Hb & Hlt). exists i. split; [done|]. apply Hmem.
      split; [lia|]. exists b. by rewrite Nat.sub_0_r.
  - clear Hmem Hpaths. induction Hsorted as [|i l _ IH Hall]; [constructor|].
    cbn [fmap list_fmap]. constructor; [done|].
    apply Forall_fmap. eapply Forall_impl; [exact Hall|]. intros j Hj. simpl. lia.
  - apply Forall2_fmap_l.
    clear Hmem Hsorted. revert b0_paths Hpaths.
    induction (flatnonzero_below bvalues _) as [|idx idxs IH]; intros b0_paths Hpaths.
    + injection Hpaths as <-. constructor.
    + cbn [for_each] in Hpaths. unfold getitem at 1 in Hpaths.
      destruct (out_files split !! idx) as [path|] eqn:Hpath; [|done].
      cbn [mbind result_bind] in Hpaths.
      destruct (for_each _ idxs) as [paths|e] eqn:Hrest; [|done].
      injection Hpaths as <-. constructor; [|by apply IH].
      split; [lia|]. by rewrite Nat2Z.id.
Qed.

End split_dwis.

(** The first direction of the local rotation example; the shell of [bench]
    leaves every file as it is. *)
Lemma create_tensor_image_removes_components_witness :
  let prefix := "/work/local_bvec_000_" in
  let compose_cmd :=
    "ImageMath 3 " +:+ (prefix +:+ "_tensor.nii") +:+ " ComponentTo3DTensor " +:+ prefix
      +:+ "_temp_dtiComp_" in
  ∃ w',
    @create_tensor_image bench two_voxel_mask [1; 0; 0]%Qc prefix mask_world
      = (Ok (prefix +:+ "_tensor.nii"), w') ∧
    Forall (λ name, files w' !! name = None) (component_files prefix) ∧
    runs w' = runs mask_world ++ [os_system compose_cmd].
Proof.
  apply (@create_tensor_image_removes_components bench two_voxel_mask [1; 0; 0]%Qc
           "/work/local_bvec_000_" mask_world).
  intros fs name _ Hname. exact Hname.
Defined.

(** The plus and minus series of [rpe_inputs], each with its warp. *)
Lemma ConcatRPESplits_warps_need_both_series_witness :
  let run := @ConcatRPESplits._run_interface
               (with_itk_compose_affines compose_to_file bench)
               rpe_inputs "/work" (World ∅ []) in
  let out := match run.1 with
             | Ok out => out
             | Raise _ =>
                 {| ConcatRPESplitsOutputSpec.b0_ref_image := EmptyString;
                    ConcatRPESplitsOutputSpec.b0_ref_mask := EmptyString;
                    ConcatRPESplitsOutputSpec.dwi_files := Undefined;
                    ConcatRPESplitsOutputSpec.bvec_files := Undefined;
                    ConcatRPESplitsOutputSpec.bval_files := Undefined;
                    ConcatRPESplitsOutputSpec.b0_images := Undefined;
                    ConcatRPESplitsOutputSpec.b0_indices := [];
                    ConcatRPESplitsOutputSpec.to_dwi_ref_affines := [];
                    ConcatRPESplitsOutputSpec.to_dwi_ref_warps := None;
                    ConcatRPESplitsOutputSpec.original_grouping := [] |}
             end in
  ∃ P M plus_affines minus_affines,
    py_len (OutputMultiObject_get (ConcatRPESplitsInputSpec.dwi_plus rpe_inputs)) = Ok P ∧
    py_len (OutputMultiObject_get (ConcatRPESplitsInputSpec.dwi_minus rpe_inputs)) = Ok M ∧
    py_iter (OutputMultiObject_get (ConcatRPESplitsInputSpec.hmc_affines_plus rpe_inputs))
      = Ok plus_affines ∧
    py_iter (OutputMultiObject_get (ConcatRPESplitsInputSpec.hmc_affines_minus rpe_inputs))
      = Ok minus_affines ∧
    (∀ plus_warp minus_warp,
       ConcatRPESplitsInputSpec.template_plus_to_ref_warp rpe_inputs = Some plus_warp →
       ConcatRPESplitsInputSpec.template_minus_to_ref_warp rpe_inputs = Some minus_warp →
       ConcatRPESplitsOutputSpec.to_dwi_ref_warps out
         = Some (replicate P plus_warp ++ replicate M minus_warp)) ∧
    (ConcatRPESplitsInputSpec.template_plus_to_ref_warp rpe_inputs = None ∨
     ConcatRPESplitsInputSpec.template_minus_to_ref_warp rpe_inputs = None →
       ConcatRPESplitsOutputSpec.to_dwi_ref_warps out = None) ∧
    length (ConcatRPESplitsOutputSpec.to_dwi_ref_affines out)
      = length plus_affines + length minus_affines ∧
    ConcatRPESplitsOutputSpec.b0_ref_image out
      = ConcatRPESplitsInputSpec.b0_ref_image rpe_inputs ∧
    ConcatRPESplitsOutputSpec.b0_ref_mask out
      = ConcatRPESplitsInputSpec.b0_ref_mask rpe_inputs.
Proof.
  apply (@ConcatRPESplits_warps_need_both_series
           (with_itk_compose_affines compose_to_file bench) rpe_inputs "/work" (World ∅ [])
           (@ConcatRPESplits._run_interface
              (with_itk_compose_affines compose_to_file bench)
              rpe_inputs "/work" (World ∅ [])).2).
  vm_compute. reflexivity.
Defined.

(** The two-volume series of [ras_world], with b-values 0 and 1000 and the
    default threshold of 50. *)
Lemma SplitDWIs_b0_images_follow_indices_witness :
  let run := @SplitDWIs._run_interface (with_nipype (splitting_fsl "/work") bench)
               split_ras_series "/work" ras_world in
  let b0_indices := [0%Z] in
  let b0_images := ["/work/vol0000.nii.gz"] in
  let dwi_files := ["/work/vol0000.nii.gz"; "/work/vol0001.nii.gz"] in
  (∃ loaded,
     np_loadtxt (SplitDWIsInputSpec.bval_file split_ras_series) 0 run.2
       = (Ok loaded, run.2) ∧
     let bvalues := match loaded with
                    | Arr0 x => [x]
                    | Arr1 xs => xs
                    | Arr2 rows => concat rows
                    end in
     ∀ i : nat, Z.of_nat i ∈ b0_indices ↔
       ∃ b, bvalues !! i = Some b ∧
            (b < Qc_of_Z (SplitDWIsInputSpec.b0_threshold split_ras_series))%Qc) ∧
  StronglySorted Z.lt b0_indices ∧
  Forall2 (λ idx path, (0 ≤ idx)%Z ∧ dwi_files !! Z.to_nat idx = Some path)
          b0_indices b0_images.
Proof.
  apply (@SplitDWIs_b0_images_follow_indices (with_nipype (splitting_fsl "/work") bench)
           split_ras_series "/work" ras_world
           (@SplitDWIs._run_interface (with_nipype (splitting_fsl "/work") bench)
              split_ras_series "/work" ras_world).2
           {| SplitDWIsOutputSpec.dwi_files :=
                ["/work/vol0000.nii.gz"; "/work/vol0001.nii.gz"];
              SplitDWIsOutputSpec.bvec_files :=
                ["/work/sub-01_dwi_0000.bvec"; "/work/sub-01_dwi_0001.bvec"];
              SplitDWIsOutputSpec.bval_files :=
                ["/work/sub-01_dwi_0000.bval"; "/work/sub-01_dwi_0001.bval"];
              SplitDWIsOutputSpec.b0_images := ["/work/vol0000.nii.gz"];
              SplitDWIsOutputSpec.b0_indices := [0%Z] |}).
  vm_compute. reflexivity.
Defined.

(** ** The output files of [ComposeTransforms] *)

Section compose_outputs.
Import ComposeTransformsInputSpec ComposeTransformsOutputSpec.
Context `{Externals}.

Lemma for_eachM_Forall2 {A B} (f : A → M B) (P : A → B → Prop) xs ys w w' :
  (∀ x y w0 w1, f x w0 = (Ok y, w1) → P x y) →
  for_eachM f xs w = (Ok ys, w') → Forall2 P xs ys.
Proof.
  intros Hf. revert ys w w'. induction xs as [|x xs IH]; intros ys w w' Hrun.
  - injection Hrun as <- _. constructor.
  - cbn [for_eachM] in Hrun.
    apply M_bind_inv in Hrun as (y & w1 & Hy & Hrun).
    apply M_bind_inv in Hrun as (ys' & w2 & Hys & Hrun).
    injection Hrun as <- _. constructor; [by eapply Hf|by eapply IH].
Qed.

Lemma Forall2_fmap_eq {A B C} (g : B → C) (h : A → C) xs ys :
  Forall2 (λ x y, g y = h x) xs ys → g <$> ys = h <$> xs.
Proof.
  induction 1 as [|x y xs ys Hxy _ IH]; [done|].
  cbn [fmap list_fmap]. f_equal; [exact Hxy|exact IH].
Qed.

Lemma _compose_tfms_names (in_file : string) (in_xform : list string)
    (reference_image : string) (index : nat) (newpath : string) (w w' : world)
    (el : string * string * string * string) :
  _compose_tfms in_file in_xform reference_image index newpath w = (Ok el, w') →
  el.1.1.1 = fname_presuffix in_file EmptyString ("_xform-" +:+ fmt_d 5 index)
                             (Some newpath) true ∧
  el.1.2 = fname_presuffix in_file EmptyString
             ("_affine_xform-" +:+ fmt_d 5 index +:+ ".mat") (Some newpath) false.
Proof.
  unfold _compose_tfms. intros Hrun.
  apply M_bind_inv in Hrun as (runtime & w1 & _ & Hrun).
  apply M_bind_inv in Hrun as (nii & w2 & _ & Hrun).
  apply M_bind_inv in Hrun as ([] & w3 & _ & Hrun).
  apply M_bind_inv in Hrun as ([affine_file affine_cmd] & w4 & Hcompose & Hrun).
  injection Hrun as <- _. unfold compose_affines in Hcompose.
  apply M_bind_inv in Hcompose as ([] & w5 & _ & Hcompose).
  apply M_bind_inv in Hcompose as ([|] & w6 & _ & Hcompose); [|done].
  by injection Hcompose as <- _ _.
Qed.

Lemma fmap_numbered {A B C} (name : nat → A → C) (l : list A) (k : list B) (start : nat) :
  length k = length l →
  (λ item : nat * (A * B), name item.1 item.2.1) <$> zip (seq start (length l)) (zip l k)
    = imap (λ i, name (start + i)) l.
Proof.
  revert k start. induction l as [|x l IH]; intros [|y k] start Hlen; try done.
  cbn [length seq zip zip_with fmap list_fmap imap]. rewrite Nat.add_0_r. f_equal.
  injection Hlen as Hlen. rewrite (IH k (S start) Hlen).
  apply imap_ext. intros i z _. simpl. f_equal. lia.
Qed.

(** The outputs of [ComposeTransforms] follow the volumes: volume [i] of the
    series gives the composite warp [<volume>_xform-<i, five digits><ext>] and
    the composed affine [<volume>_affine_xform-<i, five digits>.mat], both in
    the working directory and in the order of the volumes; the command log
    is reported exactly when [save_cmd] is set, and then holds one line. *)
Theorem ComposeTransforms_outputs_named_by_volume (inputs : ComposeTransformsInputSpec.t)
    (cwd : string) (w w' : world) (out : ComposeTransformsOutputSpec.t) :
  ComposeTransforms._run_interface inputs cwd w = (Ok out, w') →
  out_warps out
    = imap (λ i in_file, fname_presuffix in_file EmptyString ("_xform-" +:+ fmt_d 5 i)
                                         (Some cwd) true) (dwi_files inputs) ∧
  out_affines out
    = imap (λ i in_file, fname_presuffix in_file EmptyString
                           ("_affine_xform-" +:+ fmt_d 5 i +:+ ".mat") (Some cwd) false)
           (dwi_files inputs) ∧
  log_cmdline out
    = (if save_cmd inputs then Some (os_path_join cwd "command.txt") else None) ∧
  (save_cmd inputs = true →
     ∃ text, files w' !! os_path_join cwd "command.txt" = Some (Lines [text])).
Proof.
  unfold ComposeTransforms._run_interface. intros Hrun.
  apply M_bind_inv in Hrun as (chains & w1 & [_ ->]%lift_Ok & Hrun).
  case_decide as Hlen; [|done].
  apply M_bind_inv in Hrun as (out_files & w2 & Hloop & Hrun).
  assert (Forall2
    (λ (item : nat * (string * list string)) (el : string * string * string * string),
       el.1.1.1 = fname_presuffix item.2.1 EmptyString ("_xform-" +:+ fmt_d 5 item.1)
                                  (Some cwd) true ∧
       el.1.2 = fname_presuffix item.2.1 EmptyString
                  ("_affine_xform-" +:+ fmt_d 5 item.1 +:+ ".mat") (Some cwd) false)
    (zip (seq 0 (length (dwi_files inputs))) (zip (dwi_files inputs) chains)) out_files)
    as Hnames.
  { eapply for_eachM_Forall2; [|exact Hloop].
    intros [i [in_file in_xfm]] el w0 w3. apply _compose_tfms_names. }
  assert ((λ el : string * string * string * string, el.1.1.1) <$> out_files
          = imap (λ i in_file, fname_presuffix in_file EmptyString ("_xform-" +:+ fmt_d 5 i)
                                               (Some cwd) true) (dwi_files inputs)) as Hwarps.
  { rewrite <- (fmap_numbered
        (λ i in_file, fname_presuffix in_file EmptyString ("_xform-" +:+ fmt_d 5 i)
                                      (Some cwd) true) _ chains 0) by done.
    apply Forall2_fmap_eq. eapply Forall2_impl; [exact Hnames|]. by intros item el [-> _]. }
  assert ((λ el : string * string * string * string, el.1.2) <$> out_files
          = imap (λ i in_file, fname_presuffix in_file EmptyString
                                 ("_affine_xform-" +:+ fmt_d 5 i +:+ ".mat") (Some cwd) false)
                 (dwi_files inputs)) as Haffines.
  { rewrite <- (fmap_numbered
        (λ i in_file, fname_presuffix in_file EmptyString
                        ("_affine_xform-" +:+ fmt_d 5 i +:+ ".mat") (Some cwd) false)
        _ chains 0) by done.
    apply Forall2_fmap_eq. eapply Forall2_impl; [exact Hnames|]. by intros item el [_ ->]. }
  destruct (save_cmd inputs).
  - apply M_bind_inv in Hrun as ([] & w3 & Hprint & Hrun).
    injection Hrun as <- <-. injection Hprint as <-.
    cbn [out_warps out_affines log_cmdline files].
    repeat split; try done. intros _. eexists. apply lookup_insert_eq.
  - injection Hrun as <- <-. cbn [out_warps out_affines log_cmdline].
    repeat split; done.
Qed.

End compose_outputs.

(** The run on two warps for three volumes. *)
Lemma ComposeTransforms_outputs_named_by_volume_witness :
  let run := @ComposeTransforms._run_interface ants_installed two_warps_three_volumes
               "/work" three_volumes_world in
  let dwi_files := ComposeTransformsInputSpec.dwi_files two_warps_three_volumes in
  ["/work/dwi_0000_xform-00000.nii.gz"; "/work/dwi_0001_xform-00001.nii.gz";
   "/work/dwi_0002_xform-00002.nii.gz"]
    = imap (λ i in_file, fname_presuffix in_file EmptyString ("_xform-" +:+ fmt_d 5 i)
                                         (Some "/work") true) dwi_files ∧
  ["/work/dwi_0000_affine_xform-00000.mat"; "/work/dwi_0001_affine_xform-00001.mat";
   "/work/dwi_0002_affine_xform-00002.mat"]
    = imap (λ i in_file, fname_presuffix in_file EmptyString
                           ("_affine_xform-" +:+ fmt_d 5 i +:+ ".mat") (Some "/work") false)
           dwi_files ∧
  None = (if ComposeTransformsInputSpec.save_cmd two_warps_three_volumes
          then Some (os_path_join "/work" "command.txt") else None) ∧
  (ComposeTransformsInputSpec.save_cmd two_warps_three_volumes = true →
     ∃ text, files run.2 !! os_path_join "/work" "command.txt" = Some (Lines [text])).
Proof.
  apply (@ComposeTransforms_outputs_named_by_volume ants_installed two_warps_three_volumes
           "/work" three_volumes_world
           (@ComposeTransforms._run_interface ants_installed two_warps_three_volumes
              "/work" three_volumes_world).2
           {| ComposeTransformsOutputSpec.out_warps :=
                ["/work/dwi_0000_xform-00000.nii.gz"; "/work/dwi_0001_xform-00001.nii.gz";
                 "/work/dwi_0002_xform-00002.nii.gz"];
              ComposeTransformsOutputSpec.out_affines :=
                ["/work/dwi_0000_affine_xform-00000.mat";
                 "/work/dwi_0001_affine_xform-00001.mat";
                 "/work/dwi_0002_affine_xform-00002.mat"];
              ComposeTransformsOutputSpec.transform_lists :=
                [["/work/b0_to_t1.mat"; "/work/hmc_b0_0.mat"];
                 ["/work/b0_to_t1.mat"; "/work/hmc_b0_0.mat"];
                 ["/work/b0_to_t1.mat"; "/work/hmc_b0_0.mat"]];
              ComposeTransformsOutputSpec.log_cmdline := None |}).
  vm_compute. reflexivity.
Defined.

(** ** Images already in (L,P,S) orientation given to [Conform] *)

Lemma lps_flip_transform (shape : list nat) :
  ∃ t0 t1 t2 t3 : Qc,
    mat_dot (inv_ornt_aff [(0, (-1)%Z); (1, (-1)%Z); (2, 1%Z)] shape) (np_eye 4)
      = [[-1; 0; 0; t0]; [0; -1; 0; t1]; [0; 0; 1; t2]; [0; 0; 0; t3]]%Qc.
Proof.
  unfold inv_ornt_aff.
  cbn [length fmap list_fmap fst snd app].
  set (offsets := zip_with _ _ (_ <$> take 3 shape)).
  unfold mat_dot, np_T, np_diag, np_eye, dot_vec.
  cbn -[Qcplus Qcmult Qcopp Qcminus Qcdiv Qc_of_Z offsets decide].
  repeat (first [rewrite decide_True by lia | rewrite decide_False by lia]).
  cbn [foldr zip_with].
  generalize (default 0%Qc (offsets !! 0)) (default 0%Qc (offsets !! 1))
             (default 0%Qc (offsets !! 2)).
  intros o0 o1 o2.
  replace (Qc_of_Z (-1)) with (- 1)%Qc by compute_done.
  replace (Qc_of_Z 1) with 1%Qc by compute_done.
  eexists _, _, _, _.
  repeat (f_equal; try first [ring | reflexivity]).
Qed.

Lemma isclose_negated (a : Qc) :
  (Q2Qc (1 # 100000000) ≤ a ∨ a ≤ - Q2Qc (1 # 100000000))%Qc →
  isclose (Q2Qc (1 # 100000000)) (- a)%Qc a = false.
Proof.
  intros Ha. unfold isclose. apply bool_decide_eq_false.
  repeat case_decide;
    unfold Qcle, Qclt, Qcminus, Qcplus, Qcmult, Qcopp, Q2Qc in *; cbn [this] in *;
    rewrite ?Qred_correct in *.
  all: destruct Ha; lra.
Qed.

Lemma dot_vec_zeros (row zeros : list Qc) :
  Forall (λ z, z = 0%Qc) zeros → dot_vec row zeros = 0%Qc.
Proof.
  unfold dot_vec. intros Hzeros. revert row.
  induction Hzeros as [|z zeros -> _ IH]; intros [|x row]; try done.
  cbn [zip_with foldr]. rewrite IH. ring.
Qed.

Lemma flipped_affine_not_close (a00 t0 t1 t2 t3 : Qc) (row0 : list Qc)
    (rows : list (list Qc)) :
  (Q2Qc (1 # 100000000) ≤ a00 ∨ a00 ≤ - Q2Qc (1 # 100000000))%Qc →
  np_allclose (Q2Qc (1 # 100000000))
    (mat_dot ((a00 :: row0) :: rows)
             [[-1; 0; 0; t0]; [0; -1; 0; t1]; [0; 0; 1; t2]; [0; 0; 0; t3]]%Qc)
    ((a00 :: row0) :: rows) = false.
Proof.
  intros Ha00. unfold np_allclose. apply andb_false_intro2.
  unfold mat_dot, np_T.
  cbn [fmap list_fmap zip zip_with forallb head default length np_transpose tail id].
  replace (dot_vec (a00 :: row0) [-1; 0; 0; 0]%Qc) with (- a00)%Qc.
  2:{ unfold dot_vec. cbn [zip_with foldr]. fold (dot_vec row0 [0; 0; 0]%Qc).
      rewrite (dot_vec_zeros row0 [0; 0; 0]%Qc) by (by repeat constructor). ring. }
  rewrite isclose_negated by done.
  by rewrite !andb_false_r.
Qed.

Section conform_lps.
Context `{Externals}.

(** [Conform] cannot handle an image that is already in (L,P,S) orientation
    and needs no resampling: the transform it derives flips the first two
    axes although the image was left as it is, the assertion on the two
    affines fails, and nothing is written. *)
Theorem Conform_lps_image_fails_its_assertion (inputs : ConformInputSpec.t) (cwd : string)
    (w : world) (img : nifti) (atol a00 : Qc) (row0 : list Qc) (rows : list (list Qc)) :
  files w !! ConformInputSpec.in_file inputs = Some (Nifti img) →
  io_orientation (affine img) = [(0, (-1)%Z); (1, (-1)%Z); (2, 1%Z)] →
  Conform.atol_of_unit (if decide (xyz_unit img = "unknown") then "mm" else xyz_unit img)
    = Ok atol →
  np_allclose atol [take 3 (zooms img)] [ConformInputSpec.target_zooms inputs] = true →
  take 3 (shape img) = ConformInputSpec.target_shape inputs →
  affine img = (a00 :: row0) :: rows →
  (Q2Qc (1 # 100000000) ≤ a00 ∨ a00 ≤ - Q2Qc (1 # 100000000))%Qc →
  Conform._run_interface inputs cwd w = (Raise AssertionError, w).
Proof.
  intros Hfile Hornt Hatol Hzooms Hshape Haffine Ha00.
  assert (aff2axcodes (affine img) = Ok ["L"; "P"; "S"]) as Hcodes.
  { unfold aff2axcodes. by rewrite Hornt. }
  assert (to_lps img = Ok img) as Hlps.
  { unfold to_lps. rewrite Hcodes. cbn [mbind result_bind].
    by rewrite decide_False by (by intros []). }
  unfold Conform._run_interface.
  assert (nb_load (ConformInputSpec.in_file inputs) w = (Ok img, w)) as Hload.
  { unfold nb_load, mbind, M_bind, read_file. by rewrite Hfile. }
  rewrite (M_bind_Ok _ _ _ _ _ Hload).
  unfold mbind at 1, M_bind at 1, lift at 1. rewrite Hcodes.
  unfold mbind at 1, M_bind at 1, lift at 1. rewrite Hlps.
  unfold mbind at 1, M_bind at 1, lift at 1. rewrite Hatol.
  rewrite Hzooms, Hshape, bool_decide_eq_true_2 by done.
  cbn [negb orb]. unfold mbind at 1, M_bind at 1. cbn [mret M_ret].
  rewrite bool_decide_eq_true_2 by done.
  unfold mbind at 1, M_bind at 1. cbn [mret M_ret].
  rewrite Hornt.
  destruct (lps_flip_transform (shape img)) as (t0 & t1 & t2 & t3 & ->).
  replace (np_allclose _ _ _) with false; [done|].
  symmetry. rewrite Haffine. by apply flipped_affine_not_close.
Qed.

End conform_lps.

(** The (L,P,S) image of the example of C4. *)
Lemma Conform_lps_image_fails_its_assertion_witness :
  @Conform._run_interface bench conform_as_is "/work" (t1w_world lps_affine)
    = (Raise AssertionError, t1w_world lps_affine).
Proof.
  apply (@Conform_lps_image_fails_its_assertion bench conform_as_is "/work"
           (t1w_world lps_affine) (t1w lps_affine) (Q2Qc (1 # 100)) (- 1)%Qc
           [0; 0; 0]%Qc [[0; -1; 0; 0]; [0; 0; 1; 0]; [0; 0; 0; 1]]%Qc).
  - reflexivity.
  - vm_compute. reflexivity.
  - reflexivity.
  - vm_compute. reflexivity.
  - reflexivity.
  - compute_done.
  - right. compute_done.
Defined.

(** ** The length of the gradients under the flips of [ConformDwi] *)

Lemma flipped_entry (row : list Qc) (flip : Z) (j : nat) :
  default 0%Qc (((λ x, x * Qc_of_Z flip)%Qc <$> row) !! j)
    = (default 0%Qc (row !! j) * Qc_of_Z flip)%Qc.
Proof.
  rewrite list_lookup_fmap. destruct (row !! j); simpl; [done|ring].
Qed.

(** The flips of [ConformDwi] keep the length of every gradient: in the
    table of three rows, the sum of squares of each column is the same
    before and after the axes are permuted and their signs changed. *)
Theorem flip_bvecs_keeps_gradient_lengths (r0 r1 r2 : list Qc)
    (transform_orientation : list (nat * Z)) (output_rows : list (list Qc)) :
  flip_bvecs (Arr2 [r0; r1; r2]) transform_orientation = Ok (Arr2 output_rows) →
  length transform_orientation = 3 →
  NoDup transform_orientation.*1 →
  Forall (λ p : nat * Z, p.2 = 1%Z ∨ p.2 = (-1)%Z) transform_orientation →
  ∀ j, sum_of_squares (np_column output_rows j)
       = sum_of_squares (np_column [r0; r1; r2] j).
Proof.
  intros Hflip Hlen Hnd Hsigns j.
  destruct transform_orientation as [|[a s0] [|[b s1] [|[c s2] [|? ?]]]]; try done.
  apply Forall_cons in Hsigns as [Hs0 Hsigns].
  apply Forall_cons in Hsigns as [Hs1 Hsigns].
  apply Forall_cons in Hsigns as [Hs2 _].
  cbn [fmap list_fmap fst] in Hnd.
  apply NoDup_cons in Hnd as [Hab Hnd]. apply NoDup_cons in Hnd as [Hbc _].
  rewrite !not_elem_of_cons in Hab. rewrite !not_elem_of_cons in Hbc.
  destruct Hab as (Hab & Hac & _). destruct Hbc as (Hbc & _).
  cbn [flip_bvecs for_each] in Hflip. unfold getitem in Hflip.
  destruct a as [|[|[|a]]], b as [|[|[|b]]], c as [|[|[|c]]]; try done;
    cbn [lookup list_lookup mbind result_bind mret result_ret] in Hflip;
    injection Hflip as <-;
    unfold sum_of_squares, np_column; cbn [fmap list_fmap foldr];
    rewrite !flipped_entry;
    cbn [snd] in Hs0, Hs1, Hs2;
    destruct Hs0 as [-> | ->], Hs1 as [-> | ->], Hs2 as [-> | ->];
    replace (Qc_of_Z (-1)) with (- 1)%Qc by compute_done;
    replace (Qc_of_Z 1) with 1%Qc by compute_done; ring.
Qed.

(** The flip from (R,A,S) to (L,P,S) on the table of [ras_world]. *)
Lemma flip_bvecs_keeps_gradient_lengths_witness :
  sum_of_squares (np_column [[-1; 0]; [0; -1]; [0; 0]]%Qc 0)
    = sum_of_squares (np_column [[1; 0]; [0; 1]; [0; 0]]%Qc 0).
Proof.
  refine (flip_bvecs_keeps_gradient_lengths [1; 0]%Qc [0; 1]%Qc [0; 0]%Qc
            [(0, (-1)%Z); (1, (-1)%Z); (2, 1%Z)] [[-1; 0]; [0; -1]; [0; 0]]%Qc _ _ _ _ 0).
  - compute_done.
  - reflexivity.
  - apply (bool_decide_unpack _). vm_compute. exact I.
  - repeat constructor; simpl; lia.
Defined.

(** ** Rotating one gradient *)

Section points.
Context `{Externals}.

(** How a gradient that is not a b0 is rotated: the origin and five times
    the gradient are written as two points, the point-transform program is
    started once on them, and the result is the difference of the two
    transformed points (first three columns), divided by its norm; the
    translation of the transform cancels in the difference. *)
Theorem aattp_rotate_vec_uses_two_points (orig_vec : list Qc) (transform cwd : string)
    (w w' : world) (rotated_unit_vec : list Qc) (cmd : string) :
  sum_of_squares orig_vec ≠ 0%Qc →
  aattp_rotate_vec orig_vec transform cwd w = (Ok (rotated_unit_vec, cmd), w') →
  let orig_txt :=
    fname_presuffix transform EmptyString "_pre_rotation.csv" (Some cwd) false in
  let rotated_txt :=
    fname_presuffix transform EmptyString "_post_rotation.csv" (Some cwd) false in
  cmd = aattp_cmd orig_txt rotated_txt transform ∧
  runs w' = runs w ++ [os_system cmd] ∧
  files w' =
    shell cmd (<[orig_txt := Csv "x,y,z,t"
                   [[0; 0; 0; 0]; ((λ x, Qc_of_Z 5 * x) <$> orig_vec) ++ [0]]%Qc]> (files w)) ∧
  ∃ header rows table p0 p1,
    files w' !! rotated_txt = Some (Csv header rows) ∧
    loadtxt_array 0 rows = Ok (Arr2 table) ∧
    table !! 0 = Some p0 ∧ table !! 1 = Some p1 ∧
    rotated_unit_vec = unit_vector (zip_with Qcminus (take 3 p1) (take 3 p0)).
Proof.
  intros Hb0 Hrun orig_txt rotated_txt. unfold aattp_rotate_vec in Hrun.
  rewrite decide_False in Hrun by done. fold orig_txt rotated_txt in Hrun.
  apply M_bind_inv in Hrun as ([] & w1 & Hwrite & Hrun). injection Hwrite as <-.
  apply M_bind_inv in Hrun as ([] & w2 & Hshell & Hrun). injection Hshell as <-.
  apply M_bind_inv in Hrun as (loaded & w3 & Hload & Hrun).
  apply M_bind_inv in Hrun as (rotated_vec & w4 & [Hcols ->]%lift_Ok & Hrun).
  apply M_bind_inv in Hrun as (p1 & w5 & [Hp1 ->]%lift_Ok & Hrun).
  apply M_bind_inv in Hrun as (p0 & w6 & [Hp0 ->]%lift_Ok & Hrun).
  injection Hrun as <- <- <-.
  unfold np_loadtxt_csv in Hload.
  apply M_bind_inv in Hload as (f & w7 & Hread & Hload).
  unfold read_file in Hread. cbn [files] in Hread.
  destruct (shell _ _ !! rotated_txt) as [f'|] eqn:Hfile; [|done].
  injection Hread as <- <-. destruct f' as [|header rows| | |]; try done.
  apply lift_Ok in Hload as [Hload ->].
  destruct loaded as [| |table]; try done. injection Hcols as <-.
  unfold getitem in Hp0, Hp1. rewrite list_lookup_fmap in Hp0, Hp1.
  destruct (table !! 0) as [q0|] eqn:Hq0; [|done].
  destruct (table !! 1) as [q1|] eqn:Hq1; [|done].
  injection Hp0 as <-. injection Hp1 as <-.
  split; [done|]. split; [done|]. split; [done|].
  exists header, rows, table, q0, q1. done.
Qed.

End points.

(** The gradient (1,0,0) under a point-transform program that applies the
    identity. *)
Lemma aattp_rotate_vec_uses_two_points_witness :
  let tools := with_shell (identity_points_tool "/work" ["/xfm/a.mat"; "/xfm/b.mat"]) bench in
  let run := @aattp_rotate_vec tools [1; 0; 0]%Qc "/xfm/a.mat" "/work" (World ∅ []) in
  let rotated_unit_vec := match run.1 with Ok r => r.1 | Raise _ => [] end in
  let cmd := match run.1 with Ok r => r.2 | Raise _ => EmptyString end in
  let orig_txt :=
    fname_presuffix "/xfm/a.mat" EmptyString "_pre_rotation.csv" (Some "/work") false in
  let rotated_txt :=
    fname_presuffix "/xfm/a.mat" EmptyString "_post_rotation.csv" (Some "/work") false in
  cmd = aattp_cmd orig_txt rotated_txt "/xfm/a.mat" ∧
  runs run.2 = runs (World ∅ []) ++ [os_system cmd] ∧
  files run.2 =
    @shell tools cmd
      (<[orig_txt := Csv "x,y,z,t"
           [[0; 0; 0; 0]; ((λ x, Qc_of_Z 5 * x) <$> [1; 0; 0]) ++ [0]]%Qc]>
         (files (World ∅ []))) ∧
  ∃ header rows table p0 p1,
    files run.2 !! rotated_txt = Some (Csv header rows) ∧
    loadtxt_array 0 rows = Ok (Arr2 table) ∧
    table !! 0 = Some p0 ∧ table !! 1 = Some p1 ∧
    rotated_unit_vec = @unit_vector tools (zip_with Qcminus (take 3 p1) (take 3 p0)).
Proof.
  apply (@aattp_rotate_vec_uses_two_points
           (with_shell (identity_points_tool "/work" ["/xfm/a.mat"; "/xfm/b.mat"]) bench)
           [1; 0; 0]%Qc "/xfm/a.mat" "/work" (World ∅ [])).
  - compute_done.
  - vm_compute. reflexivity.
Defined.
